(** * The buffered, rotation-aware log handle manager (src/terminal/logfile.c)

    A shallow embedding of logfile.c: the registry of Log handles, the
    write buffer, the periodic rotation check and the reopen protocol,
    followed by the properties the specification states about them.

    Modelling conventions
    - A [Log *] is an address ([ptr]); the live [Log] objects are a finite
      map from addresses ([heap]), and the intrusive list rooted at
      [logroot] is the list of addresses in list order, head first.  The
      blocks a Log owns ([l->st], [l->name], [l->buffer]) are fields of
      the record: freeing the Log frees them with it.
    - Every call into libc or the kernel is appended to [trace], oldest
      first, with its result.  What a call returns is decided by an
      arbitrary [OS], a function of the calls made so far, so that every
      theorem holds whatever the file system, the allocator and other
      processes do.
    - [int] and [time_t] fields are integers of Z.  The only arithmetic on
      them is the increment and decrement of the counters; signed overflow
      is undefined in C, and the embedding leaves runs of 2^31 operations
      aside.  [size_t] lengths are the lengths of byte lists: the chunk
      handed to logfwrite is an object in memory, so that
      [l->buflen + n] does not wrap.
    - logfile.h is not part of the sources at hand: the fields of
      [struct Log] are those logfile.c uses, and the constants
      [LOG_BUFFER_SIZE] and [LOG_STAT_CHECK_INTERVAL] are parameters. *)

From Stdlib Require Import ZArith String List.
From Stdlib.Strings Require Import Byte.
From stdpp Require Import base option list gmap strings.

Open Scope Z_scope.

(** ** Data *)

(** The fields of [struct stat] logfile.c reads. *)
Record stat : Type := mkstat {
  st_dev : Z;
  st_ino : Z;
  st_nlink : Z;
  st_size : Z;
  st_mtime : Z;
  st_ctime : Z
}.

(** [calloc(1, sizeof(struct stat))]. *)
Definition zero_stat : stat := mkstat 0 0 0 0 0 0.

(** A [FILE *] is identified with the descriptor it wraps. *)
Definition FILE : Type := Z.
Definition fileno (f : FILE) : Z := f.

Definition ptr : Type := nat.

Record Log : Type := mkLog {
  fp : FILE;
  name : string;
  opencount : Z;
  writecount : Z;
  flushcount : Z;
  st : stat;
  buffer : option (list byte);   (* None is the NULL pointer *)
  buflen : nat;
  stat_countdown : Z
}.

Definition set_opencount (v : Z) (L : Log) : Log :=
  mkLog (fp L) (name L) v (writecount L) (flushcount L) (st L)
        (buffer L) (buflen L) (stat_countdown L).
Definition set_writecount (v : Z) (L : Log) : Log :=
  mkLog (fp L) (name L) (opencount L) v (flushcount L) (st L)
        (buffer L) (buflen L) (stat_countdown L).
Definition set_flushcount (v : Z) (L : Log) : Log :=
  mkLog (fp L) (name L) (opencount L) (writecount L) v (st L)
        (buffer L) (buflen L) (stat_countdown L).
Definition set_st (v : stat) (L : Log) : Log :=
  mkLog (fp L) (name L) (opencount L) (writecount L) (flushcount L) v
        (buffer L) (buflen L) (stat_countdown L).
Definition set_buffer (v : option (list byte)) (L : Log) : Log :=
  mkLog (fp L) (name L) (opencount L) (writecount L) (flushcount L) (st L)
        v (buflen L) (stat_countdown L).
Definition set_buflen (v : nat) (L : Log) : Log :=
  mkLog (fp L) (name L) (opencount L) (writecount L) (flushcount L) (st L)
        (buffer L) v (stat_countdown L).
Definition set_stat_countdown (v : Z) (L : Log) : Log :=
  mkLog (fp L) (name L) (opencount L) (writecount L) (flushcount L) (st L)
        (buffer L) (buflen L) v.

(** ** The environment *)

Inductive event : Type :=
| EvFstat (fd : Z) (r : option stat)
| EvAlloc (ok : bool)                          (* calloc, malloc, SaveStr *)
| EvFwrite (f : FILE) (data : list byte) (r : Z)
| EvFflush (f : FILE) (r : Z)
| EvFclose (f : FILE)
| EvClose (fd : Z)
| EvOpen (path : string) (r : Z)
| EvDup (fd : Z) (r : Z).

(** What the next call returns, given the calls made so far. *)
Record OS : Type := mkOS {
  os_fstat : list event -> Z -> option stat;     (* None: fstat < 0 *)
  os_alloc : list event -> bool;                 (* false: NULL *)
  os_fwrite : list event -> FILE -> list byte -> bool;  (* the item was written *)
  os_fflush : list event -> FILE -> bool;        (* false: EOF *)
  os_open : list event -> string -> Z;
  os_dup : list event -> Z -> Z
}.

Record State : Type := mkState {
  logroot : list ptr;
  heap : gmap ptr Log;
  trace : list event
}.

(** ** Outcomes and the monad of the embedding *)

Inductive result (A : Type) : Type :=
| Ret (a : A) (s : State)     (* the call returned a *)
| Abort (s : State)           (* abort() *)
| Fault                       (* a Log * that points to no live Log was dereferenced *)
| Timeout.                    (* the recursion budget of lf_move_fd ran out *)
Arguments Ret {A} a s.
Arguments Abort {A} s.
Arguments Fault {A}.
Arguments Timeout {A}.

Definition M (A : Type) : Type := State -> result A.

#[global] Instance M_ret : MRet M := fun A a s => Ret a s.
#[global] Instance M_bind : MBind M := fun A B k m s =>
  match m s with
  | Ret a s' => k a s'
  | Abort s' => Abort s'
  | Fault => Fault
  | Timeout => Timeout
  end.

Definition get_state : M State := fun s => Ret s s.
Definition abort {A} : M A := fun s => Abort s.
Definition timeout {A} : M A := fun _ => Timeout.

(** [*l] *)
Definition get_log (l : ptr) : M Log := fun s =>
  match heap s !! l with
  | Some L => Ret L s
  | None => Fault
  end.

(** [*l = L] *)
Definition set_log (l : ptr) (L : Log) : M unit := fun s =>
  Ret tt (mkState (logroot s) (<[l := L]> (heap s)) (trace s)).

Definition emit (e : event) : M unit := fun s =>
  Ret tt (mkState (logroot s) (heap s) (trace s ++ [e])).

Definition memcpy (dst : list byte) (off : nat) (src : list byte) : list byte :=
  take off dst ++ src ++ drop (off + length src) dst.

Section Logfile.

Variable os : OS.
Variable LOG_BUFFER_SIZE : nat.
Variable LOG_STAT_CHECK_INTERVAL : Z.

(** *** libc and system calls *)

Definition sys_fstat (fd : Z) : M (option stat) :=
  s ← get_state;
  let r := os_fstat os (trace s) fd in
  emit (EvFstat fd r);; mret r.

Definition sys_alloc : M bool :=
  s ← get_state;
  let r := os_alloc os (trace s) in
  emit (EvAlloc r);; mret r.

(** [fwrite(data, n, 1, f)]: the number of items written, 0 or 1; it is 0
    without any effect on the stream when [n] is 0. *)
Definition fwrite_result (tr : list event) (f : FILE) (data : list byte) : Z :=
  if (length data =? 0)%nat then 0
  else if os_fwrite os tr f data then 1 else 0.

Definition sys_fwrite (f : FILE) (data : list byte) : M Z :=
  s ← get_state;
  let r := fwrite_result (trace s) f data in
  emit (EvFwrite f data r);; mret r.

Definition sys_fflush (f : FILE) : M Z :=
  s ← get_state;
  let r := if os_fflush os (trace s) f then 0 else -1 in
  emit (EvFflush f r);; mret r.

Definition sys_fclose (f : FILE) : M unit := emit (EvFclose f).
Definition sys_close (fd : Z) : M unit := emit (EvClose fd).

Definition sys_open (path : string) : M Z :=
  s ← get_state;
  let r := os_open os (trace s) path in
  emit (EvOpen path r);; mret r.

Definition sys_dup (fd : Z) : M Z :=
  s ← get_state;
  let r := os_dup os (trace s) fd in
  emit (EvDup fd r);; mret r.

(** *** changed_logfile *)

Definition changed_logfile (l : ptr) : M unit :=
  L ← get_log l;
  r ← sys_fstat (fileno (fp L));
  match r with
  | None => mret tt
  | Some o =>
      let s := st L in
      if st_size s <? st_size o
      then set_log l (set_st (mkstat (st_dev s) (st_ino s) (st_nlink s)
                                     (st_size o) (st_mtime o) (st_ctime s)) L)
      else mret tt
  end.

(** *** stolen_logfile *)

(** The comparison of the copy [o] of the cache with the refreshed cache
    [s], as the [if] that ends stolen_logfile writes it. *)
Definition stolen_test (o s : stat) : bool :=
  ((st_dev s =? 0) && (st_ino s =? 0))
  || (st_nlink s =? 0)
  || (st_size s <? st_size o)
  || negb (st_mtime s =? st_mtime o)
  || (negb (st_ctime s =? st_ctime o)
      && negb ((st_mtime s =? st_ctime s) && (st_ctime o <? st_ctime s))).

(** [fstat(fd, s)] followed by [s->st_ino = s->st_dev = 0] when it fails;
    a failed fstat leaves the other fields of [*s] as they were. *)
Definition refreshed (o : stat) (r : option stat) : stat :=
  match r with
  | Some n => n
  | None => mkstat 0 0 (st_nlink o) (st_size o) (st_mtime o) (st_ctime o)
  end.

Definition stolen_logfile (l : ptr) : M Z :=
  L ← get_log l;
  let o := st L in
  r ← sys_fstat (fileno (fp L));
  let s := refreshed o r in
  set_log l (set_st s L);;
  if (st_dev o =? 0) && (st_ino o =? 0) then mret 0
  else if stolen_test o s then mret (-1)
  else mret 0.

(** *** periodic_stat_check *)

Definition periodic_stat_check (l : ptr) : M Z :=
  L ← get_log l;
  let c := stat_countdown L - 1 in
  set_log l (set_stat_countdown c L);;
  if 0 <? c then mret 0
  else
    set_log l (set_stat_countdown LOG_STAT_CHECK_INTERVAL L);;
    r ← stolen_logfile l;
    if negb (r =? 0) then mret 1
    else changed_logfile l;; mret 0.

(** *** flush_log_buffer *)

Definition flush_log_buffer (l : ptr) : M Z :=
  L ← get_log l;
  match buffer L with
  | None => mret 0
  | Some b =>
      if (buflen L =? 0)%nat then mret 0
      else
        r ← sys_fwrite (fp L) (take (buflen L) b);
        if negb (r =? 1)
        then set_log l (set_buflen 0 L);; mret (-1)
        else set_log l (set_writecount (writecount L + 1) (set_buflen 0 L));;
             mret 0
  end.

(** *** lf_move_fd

    The recursion of the C function is bounded by [fuel]; [lf_move_fd]
    below gives it [need_fd + 1] levels, which is what a kernel that hands
    out unused descriptors needs at most, since every level below the last
    holds a descriptor of its own under [need_fd]. *)

Fixpoint lf_move_fd_rec (fuel : nat) (fd need_fd : Z) : M Z :=
  if fd =? need_fd then mret fd
  else
    match fuel with
    | O => timeout
    | S fuel' =>
        r ← (if (0 <=? fd) && (fd <? need_fd)
             then d ← sys_dup fd; lf_move_fd_rec fuel' d need_fd
             else mret (-1));
        sys_close fd;;
        mret r
    end.

Definition lf_move_fd (fd need_fd : Z) : M Z :=
  lf_move_fd_rec (S (Z.to_nat need_fd)) fd need_fd.

(** *** logfclose *)

(** [*lp = l->next] for the first [lp] with [*lp == l]. *)
Fixpoint unlink (l : ptr) (ls : list ptr) : list ptr :=
  match ls with
  | [] => []
  | x :: ls' => if bool_decide (x = l) then ls' else x :: unlink l ls'
  end.

Definition set_logroot (ls : list ptr) : M unit := fun s =>
  Ret tt (mkState ls (heap s) (trace s)).

(** [free(l->buffer); free(l->name); free(l->st); free(l)] *)
Definition free_log (l : ptr) : M unit := fun s =>
  Ret tt (mkState (logroot s) (delete l (heap s)) (trace s)).

Definition logfclose (l : ptr) : M Z :=
  s ← get_state;
  if bool_decide (l ∈ logroot s) then
    L ← get_log l;
    let c := opencount L - 1 in
    set_log l (set_opencount c L);;
    if 0 <? c then mret 0
    else if c <? 0 then abort
    else
      set_logroot (unlink l (logroot s));;
      match buffer L with
      | Some b =>
          if (0 <? buflen L)%nat
          then sys_fwrite (fp L) (take (buflen L) b);; mret tt
          else mret tt
      | None => mret tt
      end;;
      sys_fclose (fp L);;
      free_log l;;
      mret 0
  else mret (-1).

(** *** logfile_reopen and the registered reopen function *)

Definition logfile_reopen (nm : string) (wantfd : Z) (l : ptr) : M Z :=
  sys_close wantfd;;
  got_fd ← sys_open nm;
  failed ← (if got_fd <? 0 then mret true
            else r ← lf_move_fd got_fd wantfd; mret (r <? 0));
  if failed : bool then logfclose l;; mret (-1)
  else changed_logfile l;; mret 0.

Definition reopen_fn : Type := string -> Z -> ptr -> M Z.

(** The value [lf_reopen_fn] holds after [logreopen_register(fn)]. *)
Definition logreopen_register (fn : option reopen_fn) : reopen_fn :=
  match fn with
  | Some f => f
  | None => logfile_reopen
  end.

(** *** lookup_logfile, logfopen, islogfile *)

Fixpoint lookup_from (nm : string) (ls : list ptr) : M (option ptr) :=
  match ls with
  | [] => mret None
  | l :: ls' =>
      L ← get_log l;
      if bool_decide (nm = name L) then mret (Some l)
      else lookup_from nm ls'
  end.

Definition lookup_logfile (nm : string) : M (option ptr) :=
  s ← get_state;
  lookup_from nm (logroot s).

(** The address calloc returns: not null, and not that of a live Log. *)
Definition new_address (s : State) : ptr :=
  fresh ({[ 0%nat ]} ∪ dom (heap s)).

(** The Log that logfopen fills in before it calls changed_logfile. *)
Definition new_log (nm : string) (f : FILE) : Log :=
  mkLog f nm 1 0 0 zero_stat None 0 LOG_STAT_CHECK_INTERVAL.

Definition logfopen (nm : string) (f : option FILE) : M (option ptr) :=
  match f with
  | None =>
      r ← lookup_logfile nm;
      match r with
      | None => mret None
      | Some l =>
          L ← get_log l;
          set_log l (set_opencount (opencount L + 1) L);;
          mret (Some l)
      end
  | Some f =>
      a1 ← sys_alloc;                       (* calloc(1, sizeof(Log)) *)
      if negb a1 then mret None else
      a2 ← sys_alloc;                       (* calloc(1, sizeof(struct stat)) *)
      if negb a2 then mret None else
      a3 ← sys_alloc;                       (* SaveStr(name) *)
      if negb a3 then mret None else
      s ← get_state;
      let l := new_address s in
      set_log l (new_log nm f);;
      changed_logfile l;;
      s' ← get_state;
      set_logroot (l :: logroot s');;
      mret (Some l)
  end.

Definition islogfile (nm : option string) : M Z :=
  match nm with
  | None => s ← get_state; mret (if logroot s is [] then 0 else 1)
  | Some nm => r ← lookup_logfile nm; mret (if r is Some _ then 1 else 0)
  end.

(** *** logfwrite and logfflush *)

Section Reopen.

(** The function the global pointer [lf_reopen_fn] holds: a parameter of
    the functions that call through it. *)
Variable lf_reopen_fn : reopen_fn.

(** [periodic_stat_check(l) && lf_reopen_fn(l->name, fileno(l->fp), l)] *)
Definition check_and_reopen (l : ptr) : M bool :=
  c ← periodic_stat_check l;
  if c =? 0 then mret false
  else
    L ← get_log l;
    r ← lf_reopen_fn (name L) (fileno (fp L)) l;
    mret (negb (r =? 0)).

Definition logfwrite (l : ptr) (buf : list byte) : M Z :=
  let n := length buf in
  L ← get_log l;
  fallback ←
    match buffer L with
    | Some _ => mret None
    | None =>
        a ← sys_alloc;                      (* malloc(LOG_BUFFER_SIZE) *)
        if a : bool
        then set_log l (set_buflen 0
                         (set_buffer (Some (replicate LOG_BUFFER_SIZE x00)) L));;
             mret None
        else r ← sys_fwrite (fp L) buf; mret (Some r)
    end;
  match fallback with
  | Some r => mret r
  | None =>
      L ← get_log l;
      let b := default [] (buffer L) in
      if (buflen L + n <=? LOG_BUFFER_SIZE)%nat
      then
        set_log l (set_buflen (buflen L + n)
                    (set_buffer (Some (memcpy b (buflen L) buf)) L));;
        mret 1
      else
        c ← check_and_reopen l;
        if c : bool then mret (-1) else
        r ← flush_log_buffer l;
        if r <? 0 then mret (-1) else
        L ← get_log l;
        let b := default [] (buffer L) in
        if (n <=? LOG_BUFFER_SIZE)%nat
        then
          set_log l (set_buflen n (set_buffer (Some (memcpy b 0 buf)) L));;
          mret 1
        else
          w ← sys_fwrite (fp L) buf;
          if negb (w =? 1) then mret (-1) else
          L ← get_log l;
          set_log l (set_flushcount 0 (set_writecount (writecount L + 1) L));;
          mret 1
  end.

(** A caller that writes the chunks [cs] one after the other, collecting
    what logfwrite returned for each. *)
Fixpoint logfwrite_each (l : ptr) (cs : list (list byte)) : M (list Z) :=
  match cs with
  | [] => mret []
  | c :: cs' =>
      r ← logfwrite l c;
      rs ← logfwrite_each l cs';
      mret (r :: rs)
  end.

(** One turn of the loop over the registry, and of the branch for a single
    Log: [None] stands for the [return -1] in the middle of it. *)
Definition flush_one (l : ptr) : M (option Z) :=
  c ← check_and_reopen l;
  if c : bool then mret None else
  r ← flush_log_buffer l;
  if r <? 0 then mret None else
  L ← get_log l;
  r ← sys_fflush (fp L);
  L ← get_log l;
  set_log l (set_flushcount (flushcount L + 1) L);;
  mret (Some r).

(** [for (l = logroot; l; l = l->next)], with [r] the value accumulated
    so far; [None] again stands for the [return -1] inside the loop, and
    [Some r] for falling out of it with [r].  [ls] is what is left of the
    registry: a turn that completes does not relink it (logfile_reopen
    does so only through logfclose, when it fails, and the loop returns
    then), so that the list read when the loop starts is the list the
    [l->next] of the C loop walk. *)
Fixpoint flush_loop (ls : list ptr) (r : Z) : M (option Z) :=
  match ls with
  | [] => mret (Some r)
  | l :: ls' =>
      o ← flush_one l;
      match o with
      | None => mret None
      | Some r' => flush_loop ls' (Z.lor r r')
      end
  end.

Definition logfflush (l : option ptr) : M Z :=
  o ← match l with
      | None => s ← get_state; flush_loop (logroot s) 0
      | Some l => flush_one l
      end;
  match o with
  | None => mret (-1)
  | Some r => mret r
  end.

End Reopen.

End Logfile.

(** ** The four operations of the interface

    As the rest of the program calls them, with the default reopen
    function registered. *)

Inductive op : Type :=
| OpOpen (nm : string) (f : option FILE)
| OpClose (l : ptr)
| OpWrite (l : ptr) (buf : list byte)
| OpFlush (l : option ptr).

Inductive value : Type :=
| VLog (l : option ptr)
| VInt (r : Z).

Definition run_op (os : OS) (cap : nat) (ivl : Z) (o : op) : M value :=
  match o with
  | OpOpen nm f => l ← logfopen os ivl nm f; mret (VLog l)
  | OpClose l => r ← logfclose os l; mret (VInt r)
  | OpWrite l buf =>
      r ← logfwrite os cap ivl (logfile_reopen os) l buf; mret (VInt r)
  | OpFlush l => r ← logfflush os ivl (logfile_reopen os) l; mret (VInt r)
  end.

Fixpoint run_ops (os : OS) (cap : nat) (ivl : Z) (ops : list op)
  : M (list value) :=
  match ops with
  | [] => mret []
  | o :: ops' =>
      v ← run_op os cap ivl o;
      vs ← run_ops os cap ivl ops';
      mret (v :: vs)
  end.

(** ** What a stream received *)

(** The bytes of the items [fwrite] reported written to [f], in order. *)
Fixpoint written (f : FILE) (tr : list event) : list byte :=
  match tr with
  | [] => []
  | EvFwrite g data r :: tr' =>
      if bool_decide (g = f) && (r =? 1) then data ++ written f tr'
      else written f tr'
  | _ :: tr' => written f tr'
  end.

Definition is_fwrite (e : event) : bool :=
  match e with
  | EvFwrite _ _ _ => true
  | _ => false
  end.

(** ** The rotation test in the words of the specification *)

(** A change-time update is tolerated when it is simultaneous with the
    modification-time update and no earlier than the recorded change-time. *)
Definition spec_tolerated (o n : stat) : Prop :=
  st_mtime n = st_ctime n /\ st_ctime o <= st_ctime n.

(** The conditions under which the specification reports a rotation, for
    the cached stat [o] and the result [r] of the fresh fstat. *)
Definition spec_stolen (o : stat) (r : option stat) : Prop :=
  match r with
  | None => True
  | Some n =>
      st_nlink n = 0
      \/ st_size n < st_size o
      \/ st_mtime n <> st_mtime o
      \/ (st_ctime n <> st_ctime o /\ ~ spec_tolerated o n)
  end.

(** The same, with the marker the code uses for a failed stat. *)
Definition zero_ids (n : stat) : Prop := st_dev n = 0 /\ st_ino n = 0.

Definition spec_stolen_or_zero_ids (o : stat) (r : option stat) : Prop :=
  spec_stolen o r \/ (exists n, r = Some n /\ zero_ids n).

(** The bytes waiting in the write buffer of a Log. *)
Definition buffered (L : Log) : list byte :=
  match buffer L with
  | Some b => take (buflen L) b
  | None => []
  end.

(** The calls logfclose makes for a Log whose last reference goes: the
    write of what is buffered, if anything, then fclose. *)
Definition close_calls (os : OS) (tr : list event) (L : Log) : list event :=
  match buffer L with
  | Some b =>
      if (0 <? buflen L)%nat
      then [EvFwrite (fp L) (take (buflen L) b)
                     (fwrite_result os tr (fp L) (take (buflen L) b));
            EvFclose (fp L)]
      else [EvFclose (fp L)]
  | None => [EvFclose (fp L)]
  end.

(** The state logfile_reopen is in after [close(wantfd)] and [open(name)],
    and what that open returned. *)
Definition got_fd (os : OS) (nm : string) (wantfd : Z) (s : State) : Z :=
  os_open os (trace s ++ [EvClose wantfd]) nm.

Definition after_open (os : OS) (nm : string) (wantfd : Z) (s : State) : State :=
  mkState (logroot s) (heap s)
          (trace s ++ [EvClose wantfd; EvOpen nm (got_fd os nm wantfd s)]).

(** The open of the file failed, or the relocation of the descriptor it
    returned failed; [s1] is the state when logfile_reopen finds out. *)
Definition reopen_fails (os : OS) (nm : string) (wantfd : Z) (s s1 : State) : Prop :=
  (got_fd os nm wantfd s < 0 /\ s1 = after_open os nm wantfd s)
  \/ (0 <= got_fd os nm wantfd s
      /\ exists r, lf_move_fd os (got_fd os nm wantfd s) wantfd
                     (after_open os nm wantfd s) = Ret r s1
                   /\ r < 0).

(** ** Relating the state before and after a call *)

(** [l] is still live, related to what it was by [R]; the registry list
    and every other Log are as they were. *)
Definition keeps (l : ptr) (R : Log -> Log -> Prop) (s s' : State) : Prop :=
  logroot s' = logroot s
  /\ (forall p, p <> l -> heap s' !! p = heap s !! p)
  /\ (forall L, heap s !! l = Some L ->
        exists L', heap s' !! l = Some L' /\ R L L').

(** Nothing but [l] changed, and if [l] is live afterwards it was live
    before, related by [R]. *)
Definition upd (l : ptr) (R : Log -> Log -> Prop) (s s' : State) : Prop :=
  (forall p, p <> l -> heap s' !! p = heap s !! p)
  /\ (forall L', heap s' !! l = Some L' ->
        exists L, heap s !! l = Some L /\ R L L').

(** The calls made between [s] and [s'] include no fwrite. *)
Definition quiet_ext (s s' : State) : Prop :=
  exists ext, trace s' = trace s ++ ext
              /\ forallb (fun e => negb (is_fwrite e)) ext = true.

(** Everything but the cached stat and the countdown is unchanged. *)
Definition same_but_stat (L L' : Log) : Prop :=
  fp L' = fp L /\ name L' = name L /\ opencount L' = opencount L
  /\ writecount L' = writecount L /\ flushcount L' = flushcount L
  /\ buffer L' = buffer L /\ buflen L' = buflen L.

(** The order on the observational counters. *)
Definition counters_le (L L' : Log) : Prop :=
  writecount L <= writecount L' /\ flushcount L <= flushcount L'.

(** Everything but the buffer and its fill is unchanged. *)
Definition same_but_buffer (L L' : Log) : Prop :=
  fp L' = fp L /\ name L' = name L /\ opencount L' = opencount L
  /\ writecount L' = writecount L /\ flushcount L' = flushcount L
  /\ st L' = st L /\ stat_countdown L' = stat_countdown L.

(** The three allocations of logfopen succeed. *)
Definition alloc3 (os : OS) (tr : list event) : bool :=
  os_alloc os tr
  && os_alloc os (tr ++ [EvAlloc true])
  && os_alloc os (tr ++ [EvAlloc true; EvAlloc true]).

(** The cached stat logfopen leaves, for the result [r] of its fstat: all
    zero, but for size and mtime when the file is not empty. *)
Definition opened_stat (r : option stat) : stat :=
  match r with
  | Some o =>
      if 0 <? st_size o then mkstat 0 0 0 (st_size o) (st_mtime o) 0
      else zero_stat
  | None => zero_stat
  end.

(** No Log of the list is named [nm]; all of them are live. *)
Definition none_named (nm : string) (s : State) (ls : list ptr) : Prop :=
  forall p, p ∈ ls -> exists Lp, heap s !! p = Some Lp /\ name Lp <> nm.

(** Every Log live afterwards was live before, related by [R]. *)
Definition mono (R : Log -> Log -> Prop) (s s' : State) : Prop :=
  forall p L', heap s' !! p = Some L' ->
    exists L, heap s !! p = Some L /\ R L L'.

Definition same_counters (L L' : Log) : Prop :=
  writecount L' = writecount L /\ flushcount L' = flushcount L.

(** What a drain may do to the counters. *)
Definition drained_counters (L L' : Log) : Prop :=
  writecount L <= writecount L' /\ flushcount L' = flushcount L.

(** What a Write of [n] bytes may do to the counters, for a buffer of
    [cap] bytes. *)
Definition written_counters (cap n : nat) (L L' : Log) : Prop :=
  writecount L <= writecount L'
  /\ (flushcount L <= flushcount L'
      \/ ((cap < n)%nat /\ flushcount L' = 0)).

(** The Log at [p] is live in every state of the run of [ops] that leads
    from [s] to [s']: no Close of the run has freed it. *)
Inductive stays_live (os : OS) (cap : nat) (ivl : Z) (p : ptr)
  : list op -> State -> State -> Prop :=
| stays_live_nil (s : State) :
    is_Some (heap s !! p) -> stays_live os cap ivl p [] s s
| stays_live_cons (o : op) (ops : list op) (s s1 s2 : State) (v : value) :
    is_Some (heap s !! p) ->
    run_op os cap ivl o s = Ret v s1 ->
    stays_live os cap ivl p ops s1 s2 ->
    stays_live os cap ivl p (o :: ops) s s2.

(** A Write to [p] of more than [cap] bytes. *)
Definition oversize_write (cap : nat) (p : ptr) (o : op) : Prop :=
  exists buf, o = OpWrite p buf /\ (cap < length buf)%nat.

(** Counting what a run of Opens and Closes returned. *)
Definition open_ok (v : value) : bool :=
  match v with
  | VLog (Some _) => true
  | _ => false
  end.

Definition close_ok (v : value) : bool :=
  match v with
  | VInt 0 => true
  | _ => false
  end.

Fixpoint count_ok (f : value -> bool) (vs : list value) : Z :=
  match vs with
  | [] => 0
  | v :: vs' => (if f v then 1 else 0) + count_ok f vs'
  end.

(** The handle [h] for the name [nm], opened on the stream [f], with [k]
    references: registered at the head of the registry while [k] is
    positive, freed and unlinked with its stream closed once [k] is 0.
    [rest] is the registry without it; no Log there bears the name. *)
Definition tracked (nm : string) (f : FILE) (h : ptr) (rest : list ptr)
    (k : Z) (s : State) : Prop :=
  (h ∉ rest) /\ none_named nm s rest
  /\ ((1 <= k /\ logroot s = h :: rest
       /\ exists L, heap s !! h = Some L /\ name L = nm /\ fp L = f
                    /\ opencount L = k)
      \/ (k = 0 /\ logroot s = rest /\ heap s !! h = None
          /\ EvFclose f ∈ trace s)).

(** ** Well-formed states and outcomes *)

(** The buffer of a Log, when allocated, has [cap] bytes of which at most
    [cap] are in use; a Log without buffer has nothing buffered. *)
Definition buf_ok (cap : nat) (L : Log) : Prop :=
  match buffer L with
  | Some b => length b = cap /\ (buflen L <= cap)%nat
  | None => buflen L = 0%nat
  end.

Definition log_ok (cap : nat) (L : Log) : Prop :=
  1 <= opencount L /\ buf_ok cap L.

(** The registry holds no Log twice, holds exactly the live Logs, and
    every live Log has a reference and a buffer within bounds. *)
Definition wf (cap : nat) (s : State) : Prop :=
  NoDup (logroot s)
  /\ (forall p, p ∈ logroot s <-> is_Some (heap s !! p))
  /\ (forall p L, heap s !! p = Some L -> log_ok cap L).

(** The call did not abort and dereferenced no dead Log; if it returned,
    [P] holds of what it returned and of the state it left. *)
Definition ensures {A : Type} (T : Prop) (P : A -> State -> Prop)
    (r : result A) : Prop :=
  match r with
  | Ret a s => P a s
  | Timeout => T
  | Abort _ | Fault => False
  end.

(** [n] rotation checks in a row, as [n] drains make them. *)
Fixpoint periodic_checks (os : OS) (ivl : Z) (n : nat) (l : ptr) : M (list Z) :=
  match n with
  | O => mret []
  | S n' =>
      r ← periodic_stat_check os ivl l;
      rs ← periodic_checks os ivl n' l;
      mret (r :: rs)
  end.

(** The Log an operation is handed is one the registry holds. *)
Definition handle_ok (o : op) (s : State) : Prop :=
  match o with
  | OpWrite l _ | OpFlush (Some l) => l ∈ logroot s
  | _ => True
  end.

(** A session whose write and flush calls are handed registered Logs only,
    whatever the calls before them returned. *)
Fixpoint ops_ok (os : OS) (cap : nat) (ivl : Z) (ops : list op) (s : State)
  : Prop :=
  match ops with
  | [] => True
  | o :: ops' =>
      handle_ok o s
      /\ forall v s', run_op os cap ivl o s = Ret v s' ->
                      ops_ok os cap ivl ops' s'
  end.

(** Between [s] and [s'] no Log but [l] changed or moved in or out of the
    registry, and no stream but [f] received anything. *)
Definition only (l : ptr) (f : FILE) (s s' : State) : Prop :=
  (forall p, p <> l ->
     heap s' !! p = heap s !! p /\ (p ∈ logroot s' <-> p ∈ logroot s))
  /\ (forall g, g <> f -> written g (trace s') = written g (trace s)).

(** The Log an operation works on, for those that are handed one. *)
Definition target (o : op) : option ptr :=
  match o with
  | OpClose l | OpWrite l _ | OpFlush (Some l) => Some l
  | OpOpen _ _ | OpFlush None => None
  end.

(** The calls on the allocator and on a stream's buffer: not fstat, close,
    open, dup or fclose. *)
Definition is_io (e : event) : bool :=
  match e with
  | EvAlloc _ | EvFwrite _ _ _ | EvFflush _ _ => true
  | _ => false
  end.

(** From [s] to [s'] the registry stayed as it was and the Log [l], which
    was [L], kept its stream, its name and its cached stat; its countdown
    to the next rotation check went down by [k]; and the only calls made
    were those of [is_io]. *)
Definition calm (l : ptr) (L : Log) (k : Z) (s s' : State) : Prop :=
  logroot s' = logroot s
  /\ exists L' ext,
       heap s' !! l = Some L' /\ trace s' = trace s ++ ext
       /\ forallb is_io ext = true
       /\ st L' = st L /\ fp L' = fp L /\ name L' = name L
       /\ stat_countdown L' = stat_countdown L - k.

(** ** Scenarios *)

(** An environment whose answers do not depend on the past. *)
Definition os_fixed (fs : Z -> option stat) (al fw ff : bool) (op : Z) : OS :=
  mkOS (fun _ fd => fs fd) (fun _ => al) (fun _ _ _ => fw) (fun _ _ => ff)
       (fun _ _ => op) (fun _ _ => -1).

Definition one_log (l : ptr) (L : Log) : State :=
  mkState [l] {[ l := L ]} [].

(** A log on descriptor 3 whose cache holds device 1, inode 1. *)
Definition cached_log : Log :=
  mkLog 3 "screenlog.0" 1 0 0 (mkstat 1 1 1 0 0 0) None 0 1.

(** fstat fails on every descriptor and open fails: the file was rotated
    away and cannot be created again. *)
Definition os_rotated : OS := os_fixed (fun _ => None) true true true (-1).

(** A log on descriptor 3 with "abc" in a 4-byte buffer, a valid cached
    stat and a rotation check due at the next drain; [oc] references. *)
Definition full_log (oc : Z) : Log :=
  mkLog 3 "screenlog.0" oc 0 1 (mkstat 1 1 1 0 0 0)
        (Some [x61; x62; x63; x00]) 3 1.

(** The file is there and unchanged, and every call succeeds. *)
Definition os_fine : OS :=
  os_fixed (fun _ => Some (mkstat 1 1 1 0 0 0)) true true true 3.

(** No memory, and a stream that takes nothing. *)
Definition os_nomem : OS :=
  os_fixed (fun _ => Some (mkstat 1 1 1 0 0 0)) false false true 3.

(** The stream on descriptor 3 is a file of 10 bytes. *)
Definition os_grown : OS :=
  os_fixed (fun _ => Some (mkstat 5 7 1 10 3 3)) true true true 3.

Definition no_logs : State := mkState [] ∅ [].

(** A log on descriptor 3 with an empty 4-byte buffer that has been
    flushed once and whose next rotation check is some drains away. *)
Definition flushed_log : Log :=
  mkLog 3 "screenlog.0" 1 0 1 (mkstat 1 1 1 0 0 0)
        (Some [x00; x00; x00; x00]) 0 5.

(** A second log, on descriptor 4, with "xy" buffered. *)
Definition other_log : Log :=
  mkLog 4 "screenlog.1" 1 0 0 (mkstat 1 2 1 0 0 0)
        (Some [x78; x79; x00; x00]) 2 5.

Definition two_logs : State :=
  mkState [1%nat; 2%nat] (<[1%nat := full_log 2]> {[ 2%nat := other_log ]}) [].

(** A third log, on descriptor 5, with "z" buffered. *)
Definition third_log : Log :=
  mkLog 5 "screenlog.2" 1 0 0 (mkstat 1 3 1 0 0 0)
        (Some [x7a; x00; x00; x00]) 1 5.

(** Three logs, the one whose rotation check is due in the middle. *)
Definition three_logs : State :=
  mkState [2%nat; 1%nat; 3%nat]
    (<[1%nat := full_log 2]>
       (<[2%nat := other_log]> {[ 3%nat := third_log ]})) [].

(** A kernel whose dup returns the descriptor after its argument. *)
Definition os_dup_next : OS :=
  mkOS (fun _ _ => Some (mkstat 1 1 1 0 0 0)) (fun _ => true)
       (fun _ _ _ => true) (fun _ _ => true) (fun _ _ => 1)
       (fun _ fd => fd + 1).

(** A log on descriptor 3 whose cache is that of a file of 10 bytes that
    has been unlinked (link count 0), as stolen_logfile leaves it when it
    finds the file rotated away. *)
Definition rotated_log : Log :=
  mkLog 3 "screenlog.0" 1 0 0 (mkstat 1 1 0 10 7 7) None 0 5.

(** ** Reasoning about the monad *)

Ltac munfold :=
  unfold mbind, M_bind, mret, M_ret, get_state, get_log, set_log, emit,
    abort, timeout, set_logroot, free_log in *.

Ltac msimpl := munfold; simpl in *.

(** ** The rotation test (stolen_logfile) *)

Lemma stolen_test_spec (o n : stat) :
  stolen_test o n = true <-> (zero_ids n \/ spec_stolen o (Some n)).
Proof.
  unfold stolen_test, zero_ids, spec_stolen, spec_tolerated.
  rewrite !orb_true_iff, !andb_true_iff, !negb_true_iff, !andb_false_iff.
  rewrite !Z.eqb_eq, !Z.eqb_neq, !Z.ltb_lt, Z.ltb_ge.
  split.
  - intros [[[[H|H]|H]|H]|[H1 H2]]; try tauto.
    right. right. right. right. split; [exact H1|]. lia.
  - intros [H|[H|[H|[H|[H1 H2]]]]]; try tauto.
    right. split; [exact H1|].
    destruct (Z.eq_dec (st_mtime n) (st_ctime n)); [right; lia | left; exact n0].
Qed.

Section StolenLogfile.

Variable os : OS.

Lemma stolen_logfile_run (l : ptr) (s : State) (L : Log) :
  heap s !! l = Some L ->
  let r := os_fstat os (trace s) (fileno (fp L)) in
  let n := refreshed (st L) r in
  stolen_logfile os l s =
    Ret (if (st_dev (st L) =? 0) && (st_ino (st L) =? 0) then 0
         else if stolen_test (st L) n then -1 else 0)
        (mkState (logroot s) (<[l := set_st n L]> (heap s))
                 (trace s ++ [EvFstat (fileno (fp L)) r])).
Proof.
  intros HL r n. unfold stolen_logfile, sys_fstat. msimpl. rewrite HL. simpl.
  fold r. fold n.
  destruct ((st_dev (st L) =? 0) && (st_ino (st L) =? 0)); [reflexivity|].
  destruct (stolen_test (st L) n); reflexivity.
Qed.

(** What stolen_logfile returns, read off the refreshed cache: the code
    recognises a failed fstat by the device and inode it has zeroed
    (line 172), so the test is on that mark. *)
Lemma stolen_logfile_marker (l : ptr) (s : State) (L : Log) :
  heap s !! l = Some L ->
  let r := os_fstat os (trace s) (fileno (fp L)) in
  exists v s',
    stolen_logfile os l s = Ret v s'
    /\ heap s' !! l = Some (set_st (refreshed (st L) r) L)
    /\ (zero_ids (st L) -> v = 0)
    /\ (~ zero_ids (st L) ->
        (v <> 0 <-> spec_stolen_or_zero_ids (st L) r)).
Proof.
  intros HL r. rewrite (stolen_logfile_run l s L HL). fold r.
  eexists _, _. split; [reflexivity|]. simpl.
  split; [apply lookup_insert_eq|].
  unfold zero_ids at 1 2. split.
  - intros [-> ->]. reflexivity.
  - intros Hv.
    destruct ((st_dev (st L) =? 0) && (st_ino (st L) =? 0)) eqn:E.
    { apply andb_true_iff in E. rewrite !Z.eqb_eq in E. tauto. }
    unfold spec_stolen_or_zero_ids.
    destruct (stolen_test (st L) (refreshed (st L) r)) eqn:T.
    + split; [intros _|intros _; lia].
      apply stolen_test_spec in T. destruct r as [n|]; simpl in *.
      * destruct T as [T|T]; [right; eauto | left; exact T].
      * left. exact I.
    + split; [intros H; lia|]. intros H. exfalso.
      assert (stolen_test (st L) (refreshed (st L) r) = true) as T';
        [|congruence].
      apply stolen_test_spec. destruct r as [n|]; simpl in *.
      * destruct H as [H|(n' & [= <-] & H)]; [right; exact H | left; exact H].
      * left. split; reflexivity.
Qed.

(** C1: with a valid cached device/inode pair, stolen_logfile returns
    nonzero exactly when the fresh fstat failed, or the link count is
    zero, or the size shrank, or the modification time differs, or the
    change-time differs without being a tolerated delayed write (new
    mtime equal to new ctime, and new ctime no earlier than the cached
    one); with a cache whose device and inode are both zero it returns
    0.  It always returns, and refreshes the cache.  Device 0 with inode
    0 is how the code writes down that fstat failed (lines 171-172): an
    fstat that succeeds is taken to report the pair of a real file. *)
Theorem stolen_logfile_iff (l : ptr) (s : State) (L : Log) :
  heap s !! l = Some L ->
  let r := os_fstat os (trace s) (fileno (fp L)) in
  (forall n, r = Some n -> ~ zero_ids n) ->
  exists v s',
    stolen_logfile os l s = Ret v s'
    /\ heap s' !! l = Some (set_st (refreshed (st L) r) L)
    /\ (zero_ids (st L) -> v = 0)
    /\ (~ zero_ids (st L) -> (v <> 0 <-> spec_stolen (st L) r)).
Proof.
  intros HL r Hreal.
  destruct (stolen_logfile_marker l s L HL) as (v & s' & Hrun & HL' & Hz & Hiff).
  exists v, s'. split; [exact Hrun|]. split; [exact HL'|].
  split; [exact Hz|]. intros Hv. destruct (Hiff Hv) as [H1 H2]. split.
  - intros Hne. destruct (H1 Hne) as [H|(n & Hn & Hzn)]; [exact H|].
    exfalso. exact (Hreal n Hn Hzn).
  - intros H. apply H2. left. exact H.
Qed.

End StolenLogfile.

Lemma stolen_logfile_iff_witness :
  exists v s',
    stolen_logfile os_grown 1%nat (one_log 1%nat cached_log) = Ret v s'
    /\ v <> 0.
Proof.
  destruct (stolen_logfile_iff os_grown 1%nat (one_log 1%nat cached_log)
              cached_log eq_refl) as (v & s' & Hrun & _ & _ & Hiff).
  - intros n Hn. simpl in Hn. injection Hn as <-.
    intros [E _]. discriminate E.
  - exists v, s'. split; [exact Hrun|]. apply Hiff.
    + unfold zero_ids, cached_log. simpl. lia.
    + simpl. right. right. left. discriminate.
Defined.

(** ** Frame lemmas *)

Lemma keeps_trans (l : ptr) (R1 R2 R3 : Log -> Log -> Prop) (s s1 s2 : State) :
  (forall a b c, R1 a b -> R2 b c -> R3 a c) ->
  keeps l R1 s s1 -> keeps l R2 s1 s2 -> keeps l R3 s s2.
Proof.
  intros HR (Hr1 & Ho1 & Hl1) (Hr2 & Ho2 & Hl2). split; [congruence|]. split.
  - intros p Hp. rewrite Ho2, Ho1; auto.
  - intros L HL. destruct (Hl1 L HL) as (L1 & HL1 & H1).
    destruct (Hl2 L1 HL1) as (L2 & HL2 & H2). eauto.
Qed.

Lemma keeps_weaken (l : ptr) (R1 R2 : Log -> Log -> Prop) (s s' : State) :
  (forall a b, R1 a b -> R2 a b) -> keeps l R1 s s' -> keeps l R2 s s'.
Proof.
  intros HR (Hr & Ho & Hl). split; [exact Hr|]. split; [exact Ho|].
  intros L HL. destruct (Hl L HL) as (L' & HL' & H). eauto.
Qed.

Lemma keeps_set (l : ptr) (R : Log -> Log -> Prop) (s : State) (L L' : Log) tr :
  heap s !! l = Some L -> R L L' ->
  keeps l R s (mkState (logroot s) (<[l := L']> (heap s)) tr).
Proof.
  intros HL HR. split; [reflexivity|]. simpl. split.
  - intros p Hp. apply lookup_insert_ne. congruence.
  - intros L0 HL0. exists L'. rewrite lookup_insert_eq.
    split; [reflexivity|]. congruence.
Qed.

Lemma keeps_same (l : ptr) (R : Log -> Log -> Prop) (s : State) tr :
  (forall L, R L L) -> keeps l R s (mkState (logroot s) (heap s) tr).
Proof.
  intros HR. split; [reflexivity|]. split; [reflexivity|]. simpl. eauto.
Qed.

Lemma same_but_stat_refl (L : Log) : same_but_stat L L.
Proof. repeat split. Qed.

Lemma same_but_stat_trans (a b c : Log) :
  same_but_stat a b -> same_but_stat b c -> same_but_stat a c.
Proof.
  unfold same_but_stat. intros (?&?&?&?&?&?&?) (?&?&?&?&?&?&?).
  repeat split; congruence.
Qed.

Lemma quiet_ext_refl (s : State) : quiet_ext s s.
Proof. exists []. rewrite app_nil_r. split; reflexivity. Qed.

Lemma quiet_ext_trans (s s1 s2 : State) :
  quiet_ext s s1 -> quiet_ext s1 s2 -> quiet_ext s s2.
Proof.
  intros (e1 & H1 & Q1) (e2 & H2 & Q2). exists (e1 ++ e2).
  rewrite H2, H1, <- app_assoc. split; [reflexivity|].
  rewrite forallb_app, Q1, Q2. reflexivity.
Qed.

Lemma quiet_ext_snoc (s : State) (lr : list ptr) (h : gmap ptr Log) (e : event) :
  is_fwrite e = false ->
  quiet_ext s (mkState lr h (trace s ++ [e])).
Proof. intros He. exists [e]. simpl. rewrite He. split; reflexivity. Qed.

Lemma written_app (f : FILE) (tr tr' : list event) :
  written f (tr ++ tr') = written f tr ++ written f tr'.
Proof.
  induction tr as [|e tr IH]; simpl; [reflexivity|].
  destruct e; try exact IH.
  destruct (bool_decide (f0 = f) && (r =? 1)); [|exact IH].
  rewrite IH, <- app_assoc. reflexivity.
Qed.

Lemma written_quiet (f : FILE) (ext : list event) :
  forallb (fun e => negb (is_fwrite e)) ext = true -> written f ext = [].
Proof.
  induction ext as [|e ext IH]; simpl; [reflexivity|].
  intros H. apply andb_true_iff in H as [He Hext].
  destruct e; simpl in He; try discriminate; auto.
Qed.

Lemma quiet_ext_written (f : FILE) (s s' : State) :
  quiet_ext s s' -> written f (trace s') = written f (trace s).
Proof.
  intros (ext & -> & Q). rewrite written_app, (written_quiet f ext Q).
  apply app_nil_r.
Qed.

Section Frames.

Variable os : OS.
Variable LOG_STAT_CHECK_INTERVAL : Z.

Lemma changed_logfile_keeps (l : ptr) (s : State) (L : Log) :
  heap s !! l = Some L ->
  exists s', changed_logfile os l s = Ret tt s'
             /\ keeps l same_but_stat s s' /\ quiet_ext s s'.
Proof.
  intros HL. unfold changed_logfile, sys_fstat. msimpl. rewrite HL. simpl.
  destruct (os_fstat os (trace s) (fileno (fp L))) as [o|]; simpl.
  - destruct (st_size (st L) <? st_size o); simpl; eexists;
      (split; [reflexivity|]); (split; [|apply quiet_ext_snoc; reflexivity]).
    + eapply keeps_set; [exact HL | repeat split].
    + apply keeps_same, same_but_stat_refl.
  - eexists. split; [reflexivity|].
    split; [apply keeps_same, same_but_stat_refl
           |apply quiet_ext_snoc; reflexivity].
Qed.

Lemma stolen_logfile_keeps (l : ptr) (s : State) (L : Log) :
  heap s !! l = Some L ->
  exists v s', stolen_logfile os l s = Ret v s'
               /\ keeps l same_but_stat s s' /\ quiet_ext s s'.
Proof.
  intros HL. rewrite (stolen_logfile_run os l s L HL).
  eexists _, _. split; [reflexivity|]. split.
  - eapply keeps_set; [exact HL | repeat split].
  - apply quiet_ext_snoc. reflexivity.
Qed.

Lemma periodic_stat_check_keeps (l : ptr) (s : State) (L : Log) :
  heap s !! l = Some L ->
  exists c s', periodic_stat_check os LOG_STAT_CHECK_INTERVAL l s = Ret c s'
               /\ (c = 0 \/ c = 1)
               /\ keeps l same_but_stat s s' /\ quiet_ext s s'.
Proof.
  intros HL. unfold periodic_stat_check.
  unfold mbind at 1, M_bind at 1, get_log at 1. rewrite HL.
  unfold mbind at 1, M_bind at 1, set_log at 1.
  set (s0 := mkState (logroot s) (<[l:=set_stat_countdown (stat_countdown L - 1) L]> (heap s)) (trace s)).
  assert (keeps l same_but_stat s s0) as K0
    by (eapply keeps_set; [exact HL | repeat split]).
  destruct (0 <? stat_countdown L - 1).
  { exists 0, s0. split; [reflexivity|]. split; [left; reflexivity|].
    split; [exact K0|]. exists []. simpl. rewrite app_nil_r. split; reflexivity. }
  unfold mbind at 1, M_bind at 1, set_log at 1.
  set (s1 := mkState _ _ _).
  assert (heap s1 !! l = Some (set_stat_countdown LOG_STAT_CHECK_INTERVAL L))
    as HL1 by apply lookup_insert_eq.
  assert (keeps l same_but_stat s s1) as K1.
  { subst s1 s0. simpl. rewrite insert_insert_eq.
    eapply keeps_set; [exact HL | repeat split]. }
  assert (quiet_ext s s1) as Q1.
  { exists []. simpl. rewrite app_nil_r. split; reflexivity. }
  destruct (stolen_logfile_keeps l s1 _ HL1) as (v & s2 & Hrun & K2 & Q2).
  unfold mbind at 1, M_bind at 1. rewrite Hrun.
  assert (keeps l same_but_stat s s2) as K12
    by (eapply keeps_trans; [apply same_but_stat_trans | exact K1 | exact K2]).
  destruct (negb (v =? 0)).
  { exists 1, s2. split; [reflexivity|]. split; [right; reflexivity|].
    split; [exact K12 | exact (quiet_ext_trans _ _ _ Q1 Q2)]. }
  destruct K12 as (Hr & Ho & Hl). destruct (Hl L HL) as (L2 & HL2 & HS2).
  destruct (changed_logfile_keeps l s2 L2 HL2) as (s3 & Hrun3 & K3 & Q3).
  unfold mbind at 1, M_bind at 1. rewrite Hrun3.
  exists 0, s3. split; [reflexivity|]. split; [left; reflexivity|]. split.
  - eapply keeps_trans; [apply same_but_stat_trans | | exact K3].
    eapply keeps_trans; [apply same_but_stat_trans | exact K1 | exact K2].
  - exact (quiet_ext_trans _ _ _ (quiet_ext_trans _ _ _ Q1 Q2) Q3).
Qed.

Lemma lf_move_fd_rec_frame (fuel : nat) :
  forall (fd need_fd : Z) (s : State),
    match lf_move_fd_rec os fuel fd need_fd s with
    | Ret r s' => heap s' = heap s /\ logroot s' = logroot s /\ quiet_ext s s'
    | Timeout => True
    | _ => False
    end.
Proof.
  induction fuel as [|fuel IH]; intros fd need_fd s; simpl.
  - destruct (fd =? need_fd); [|exact I].
    msimpl. repeat split. apply quiet_ext_refl.
  - destruct (fd =? need_fd).
    { msimpl. repeat split. apply quiet_ext_refl. }
    destruct ((0 <=? fd) && (fd <? need_fd)).
    + unfold sys_dup, sys_close. msimpl.
      set (s1 := mkState _ _ _).
      specialize (IH (os_dup os (trace s) fd) need_fd s1).
      destruct (lf_move_fd_rec os fuel (os_dup os (trace s) fd) need_fd s1)
        as [r s2| | |]; try exact IH.
      simpl. destruct IH as (Hh & Hr & Q). repeat split; try assumption.
      eapply quiet_ext_trans; [|apply quiet_ext_snoc; reflexivity].
      eapply quiet_ext_trans; [|exact Q].
      subst s1. apply quiet_ext_snoc. reflexivity.
    + unfold sys_close. msimpl. repeat split.
      apply quiet_ext_snoc. reflexivity.
Qed.

(** The budget is enough for a kernel whose dup fails or returns a
    descriptor above its argument, as dup does in logfile_reopen, where
    open has just returned the lowest descriptor that was free. *)
Lemma lf_move_fd_rec_returns (need_fd : Z) (fuel : nat) :
  (forall tr fd, os_dup os tr fd < 0 \/ fd < os_dup os tr fd) ->
  forall (fd : Z) (s : State),
    (1 <= fuel)%nat ->
    (0 <= fd < need_fd -> (Z.to_nat (need_fd - fd) < fuel)%nat) ->
    exists r s', lf_move_fd_rec os fuel fd need_fd s = Ret r s'.
Proof.
  intros Hdup. induction fuel as [|fuel IH]; intros fd s H1 Hin; [lia|].
  simpl. destruct (fd =? need_fd) eqn:E; [eexists _, _; reflexivity|].
  apply Z.eqb_neq in E.
  destruct ((0 <=? fd) && (fd <? need_fd)) eqn:R.
  - apply andb_true_iff in R as [R1 R2].
    apply Z.leb_le in R1. apply Z.ltb_lt in R2.
    specialize (Hin (conj R1 R2)).
    unfold sys_dup, sys_close. msimpl.
    set (d := os_dup os (trace s) fd). set (s1 := mkState _ _ _).
    destruct (IH d s1) as (r & s2 & Hrun).
    + lia.
    + intros Hd. pose proof (Hdup (trace s) fd) as Hd'. fold d in Hd'. lia.
    + rewrite Hrun. eexists _, _. reflexivity.
  - unfold sys_close. msimpl. eexists _, _. reflexivity.
Qed.

Lemma lf_move_fd_returns (fd need_fd : Z) (s : State) :
  (forall tr fd, os_dup os tr fd < 0 \/ fd < os_dup os tr fd) ->
  exists r s', lf_move_fd os fd need_fd s = Ret r s'.
Proof.
  intros Hdup. unfold lf_move_fd.
  apply lf_move_fd_rec_returns; [exact Hdup | lia | lia].
Qed.

Lemma logfclose_unregistered (l : ptr) (s : State) :
  l ∉ logroot s -> logfclose os l s = Ret (-1) s.
Proof.
  intros H. unfold logfclose. msimpl.
  rewrite bool_decide_eq_false_2 by exact H. reflexivity.
Qed.

Lemma logfclose_shared (l : ptr) (s : State) (L : Log) :
  l ∈ logroot s -> heap s !! l = Some L -> 1 < opencount L ->
  logfclose os l s =
    Ret 0 (mkState (logroot s)
                   (<[l := set_opencount (opencount L - 1) L]> (heap s))
                   (trace s)).
Proof.
  intros H HL Hc. unfold logfclose. msimpl.
  rewrite bool_decide_eq_true_2 by exact H. rewrite HL. simpl.
  destruct (0 <? opencount L - 1) eqn:E; [reflexivity|].
  apply Z.ltb_ge in E. lia.
Qed.

Lemma logfclose_last (l : ptr) (s : State) (L : Log) :
  l ∈ logroot s -> heap s !! l = Some L -> opencount L = 1 ->
  logfclose os l s =
    Ret 0 (mkState (unlink l (logroot s)) (delete l (heap s))
                   (trace s ++ close_calls os (trace s) L)).
Proof.
  intros H HL Hc. unfold logfclose, close_calls, sys_fclose, sys_fwrite. msimpl.
  rewrite bool_decide_eq_true_2 by exact H. rewrite HL. simpl.
  rewrite Hc. simpl.
  destruct (buffer L) as [b|]; simpl.
  - destruct (0 <? buflen L)%nat; simpl;
      rewrite delete_insert_eq, <- ?app_assoc; reflexivity.
  - rewrite delete_insert_eq. reflexivity.
Qed.

Lemma logfclose_abort (l : ptr) (s : State) (L : Log) :
  l ∈ logroot s -> heap s !! l = Some L -> opencount L < 1 ->
  logfclose os l s =
    Abort (mkState (logroot s)
                   (<[l := set_opencount (opencount L - 1) L]> (heap s))
                   (trace s)).
Proof.
  intros H HL Hc. unfold logfclose. msimpl.
  rewrite bool_decide_eq_true_2 by exact H. rewrite HL. simpl.
  destruct (0 <? opencount L - 1) eqn:E; [apply Z.ltb_lt in E; lia|].
  destruct (opencount L - 1 <? 0) eqn:E'; [reflexivity|].
  apply Z.ltb_ge in E'. lia.
Qed.

Lemma flush_log_buffer_empty (l : ptr) (s : State) (L : Log) :
  heap s !! l = Some L -> buffer L = None \/ buflen L = 0%nat ->
  flush_log_buffer os l s = Ret 0 s.
Proof.
  intros HL HB. unfold flush_log_buffer. msimpl. rewrite HL.
  destruct (buffer L) as [b|]; [|reflexivity].
  destruct HB as [HB| ->]; [discriminate | reflexivity].
Qed.

Lemma flush_log_buffer_run (l : ptr) (s : State) (L : Log) :
  heap s !! l = Some L -> buffer L <> None -> buflen L <> 0%nat ->
  let r := fwrite_result os (trace s) (fp L) (buffered L) in
  flush_log_buffer os l s =
    Ret (if r =? 1 then 0 else -1)
        (mkState (logroot s)
           (<[l := if r =? 1
                   then set_writecount (writecount L + 1) (set_buflen 0 L)
                   else set_buflen 0 L]> (heap s))
           (trace s ++ [EvFwrite (fp L) (buffered L) r])).
Proof.
  intros HL HB Hn r. unfold flush_log_buffer, sys_fwrite. msimpl. rewrite HL.
  subst r. unfold buffered. destruct (buffer L) as [b|]; [|congruence].
  destruct (buflen L =? 0)%nat eqn:E; [apply Nat.eqb_eq in E; lia|]. simpl.
  destruct (fwrite_result os (trace s) (fp L) (take (buflen L) b) =? 1);
    reflexivity.
Qed.

Lemma keeps_upd (l : ptr) (R : Log -> Log -> Prop) (s s' : State) (L : Log) :
  heap s !! l = Some L -> keeps l R s s' -> upd l R s s'.
Proof.
  intros HL (_ & Ho & Hl). split; [exact Ho|].
  intros L' HL'. destruct (Hl L HL) as (L'' & HL'' & HR).
  exists L. split; [exact HL|]. congruence.
Qed.

Lemma logfile_reopen_unfold (nm : string) (fd : Z) (l : ptr) (s : State) :
  logfile_reopen os nm fd l s =
    let s0 := after_open os nm fd s in
    let got := got_fd os nm fd s in
    (failed ← (if got <? 0 then mret true
               else r ← lf_move_fd os got fd; mret (r <? 0));
     if failed : bool then logfclose os l;; mret (-1)
     else changed_logfile os l;; mret 0) s0.
Proof.
  unfold logfile_reopen, sys_close, sys_open, after_open, got_fd. msimpl.
  rewrite <- app_assoc. reflexivity.
Qed.

Lemma logfile_reopen_fails (nm : string) (fd : Z) (l : ptr) (s s1 : State) :
  reopen_fails os nm fd s s1 ->
  logfile_reopen os nm fd l s = (logfclose os l;; mret (-1)) s1.
Proof.
  intros H. rewrite logfile_reopen_unfold. simpl.
  destruct H as [[Hg ->]|(Hg & r & Hmv & Hr)].
  - unfold mbind at 1, M_bind at 1.
    apply Z.ltb_lt in Hg. rewrite Hg. reflexivity.
  - unfold mbind at 1, M_bind at 1.
    destruct (got_fd os nm fd s <? 0) eqn:E; [apply Z.ltb_lt in E; lia|].
    unfold mbind at 1, M_bind at 1. rewrite Hmv.
    apply Z.ltb_lt in Hr. unfold mret, M_ret. rewrite Hr. reflexivity.
Qed.

(** However logfile_reopen returns, it is in one of two ways. *)
Lemma logfile_reopen_inv (nm : string) (fd : Z) (l : ptr) (s s' : State) (r : Z) :
  logfile_reopen os nm fd l s = Ret r s' ->
  (r = -1 /\ exists s1 v, reopen_fails os nm fd s s1
                          /\ logfclose os l s1 = Ret v s')
  \/ (r = 0 /\ exists s1, heap s1 = heap s /\ logroot s1 = logroot s
                          /\ quiet_ext s s1
                          /\ changed_logfile os l s1 = Ret tt s').
Proof.
  rewrite logfile_reopen_unfold. simpl.
  unfold mbind at 1, M_bind at 1.
  destruct (got_fd os nm fd s <? 0) eqn:E.
  - unfold mret at 1, M_ret at 1. intros H. left.
    unfold mbind, M_bind in H.
    destruct (logfclose os l (after_open os nm fd s)) as [v s2| | |] eqn:C;
      try discriminate.
    injection H as <- <-. split; [reflexivity|].
    exists (after_open os nm fd s), v. split; [|exact C].
    left. apply Z.ltb_lt in E. split; [exact E | reflexivity].
  - unfold mbind at 1, M_bind at 1. unfold lf_move_fd.
    pose proof (lf_move_fd_rec_frame (S (Z.to_nat fd)) (got_fd os nm fd s) fd
                  (after_open os nm fd s)) as F.
    destruct (lf_move_fd_rec os (S (Z.to_nat fd)) (got_fd os nm fd s) fd
                (after_open os nm fd s)) as [m s1| | |] eqn:Mv;
      try discriminate; try contradiction.
    unfold mret at 1, M_ret at 1.
    destruct F as (Hh & Hr & Q).
    destruct (m <? 0) eqn:Em.
    + intros H. left. unfold mbind, M_bind in H.
      destruct (logfclose os l s1) as [v s2| | |] eqn:C; try discriminate.
      injection H as <- <-. split; [reflexivity|]. exists s1, v.
      split; [|exact C]. right. apply Z.ltb_ge in E. split; [exact E|].
      exists m. split; [exact Mv | apply Z.ltb_lt; exact Em].
    + intros H. right. unfold mbind, M_bind in H.
      destruct (changed_logfile os l s1) as [[] s2| | |] eqn:C; try discriminate.
      injection H as <- <-. split; [reflexivity|]. exists s1.
      repeat split; try assumption.
      eapply quiet_ext_trans; [|exact Q].
      exists [EvClose fd; EvOpen nm (got_fd os nm fd s)]. split; reflexivity.
Qed.

Lemma reopen_fails_frame (nm : string) (fd : Z) (s s1 : State) :
  reopen_fails os nm fd s s1 ->
  heap s1 = heap s /\ logroot s1 = logroot s /\ quiet_ext s s1.
Proof.
  assert (quiet_ext s (after_open os nm fd s)) as Q0.
  { exists [EvClose fd; EvOpen nm (got_fd os nm fd s)]. split; reflexivity. }
  intros [[_ ->]|(_ & r & Hmv & _)].
  - repeat split. exact Q0.
  - unfold lf_move_fd in Hmv.
    pose proof (lf_move_fd_rec_frame (S (Z.to_nat fd)) (got_fd os nm fd s) fd
                  (after_open os nm fd s)) as F.
    rewrite Hmv in F. destruct F as (Hh & Hr & Q).
    repeat split; try assumption. exact (quiet_ext_trans _ _ _ Q0 Q).
Qed.

(** A drain of a live Log returns, and when it returns 0 the stream has
    received what was buffered. *)
Lemma flush_log_buffer_drains (l : ptr) (s : State) (L : Log) :
  heap s !! l = Some L ->
  exists r s',
    flush_log_buffer os l s = Ret r s'
    /\ (r = 0 ->
        written (fp L) (trace s') = written (fp L) (trace s) ++ buffered L).
Proof.
  intros HL. destruct (buffer L) as [b|] eqn:HB.
  - destruct (Nat.eq_dec (buflen L) 0%nat) as [E|E].
    + rewrite (flush_log_buffer_empty l s L HL) by (right; exact E).
      exists 0, s. split; [reflexivity|]. intros _.
      unfold buffered. rewrite HB, E, app_nil_r. reflexivity.
    + rewrite (flush_log_buffer_run l s L HL) by congruence.
      eexists _, _. split; [reflexivity|]. simpl.
      destruct (_ =? 1) eqn:Ew; [|discriminate]. intros _.
      apply Z.eqb_eq in Ew. rewrite written_app. simpl.
      rewrite bool_decide_eq_true_2 by reflexivity. rewrite Ew. simpl.
      rewrite app_nil_r. reflexivity.
  - rewrite (flush_log_buffer_empty l s L HL) by (left; exact HB).
    exists 0, s. split; [reflexivity|]. intros _.
    unfold buffered. rewrite HB, app_nil_r. reflexivity.
Qed.

End Frames.

(** ** Failure of the reopen protocol *)

Lemma unlink_not_elem (l : ptr) (ls : list ptr) :
  NoDup ls -> l ∉ unlink l ls.
Proof.
  induction 1 as [|x ls Hx Hnd IH]; simpl.
  - apply not_elem_of_nil.
  - case_bool_decide as E.
    + subst x. exact Hx.
    + rewrite not_elem_of_cons. split; [congruence | exact IH].
Qed.

Lemma unlink_elem_ne (l p : ptr) (ls : list ptr) :
  p <> l -> p ∈ unlink l ls <-> p ∈ ls.
Proof.
  intros Hp. induction ls as [|x ls IH]; simpl; [reflexivity|].
  case_bool_decide as E.
  - subst x. rewrite elem_of_cons. split; [auto | intros [?|?]; congruence].
  - rewrite !elem_of_cons, IH. reflexivity.
Qed.

Lemma close_calls_last (os : OS) (tr : list event) (L : Log) :
  last (close_calls os tr L) = Some (EvFclose (fp L)).
Proof.
  unfold close_calls. destruct (buffer L); [|reflexivity].
  destruct (0 <? buflen L)%nat; reflexivity.
Qed.

Section ReopenFailure.

Variable os : OS.

(** What the failure path of logfile_reopen does: one call of logfclose,
    then return -1.  A Log with openCount 1 is torn down: what is
    buffered is handed to fwrite, the stream is closed, the Log with its
    buffer is freed and unlinked from the registry.  For a Log with a
    larger openCount logfclose stops after the decrement. *)
Lemma logfile_reopen_failure_closes
    (nm : string) (fd : Z) (l : ptr) (s s1 : State) (L : Log) :
  NoDup (logroot s) -> l ∈ logroot s -> heap s !! l = Some L ->
  1 <= opencount L ->
  reopen_fails os nm fd s s1 ->
  exists s',
    logfile_reopen os nm fd l s = Ret (-1) s'
    /\ (opencount L = 1 ->
        (l ∉ logroot s') /\ heap s' !! l = None
        /\ logroot s' = unlink l (logroot s)
        /\ heap s' = delete l (heap s)
        /\ trace s' = trace s1 ++ close_calls os (trace s1) L
        /\ last (trace s') = Some (EvFclose (fp L)))
    /\ (1 < opencount L ->
        (l ∈ logroot s')
        /\ heap s' = <[l := set_opencount (opencount L - 1) L]> (heap s)
        /\ logroot s' = logroot s
        /\ trace s' = trace s1).
Proof.
  intros Hnd Hin HL Hoc Hf.
  rewrite (logfile_reopen_fails os nm fd l s s1 Hf).
  destruct (reopen_fails_frame os nm fd s s1 Hf) as (Hh & Hr & _).
  assert (l ∈ logroot s1) as Hin1 by (rewrite Hr; exact Hin).
  assert (heap s1 !! l = Some L) as HL1 by (rewrite Hh; exact HL).
  destruct (Z.eq_dec (opencount L) 1) as [E|E].
  - unfold mbind, M_bind. rewrite (logfclose_last os l s1 L Hin1 HL1 E).
    eexists. split; [reflexivity|]. simpl. split; [|lia].
    intros _. rewrite Hr, Hh. repeat split.
    + apply unlink_not_elem. exact Hnd.
    + apply lookup_delete_eq.
    + rewrite last_app, close_calls_last. reflexivity.
  - assert (1 < opencount L) as Hgt by lia.
    unfold mbind, M_bind. rewrite (logfclose_shared os l s1 L Hin1 HL1 Hgt).
    eexists. split; [reflexivity|]. simpl. split; [lia|].
    intros _. rewrite Hr, Hh. repeat split. exact Hin.
Qed.

End ReopenFailure.

(** C6: the code does not tear down a Log that is shared.  With
    openCount 2, descriptor 3 and "abc" buffered, and an open that fails,
    logfile_reopen has closed descriptor 3 (line 128) when logfclose
    (line 130) returns after the decrement (line 251): the call returns
    -1 and the Log is still registered, with its buffer and with a
    stream whose descriptor is closed.  A caller that flushes the Log
    twice sees -1 and then 0: the second flush makes no rotation check
    and hands "abc" to fwrite and fflush on descriptor 3, which nothing
    has opened again. *)
Theorem logfile_reopen_failure_keeps_shared_log :
  let s := one_log 1%nat (full_log 2) in
  reopen_fails os_rotated "screenlog.0" 3 s (after_open os_rotated "screenlog.0" 3 s)
  /\ logfile_reopen os_rotated "screenlog.0" 3 1%nat s
     = Ret (-1) (mkState [1%nat] {[ 1%nat := full_log 1 ]}
                         [EvClose 3; EvOpen "screenlog.0" (-1)])
  /\ fileno (fp (full_log 1)) = 3
  /\ buffered (full_log 1) = [x61; x62; x63]
  /\ run_ops os_rotated 4 2 [OpFlush (Some 1%nat); OpFlush (Some 1%nat)] s
     = Ret [VInt (-1); VInt 0]
         (mkState [1%nat]
            {[ 1%nat := mkLog 3 "screenlog.0" 1 1 2 (mkstat 0 0 1 0 0 0)
                              (Some [x61; x62; x63; x00]) 0 1 ]}
            [EvFstat 3 None; EvClose 3; EvOpen "screenlog.0" (-1);
             EvFwrite 3 [x61; x62; x63] 1; EvFflush 3 0]).
Proof.
  split.
  { left. split; [vm_compute; reflexivity | reflexivity]. }
  split; [vm_compute; reflexivity|].
  split; [reflexivity|]. split; [reflexivity|].
  vm_compute. reflexivity.
Qed.

(** ** The write path *)

Lemma memcpy_length (dst src : list byte) (off : nat) :
  (off + length src <= length dst)%nat ->
  length (memcpy dst off src) = length dst.
Proof.
  intros H. unfold memcpy.
  rewrite !length_app, length_take, length_drop. lia.
Qed.

Lemma memcpy_take (dst src : list byte) (off : nat) :
  (off <= length dst)%nat ->
  take (off + length src) (memcpy dst off src) = take off dst ++ src.
Proof.
  intros H. unfold memcpy. rewrite app_assoc.
  apply take_app_length'. rewrite length_app, length_take. lia.
Qed.

Section WritePath.

Variable os : OS.
Variable cap : nat.   (* LOG_BUFFER_SIZE *)
Variable ivl : Z.     (* LOG_STAT_CHECK_INTERVAL *)

Lemma check_and_reopen_inv (fn : reopen_fn) (l : ptr) (s s' : State)
    (L : Log) (c : bool) :
  heap s !! l = Some L ->
  check_and_reopen os ivl fn l s = Ret c s' ->
  exists v s1 L1,
    periodic_stat_check os ivl l s = Ret v s1
    /\ keeps l same_but_stat s s1 /\ quiet_ext s s1
    /\ heap s1 !! l = Some L1 /\ same_but_stat L L1
    /\ ((v = 0 /\ c = false /\ s' = s1)
        \/ (v = 1 /\ exists r, fn (name L) (fileno (fp L)) l s1 = Ret r s'
                               /\ c = negb (r =? 0))).
Proof.
  intros HL. unfold check_and_reopen.
  destruct (periodic_stat_check_keeps os ivl l s L HL)
    as (v & s1 & Hrun & Hv & K & Q).
  unfold mbind at 1, M_bind at 1. rewrite Hrun.
  pose proof K as (_ & _ & Hl). destruct (Hl L HL) as (L1 & HL1 & HS).
  intros H. exists v, s1, L1.
  split; [reflexivity|]. split; [exact K|]. split; [exact Q|].
  split; [exact HL1|]. split; [exact HS|].
  destruct Hv as [-> | ->]; simpl in H.
  - left. injection H as <- <-. repeat split.
  - right. split; [reflexivity|]. unfold mbind, M_bind, get_log in H.
    rewrite HL1 in H. destruct HS as (Hfp & Hnm & _). rewrite Hfp, Hnm in H.
    destruct (fn (name L) (fileno (fp L)) l s1) as [r s2| | |];
      try discriminate.
    injection H as <- <-. exists r. split; reflexivity.
Qed.

(** When the default reopen is not needed or succeeds, only the cached
    stat and the countdown of [l] have changed, and nothing was written. *)
Lemma check_and_reopen_ok (l : ptr) (s s' : State) (L : Log) :
  heap s !! l = Some L ->
  check_and_reopen os ivl (logfile_reopen os) l s = Ret false s' ->
  keeps l same_but_stat s s' /\ quiet_ext s s'.
Proof.
  intros HL H.
  destruct (check_and_reopen_inv _ l s s' L false HL H)
    as (v & s1 & L1 & Hrun & K & Q & HL1 & HS & [(-> & _ & ->)|(-> & r & Hre & Hc)]).
  - split; assumption.
  - destruct (r =? 0) eqn:Er; [|discriminate]. apply Z.eqb_eq in Er. subst r.
    apply logfile_reopen_inv in Hre as
      [[? _]|(_ & s2 & Hh & Hr & Q2 & Hch)]; [lia|].
    assert (heap s2 !! l = Some L1) as HL2 by (rewrite Hh; exact HL1).
    destruct (changed_logfile_keeps os l s2 L1 HL2) as (s3 & Hch' & K3 & Q3).
    rewrite Hch in Hch'. injection Hch' as <-.
    assert (keeps l same_but_stat s1 s2) as K2.
    { split; [exact Hr|]. split; [intros; rewrite Hh; reflexivity|].
      intros L0 HL0. exists L0. rewrite Hh. split; [exact HL0|].
      apply same_but_stat_refl. }
    split.
    + eapply keeps_trans; [apply same_but_stat_trans | exact K |].
      eapply keeps_trans; [apply same_but_stat_trans | exact K2 | exact K3].
    + exact (quiet_ext_trans _ _ _ Q (quiet_ext_trans _ _ _ Q2 Q3)).
Qed.

Lemma logfwrite_fits (fn : reopen_fn) (l : ptr) (buf : list byte) (s : State)
    (L : Log) (b : list byte) :
  heap s !! l = Some L -> buffer L = Some b ->
  (buflen L + length buf <= cap)%nat ->
  logfwrite os cap ivl fn l buf s =
    Ret 1 (mkState (logroot s)
             (<[l := set_buflen (buflen L + length buf)
                       (set_buffer (Some (memcpy b (buflen L) buf)) L)]> (heap s))
             (trace s)).
Proof.
  intros HL HB Hfit. unfold logfwrite. msimpl. rewrite HL, HB. simpl.
  rewrite HL. rewrite HB. simpl.
  destruct (buflen L + length buf <=? cap)%nat eqn:E;
    [reflexivity|]. apply Nat.leb_gt in E. lia.
Qed.

Lemma logfwrite_overflows (fn : reopen_fn) (l : ptr) (buf : list byte)
    (s : State) (L : Log) (b : list byte) :
  heap s !! l = Some L -> buffer L = Some b ->
  (cap < buflen L + length buf)%nat ->
  logfwrite os cap ivl fn l buf s =
    match check_and_reopen os ivl fn l s with
    | Ret true s1 => Ret (-1) s1
    | Ret false s1 =>
        (r ← flush_log_buffer os l;
         if r <? 0 then mret (-1) else
         L ← get_log l;
         let b := default [] (buffer L) in
         if (length buf <=? cap)%nat
         then
           set_log l (set_buflen (length buf)
                       (set_buffer (Some (memcpy b 0 buf)) L));;
           mret 1
         else
           w ← sys_fwrite os (fp L) buf;
           if negb (w =? 1) then mret (-1) else
           L ← get_log l;
           set_log l (set_flushcount 0 (set_writecount (writecount L + 1) L));;
           mret 1) s1
    | Abort s1 => Abort s1
    | Fault => Fault
    | Timeout => Timeout
    end.
Proof.
  intros HL HB Hov. unfold logfwrite.
  unfold mbind at 1, M_bind at 1, get_log at 1. rewrite HL, HB.
  unfold mbind at 1, M_bind at 1. unfold mret at 1, M_ret at 1.
  unfold mbind at 1, M_bind at 1, get_log at 1. rewrite HL, HB.
  destruct (buflen L + length buf <=? cap)%nat eqn:E;
    [apply Nat.leb_le in E; lia|].
  unfold mbind at 1, M_bind at 1.
  destruct (check_and_reopen os ivl fn l s) as [[|] s1| | |]; reflexivity.
Qed.

Lemma buffered_memcpy (L : Log) (b buf : list byte) :
  buffer L = Some b -> (buflen L <= length b)%nat ->
  buffered (set_buflen (buflen L + length buf)
              (set_buffer (Some (memcpy b (buflen L) buf)) L))
  = buffered L ++ buf.
Proof.
  intros HB Hlen. unfold buffered. simpl. rewrite HB.
  apply memcpy_take. exact Hlen.
Qed.

Lemma logfwrite_each_fits (fn : reopen_fn) (l : ptr) (chunks : list (list byte)) :
  forall (s : State) (L : Log) (b : list byte),
    heap s !! l = Some L -> buffer L = Some b -> length b = cap ->
    (buflen L + length (concat chunks) <= cap)%nat ->
    exists L',
      logfwrite_each os cap ivl fn l chunks s
      = Ret (replicate (length chunks) 1)
            (mkState (logroot s) (<[l := L']> (heap s)) (trace s))
      /\ same_but_buffer L L'
      /\ buffered L' = buffered L ++ concat chunks
      /\ buflen L' = (buflen L + length (concat chunks))%nat
      /\ exists b', buffer L' = Some b' /\ length b' = cap.
Proof.
  induction chunks as [|c chunks IH]; intros s L b HL HB Hb Hfit; simpl in *.
  - exists L. unfold mret, M_ret. rewrite insert_id by exact HL.
    destruct s; simpl. split; [reflexivity|]. split; [repeat split|].
    rewrite app_nil_r, Nat.add_0_r. repeat split. eauto.
  - rewrite length_app in Hfit.
    unfold mbind at 1, M_bind at 1.
    rewrite (logfwrite_fits fn l c s L b HL HB) by lia.
    set (L1 := set_buflen _ _).
    set (s1 := mkState _ _ _).
    destruct (IH s1 L1 (memcpy b (buflen L) c)) as (L' & Hrun & HS & HBuf & Hlen & Hb').
    + apply lookup_insert_eq.
    + reflexivity.
    + rewrite memcpy_length; [exact Hb | lia].
    + subst L1. simpl. lia.
    + exists L'. unfold mbind, M_bind. rewrite Hrun. unfold mret, M_ret.
      subst s1. simpl. rewrite insert_insert_eq.
      split; [reflexivity|]. split; [exact HS|].
      split; [|split; [|exact Hb']].
      * rewrite HBuf. subst L1. rewrite (buffered_memcpy L b c HB) by lia.
        rewrite <- app_assoc. reflexivity.
      * rewrite Hlen, length_app. subst L1. simpl. lia.
Qed.

(** C2: a Write whose chunk fits in what is left of an allocated buffer
    returns 1 and makes no call at all; it appends the chunk to the
    buffer.  Hence chunks that fit together all return 1 without a call,
    and the next drain hands fwrite exactly what was buffered followed by
    the chunks in order, which is what the stream receives when that
    fwrite succeeds; so it is when the drain comes after the rotation
    check that Flush and an overflowing Write run first. *)
Theorem logfwrite_coalesces (fn : reopen_fn) (l : ptr) (s : State)
    (L : Log) (b : list byte) :
  heap s !! l = Some L -> buffer L = Some b -> length b = cap ->
  (forall buf,
     (buflen L + length buf <= cap)%nat ->
     exists L1,
       logfwrite os cap ivl fn l buf s
       = Ret 1 (mkState (logroot s) (<[l := L1]> (heap s)) (trace s))
       /\ same_but_buffer L L1 /\ buffered L1 = buffered L ++ buf)
  /\ (forall chunks,
        (buflen L + length (concat chunks) <= cap)%nat ->
        exists L',
          let s' := mkState (logroot s) (<[l := L']> (heap s)) (trace s) in
          logfwrite_each os cap ivl fn l chunks s
          = Ret (replicate (length chunks) 1) s'
          /\ same_but_buffer L L'
          /\ buffered L' = buffered L ++ concat chunks
          /\ (exists r s'',
                flush_log_buffer os l s' = Ret r s''
                /\ (buffered L' = [] -> r = 0 /\ s'' = s')
                /\ (buffered L' <> [] ->
                    exists w,
                      trace s'' = trace s ++ [EvFwrite (fp L) (buffered L') w]
                      /\ r = (if w =? 1 then 0 else -1))
                /\ (r = 0 ->
                    written (fp L) (trace s'')
                    = written (fp L) (trace s) ++ buffered L ++ concat chunks))
          /\ forall s1,
               check_and_reopen os ivl (logfile_reopen os) l s' = Ret false s1 ->
               exists r s2,
                 flush_log_buffer os l s1 = Ret r s2
                 /\ (r = 0 ->
                     written (fp L) (trace s2)
                     = written (fp L) (trace s) ++ buffered L ++ concat chunks)).
Proof.
  intros HL HB Hb. split.
  - intros buf Hfit.
    rewrite (logfwrite_fits fn l buf s L b HL HB Hfit).
    eexists. split; [reflexivity|]. split; [repeat split|].
    apply buffered_memcpy; [exact HB | lia].
  - intros chunks Hfit.
    destruct (logfwrite_each_fits fn l chunks s L b HL HB Hb Hfit)
      as (L' & Hrun & HS & HBuf & Hlen & b' & HB' & Hb').
    exists L'. simpl. split; [exact Hrun|]. split; [exact HS|].
    split; [exact HBuf|].
    set (s' := mkState (logroot s) (<[l := L']> (heap s)) (trace s)).
    assert (heap s' !! l = Some L') as HL' by apply lookup_insert_eq.
    destruct HS as (Hfp & _).
    split.
    { destruct (Nat.eq_dec (buflen L') 0%nat) as [E|E].
      + assert (buffered L' = []) as HE
          by (unfold buffered; rewrite HB', E; reflexivity).
        rewrite (flush_log_buffer_empty os l s' L' HL') by (right; exact E).
        exists 0, s'. split; [reflexivity|]. split; [auto|].
        split; [congruence|]. intros _. simpl.
        rewrite <- HBuf, HE, app_nil_r. reflexivity.
      + assert (buffered L' <> []) as HNE.
        { unfold buffered. rewrite HB'. intros H.
          apply (f_equal length) in H. rewrite length_take in H.
          simpl in H. lia. }
        rewrite (flush_log_buffer_run os l s' L' HL') by congruence.
        set (w := fwrite_result os (trace s') (fp L') (buffered L')).
        eexists _, _. split; [reflexivity|]. split; [congruence|]. simpl.
        split.
        * intros _. exists w. rewrite Hfp. split; reflexivity.
        * destruct (w =? 1) eqn:Ew; [|discriminate]. intros _.
          apply Z.eqb_eq in Ew. rewrite written_app. simpl.
          rewrite Hfp, bool_decide_eq_true_2 by reflexivity.
          rewrite Ew. simpl. rewrite app_nil_r, HBuf. reflexivity. }
    intros s1 Hck.
    destruct (check_and_reopen_ok l s' s1 L' HL' Hck) as ((_ & _ & Hl) & Q).
    destruct (Hl L' HL') as (L1 & HL1 & (Hfp1 & _ & _ & _ & _ & HB1 & Hlen1)).
    assert (buffered L1 = buffered L') as HBuf1
      by (unfold buffered; rewrite HB1, Hlen1; reflexivity).
    assert (written (fp L) (trace s1) = written (fp L) (trace s)) as Hq
      by exact (quiet_ext_written (fp L) s' s1 Q).
    destruct (Nat.eq_dec (buflen L1) 0%nat) as [E|E].
    + rewrite (flush_log_buffer_empty os l s1 L1 HL1) by (right; exact E).
      exists 0, s1. split; [reflexivity|]. intros _.
      rewrite Hq, <- HBuf, <- HBuf1. unfold buffered.
      rewrite HB1, HB', E, app_nil_r. reflexivity.
    + rewrite (flush_log_buffer_run os l s1 L1 HL1) by congruence.
      eexists _, _. split; [reflexivity|]. simpl.
      destruct (_ =? 1) eqn:Ew; [|discriminate]. intros _.
      apply Z.eqb_eq in Ew. rewrite written_app, Hq. simpl.
      rewrite Hfp1, Hfp, bool_decide_eq_true_2 by reflexivity.
      rewrite Hfp1, Hfp in Ew. rewrite Ew. simpl.
      rewrite app_nil_r, HBuf1, HBuf. reflexivity.
Qed.

(** What a successful drain leaves behind. *)
Lemma flush_log_buffer_ok (l : ptr) (s1 s2 : State) (L1 : Log) (b : list byte) :
  heap s1 !! l = Some L1 -> buffer L1 = Some b ->
  flush_log_buffer os l s1 = Ret 0 s2 ->
  exists L2,
    heap s2 !! l = Some L2
    /\ buffer L2 = Some b /\ buflen L2 = 0%nat /\ fp L2 = fp L1
    /\ flushcount L2 = flushcount L1
    /\ writecount L2
       = writecount L1 + (if (buflen L1 =? 0)%nat then 0 else 1)
    /\ trace s2
       = trace s1 ++ (if (buflen L1 =? 0)%nat then []
                      else [EvFwrite (fp L1) (buffered L1) 1]).
Proof.
  intros HL1 HB1 Hrun.
  destruct (buflen L1 =? 0)%nat eqn:E.
  - apply Nat.eqb_eq in E.
    rewrite (flush_log_buffer_empty os l s1 L1 HL1) in Hrun by (right; exact E).
    injection Hrun as <-. exists L1. rewrite app_nil_r, Z.add_0_r.
    repeat split; assumption.
  - apply Nat.eqb_neq in E.
    rewrite (flush_log_buffer_run os l s1 L1 HL1) in Hrun by congruence.
    destruct (fwrite_result os (trace s1) (fp L1) (buffered L1) =? 1) eqn:W;
      [|discriminate].
    apply Z.eqb_eq in W. rewrite W in Hrun. injection Hrun as <-. simpl.
    eexists. rewrite lookup_insert_eq. split; [reflexivity|].
    simpl. repeat split. exact HB1.
Qed.

(** C3: a Write whose chunk does not fit, once the rotation check (with
    the default reopen) and the drain of the buffer have succeeded: the
    stream has received what was buffered; a chunk of at most the capacity
    is then stored in the emptied buffer and 1 is returned with no further
    call, so that the next drain that succeeds has the stream receive it
    after the old content; a larger chunk is handed to fwrite directly, the
    buffer staying
    empty, and when that fwrite succeeds it is counted in writecount, 1 is
    returned and the stream has received the old content followed by the
    chunk. *)
Theorem logfwrite_overflow_order (l : ptr) (buf : list byte)
    (s s1 s2 : State) (L : Log) (b : list byte) :
  heap s !! l = Some L -> buffer L = Some b ->
  (cap < buflen L + length buf)%nat ->
  check_and_reopen os ivl (logfile_reopen os) l s = Ret false s1 ->
  flush_log_buffer os l s1 = Ret 0 s2 ->
  written (fp L) (trace s2) = written (fp L) (trace s) ++ buffered L
  /\ ((length buf <= cap)%nat ->
      exists s3 L3,
        logfwrite os cap ivl (logfile_reopen os) l buf s = Ret 1 s3
        /\ heap s3 !! l = Some L3
        /\ buffered L3 = buf /\ fp L3 = fp L
        /\ trace s3 = trace s2
        /\ exists r s4,
             flush_log_buffer os l s3 = Ret r s4
             /\ (r = 0 ->
                 written (fp L) (trace s4)
                 = written (fp L) (trace s) ++ buffered L ++ buf))
  /\ ((cap < length buf)%nat ->
      let w := fwrite_result os (trace s2) (fp L) buf in
      exists s3 L3,
        logfwrite os cap ivl (logfile_reopen os) l buf s
        = Ret (if w =? 1 then 1 else -1) s3
        /\ heap s3 !! l = Some L3
        /\ buffered L3 = []
        /\ trace s3 = trace s2 ++ [EvFwrite (fp L) buf w]
        /\ (w = 1 ->
            writecount L3
            = writecount L + (if (buflen L =? 0)%nat then 1 else 2)
            /\ written (fp L) (trace s3)
               = written (fp L) (trace s) ++ buffered L ++ buf)).
Proof.
  intros HL HB Hov Hck Hfl.
  destruct (check_and_reopen_ok l s s1 L HL Hck) as (K & Q).
  destruct K as (_ & _ & Hl). destruct (Hl L HL) as (L1 & HL1 & HS).
  destruct HS as (Hfp1 & _ & _ & Hwc1 & _ & HB1 & Hlen1).
  rewrite HB in HB1.
  destruct (flush_log_buffer_ok l s1 s2 L1 b HL1 HB1 Hfl)
    as (L2 & HL2 & HB2 & Hlen2 & Hfp2 & _ & Hwc2 & Htr2).
  assert (buffered L1 = buffered L) as HBuf1
    by (unfold buffered; rewrite HB, HB1, Hlen1; reflexivity).
  rewrite Hlen1, Hfp1, HBuf1 in *.
  assert (written (fp L) (trace s2) = written (fp L) (trace s) ++ buffered L)
    as Hwr.
  { rewrite Htr2, written_app, (quiet_ext_written (fp L) s s1 Q).
    destruct (buflen L =? 0)%nat eqn:E.
    - apply Nat.eqb_eq in E. unfold buffered. rewrite HB, E. reflexivity.
    - simpl. rewrite bool_decide_eq_true_2 by reflexivity. simpl.
      rewrite app_nil_r. reflexivity. }
  split; [exact Hwr|].
  split; intros Hcmp;
    rewrite (logfwrite_overflows (logfile_reopen os) l buf s L b HL HB Hov), Hck;
    unfold mbind at 1, M_bind at 1; rewrite Hfl; simpl;
    unfold mbind at 1, M_bind at 1, get_log at 1; rewrite HL2, HB2; simpl.
  - apply Nat.leb_le in Hcmp. rewrite Hcmp. msimpl.
    set (L3 := set_buflen (length buf) (set_buffer (Some (memcpy b 0 buf)) L2)).
    set (s3 := mkState (logroot s2) (<[l := L3]> (heap s2)) (trace s2)).
    assert (heap s3 !! l = Some L3) as HL3 by apply lookup_insert_eq.
    assert (buffered L3 = buf) as HB3
      by (unfold buffered; simpl; apply (memcpy_take b buf 0); lia).
    exists s3, L3. split; [reflexivity|]. split; [exact HL3|].
    split; [exact HB3|]. split; [exact Hfp2|]. split; [reflexivity|].
    destruct (flush_log_buffer_drains os l s3 L3 HL3) as (r & s4 & Hrun & Hd).
    exists r, s4. split; [exact Hrun|]. intros Hr0.
    specialize (Hd Hr0). change (fp L3) with (fp L2) in Hd.
    rewrite Hfp2, HB3 in Hd. rewrite Hd. change (trace s3) with (trace s2).
    rewrite Hwr, <- app_assoc. reflexivity.
  - apply Nat.leb_gt in Hcmp. rewrite Hcmp.
    unfold sys_fwrite. msimpl. rewrite Hfp2.
    destruct (fwrite_result os (trace s2) (fp L) buf =? 1) eqn:W; simpl.
    + rewrite HL2. eexists _, _. split; [reflexivity|]. simpl.
      rewrite lookup_insert_eq. split; [reflexivity|].
      unfold buffered. simpl. rewrite HB2, Hlen2.
      split; [reflexivity|]. split; [reflexivity|]. intros Hw. split.
      * rewrite Hwc2, Hwc1. destruct (buflen L =? 0)%nat; lia.
      * rewrite written_app, Hwr. simpl.
        rewrite bool_decide_eq_true_2 by reflexivity. rewrite Hw. simpl.
        rewrite app_nil_r, <- app_assoc. reflexivity.
    + eexists _, _. split; [reflexivity|]. simpl.
      split; [exact HL2|]. unfold buffered. rewrite HB2, Hlen2.
      split; [reflexivity|]. split; [reflexivity|].
      intros Hw. apply Z.eqb_neq in W. contradiction.
Qed.


(** A Write to a Log without a buffer starts with the malloc. *)
Lemma logfwrite_unallocated (fn : reopen_fn) (l : ptr) (buf : list byte)
    (s : State) (L : Log) :
  heap s !! l = Some L -> buffer L = None ->
  logfwrite os cap ivl fn l buf s =
    (a ← sys_alloc os;
     if a : bool
     then set_log l (set_buflen 0
                      (set_buffer (Some (replicate cap x00)) L));;
          logfwrite os cap ivl fn l buf
     else sys_fwrite os (fp L) buf) s.
Proof.
  intros HL HB. unfold logfwrite at 1.
  unfold mbind at 1, M_bind at 1, get_log at 1. rewrite HL, HB.
  unfold sys_alloc, sys_fwrite. msimpl.
  destruct (os_alloc os (trace s)); simpl; [|reflexivity].
  unfold logfwrite. msimpl. repeat (rewrite lookup_insert_eq; simpl).
  reflexivity.
Qed.

(** C10: when the malloc of the buffer fails, logfwrite hands the chunk to
    fwrite and returns what fwrite returned: 1 when the item was written, 0
    (never -1) when it was not.  The Log is left as it was, its buffer
    still NULL, so that the next Write starts with the malloc again. *)
Theorem logfwrite_alloc_failure (fn : reopen_fn) (l : ptr) (buf : list byte)
    (s : State) (L : Log) :
  heap s !! l = Some L -> buffer L = None ->
  os_alloc os (trace s) = false ->
  let w := fwrite_result os (trace s ++ [EvAlloc false]) (fp L) buf in
  let s' := mkState (logroot s) (heap s)
                    (trace s ++ [EvAlloc false; EvFwrite (fp L) buf w]) in
  logfwrite os cap ivl fn l buf s = Ret w s'
  /\ (w = 1 \/ w = 0)
  /\ (w = 1 <->
      buf <> [] /\ os_fwrite os (trace s ++ [EvAlloc false]) (fp L) buf = true)
  /\ heap s' !! l = Some L
  /\ forall buf2,
       logfwrite os cap ivl fn l buf2 s' =
         (a ← sys_alloc os;
          if a : bool
          then set_log l (set_buflen 0
                           (set_buffer (Some (replicate cap x00)) L));;
               logfwrite os cap ivl fn l buf2
          else sys_fwrite os (fp L) buf2) s'.
Proof.
  intros HL HB Ha w s'. split; [|split; [|split; [|split]]].
  - rewrite (logfwrite_unallocated fn l buf s L HL HB).
    unfold sys_alloc, sys_fwrite. msimpl. rewrite Ha. simpl.
    subst s' w. rewrite <- app_assoc. reflexivity.
  - subst w. unfold fwrite_result.
    destruct (length buf =? 0)%nat; [right; reflexivity|].
    destruct (os_fwrite _ _ _ _); [left | right]; reflexivity.
  - subst w. unfold fwrite_result.
    destruct buf as [|x buf]; simpl.
    + split; [discriminate | intros [H _]; congruence].
    + destruct (os_fwrite _ _ _ _); split; try discriminate; auto.
      intros [_ H]. discriminate.
  - exact HL.
  - intros buf2. apply logfwrite_unallocated; [exact HL | exact HB].
Qed.

End WritePath.

Lemma logfwrite_coalesces_witness :
  exists L',
    logfwrite_each os_fine 4 2 (logfile_reopen os_fine) 1%nat [[x64]]
      (one_log 1%nat (full_log 1))
    = Ret [1] (mkState [1%nat] (<[1%nat := L']> {[ 1%nat := full_log 1 ]}) [])
    /\ buffered L' = [x61; x62; x63; x64].
Proof.
  destruct (logfwrite_coalesces os_fine 4 2 (logfile_reopen os_fine) 1%nat
              (one_log 1%nat (full_log 1)) (full_log 1)
              [x61; x62; x63; x00] eq_refl eq_refl eq_refl)
    as (_ & Hseq).
  destruct (Hseq [[x64]]) as (L' & Hrun & _ & HB & _); [simpl; lia|].
  exists L'. split; [exact Hrun | exact HB].
Defined.

Lemma logfwrite_overflow_order_witness :
  exists s3 L3,
    logfwrite os_fine 4 2 (logfile_reopen os_fine) 1%nat [x64; x65]
      (one_log 1%nat (full_log 1)) = Ret 1 s3
    /\ heap s3 !! 1%nat = Some L3
    /\ buffered L3 = [x64; x65]
    /\ written 3 (trace s3) = [x61; x62; x63].
Proof.
  edestruct (logfwrite_overflow_order os_fine 4 2 1%nat [x64; x65]
               (one_log 1%nat (full_log 1)))
    as (Hw & Hfit & _).
  - reflexivity.
  - reflexivity.
  - simpl. lia.
  - vm_compute. reflexivity.
  - vm_compute. reflexivity.
  - destruct Hfit as (s3 & L3 & Hrun & HL3 & HB3 & _ & Htr & _); [simpl; lia|].
    exists s3, L3. split; [exact Hrun|]. split; [exact HL3|].
    split; [exact HB3|]. rewrite Htr. exact Hw.
Defined.



Lemma logfwrite_alloc_failure_witness :
  logfwrite os_nomem 4 2 (logfile_reopen os_nomem) 1%nat [x64; x65]
    (one_log 1%nat cached_log)
  = Ret 0 (mkState [1%nat] {[ 1%nat := cached_log ]}
                   [EvAlloc false; EvFwrite 3 [x64; x65] 0]).
Proof.
  destruct (logfwrite_alloc_failure os_nomem 4 2 (logfile_reopen os_nomem)
              1%nat [x64; x65] (one_log 1%nat cached_log) cached_log)
    as (Hrun & _).
  - reflexivity.
  - reflexivity.
  - reflexivity.
  - exact Hrun.
Defined.

(** ** Opening *)

Section Open.

Variable os : OS.
Variable ivl : Z.   (* LOG_STAT_CHECK_INTERVAL *)

Lemma lookup_from_none (nm : string) (s : State) (ls : list ptr) :
  none_named nm s ls -> lookup_from nm ls s = Ret None s.
Proof.
  induction ls as [|p ls IH]; intros H; simpl; [reflexivity|].
  destruct (H p) as (Lp & HLp & Hn); [apply list_elem_of_here|].
  msimpl. rewrite HLp. rewrite bool_decide_eq_false_2 by congruence.
  apply IH. intros q Hq. apply H. apply list_elem_of_further. exact Hq.
Qed.

Lemma lookup_from_found (nm : string) (s : State) (pre post : list ptr)
    (l : ptr) (L : Log) :
  none_named nm s pre -> heap s !! l = Some L -> name L = nm ->
  lookup_from nm (pre ++ l :: post) s = Ret (Some l) s.
Proof.
  intros Hpre HL Hnm. induction pre as [|p pre IH]; simpl.
  - msimpl. rewrite HL. rewrite bool_decide_eq_true_2 by congruence.
    reflexivity.
  - destruct (Hpre p) as (Lp & HLp & Hn); [apply list_elem_of_here|].
    msimpl. rewrite HLp. rewrite bool_decide_eq_false_2 by congruence.
    apply IH. intros q Hq. apply Hpre. apply list_elem_of_further. exact Hq.
Qed.

Lemma new_address_fresh (s : State) : heap s !! new_address s = None.
Proof.
  apply not_elem_of_dom. unfold new_address.
  pose proof (is_fresh ({[ 0%nat ]} ∪ dom (heap s))) as H.
  set_solver.
Qed.

Lemma logfopen_join (nm : string) (s : State) (pre post : list ptr)
    (l : ptr) (L : Log) :
  logroot s = pre ++ l :: post ->
  none_named nm s pre -> heap s !! l = Some L -> name L = nm ->
  logfopen os ivl nm None s
  = Ret (Some l)
      (mkState (logroot s)
               (<[l := set_opencount (opencount L + 1) L]> (heap s))
               (trace s)).
Proof.
  intros Hroot Hpre HL Hnm.
  unfold logfopen, lookup_logfile. msimpl. rewrite Hroot.
  rewrite (lookup_from_found nm s pre post l L Hpre HL Hnm).
  rewrite HL, <- Hroot. reflexivity.
Qed.

Lemma logfopen_not_found (nm : string) (s : State) :
  none_named nm s (logroot s) -> logfopen os ivl nm None s = Ret None s.
Proof.
  intros Hnone. unfold logfopen, lookup_logfile. msimpl.
  rewrite (lookup_from_none nm s _ Hnone). reflexivity.
Qed.

Lemma logfopen_new (nm : string) (f : FILE) (s : State) :
  alloc3 os (trace s) = true ->
  let tr := trace s ++ [EvAlloc true; EvAlloc true; EvAlloc true] in
  let r := os_fstat os tr (fileno f) in
  logfopen os ivl nm (Some f) s
  = Ret (Some (new_address s))
      (mkState (new_address s :: logroot s)
               (<[new_address s := set_st (opened_stat r) (new_log ivl nm f)]>
                  (heap s))
               (tr ++ [EvFstat (fileno f) r])).
Proof.
  intros Ha tr r. unfold alloc3 in Ha.
  apply andb_true_iff in Ha as [Ha Ha3].
  apply andb_true_iff in Ha as [Ha1 Ha2].
  subst r tr. unfold opened_stat.
  unfold logfopen, sys_alloc, changed_logfile, sys_fstat. msimpl.
  rewrite Ha1. simpl. rewrite Ha2. simpl.
  rewrite <- app_assoc. simpl. rewrite Ha3. simpl.
  unfold new_address. simpl. rewrite lookup_insert_eq. simpl.
  rewrite <- !app_assoc. simpl.
  destruct (os_fstat os _ (fileno f)) as [o|]; simpl.
  - destruct (0 <? st_size o); simpl.
    + rewrite insert_insert_eq. reflexivity.
    + reflexivity.
  - reflexivity.
Qed.

Lemma logfopen_no_memory (nm : string) (f : FILE) (s : State) :
  alloc3 os (trace s) = false ->
  exists s', logfopen os ivl nm (Some f) s = Ret None s'
             /\ logroot s' = logroot s /\ heap s' = heap s.
Proof.
  intros Ha. unfold alloc3 in Ha.
  unfold logfopen, sys_alloc. msimpl.
  destruct (os_alloc os (trace s)) eqn:Ha1; simpl;
    [|eexists; repeat split].
  destruct (os_alloc os (trace s ++ [EvAlloc true])) eqn:Ha2; simpl;
    [|eexists; repeat split].
  rewrite <- app_assoc. simpl.
  destruct (os_alloc os (trace s ++ [EvAlloc true; EvAlloc true])) eqn:Ha3;
    simpl; [discriminate|].
  eexists. repeat split.
Qed.

(** C4, as amended.  Open without a stream returns the first Log of the
    registry that bears the name, its openCount incremented, and returns
    NULL, changing nothing, when no Log bears it.  Open with a stream,
    when its three allocations succeed, creates a Log at a new address and
    puts it at the head of the registry whatever the names already there:
    openCount 1, no buffer, the countdown at the check interval, and a
    cached stat that is all zero but for the size and mtime fstat reported
    for the stream, and all zero when fstat failed or the file is empty.
    When an allocation fails it returns NULL and registers nothing. *)
Theorem logfopen_spec (nm : string) (s : State) :
  (forall pre l post L,
     logroot s = pre ++ l :: post ->
     none_named nm s pre -> heap s !! l = Some L -> name L = nm ->
     logfopen os ivl nm None s
     = Ret (Some l)
         (mkState (logroot s)
                  (<[l := set_opencount (opencount L + 1) L]> (heap s))
                  (trace s)))
  /\ (none_named nm s (logroot s) ->
      logfopen os ivl nm None s = Ret None s)
  /\ (forall f,
        alloc3 os (trace s) = true ->
        let l := new_address s in
        let tr := trace s ++ [EvAlloc true; EvAlloc true; EvAlloc true] in
        let r := os_fstat os tr (fileno f) in
        let L := set_st (opened_stat r) (new_log ivl nm f) in
        logfopen os ivl nm (Some f) s
        = Ret (Some l)
            (mkState (l :: logroot s) (<[l := L]> (heap s))
                     (tr ++ [EvFstat (fileno f) r]))
        /\ heap s !! l = None
        /\ opencount L = 1 /\ buffer L = None
        /\ stat_countdown L = ivl /\ fp L = f /\ name L = nm)
  /\ (forall f,
        alloc3 os (trace s) = false ->
        exists s', logfopen os ivl nm (Some f) s = Ret None s'
                   /\ logroot s' = logroot s /\ heap s' = heap s).
Proof.
  split; [|split; [|split]].
  - intros pre l post L. apply logfopen_join.
  - apply logfopen_not_found.
  - intros f Ha l tr r L.
    split; [exact (logfopen_new nm f s Ha)|].
    split; [apply new_address_fresh | repeat split].
  - intros f. apply logfopen_no_memory.
Qed.

End Open.

Lemma logfopen_spec_witness :
  logfopen os_grown 2 "screenlog.0" (Some 3) no_logs
  = Ret (Some 1%nat)
      (mkState [1%nat]
         {[ 1%nat := mkLog 3 "screenlog.0" 1 0 0 (mkstat 0 0 0 10 3 0)
                           None 0 2 ]}
         [EvAlloc true; EvAlloc true; EvAlloc true;
          EvFstat 3 (Some (mkstat 5 7 1 10 3 3))]).
Proof.
  destruct (logfopen_spec os_grown 2 "screenlog.0" no_logs)
    as (_ & _ & H & _).
  destruct (H 3 eq_refl) as (Hrun & _).
  etransitivity; [exact Hrun|]. vm_compute. reflexivity.
Defined.

(** C4 as stated fails twice over.  Open with a stream does not always
    create a handle: without memory it returns NULL and the registry stays
    empty.  And when it does create one, the cached stat is not the stat
    of the stream: fstat reports device 5, inode 7, one link, 10 bytes; the
    cache holds the size and the mtime only, with device and inode
    zero. *)
Lemma logfopen_not_always_nor_the_stat :
  logfopen os_nomem 2 "screenlog.0" (Some 3) no_logs
  = Ret None (mkState [] ∅ [EvAlloc false])
  /\ os_fstat os_grown [EvAlloc true; EvAlloc true; EvAlloc true] 3
     = Some (mkstat 5 7 1 10 3 3)
  /\ exists s' L,
       logfopen os_grown 2 "screenlog.0" (Some 3) no_logs = Ret (Some 1%nat) s'
       /\ heap s' !! 1%nat = Some L
       /\ st L = mkstat 0 0 0 10 3 0
       /\ st L <> mkstat 5 7 1 10 3 3.
Proof.
  split; [vm_compute; reflexivity|]. split; [reflexivity|].
  eexists _, _. split; [vm_compute; reflexivity|].
  split; [vm_compute; reflexivity|].
  split; [reflexivity | discriminate].
Qed.

(** ** The observational counters *)

Lemma bind_ret_inv {A B : Type} (m : M A) (k : A -> M B) (s s' : State) (v : B) :
  (m ≫= k) s = Ret v s' ->
  exists a s1, m s = Ret a s1 /\ k a s1 = Ret v s'.
Proof.
  unfold mbind, M_bind. destruct (m s) as [a s1| | |]; try discriminate.
  intros H. exists a, s1. split; [reflexivity | exact H].
Qed.

Lemma upd_trans (l : ptr) (R1 R2 R3 : Log -> Log -> Prop) (s s1 s2 : State) :
  (forall a b c, R1 a b -> R2 b c -> R3 a c) ->
  upd l R1 s s1 -> upd l R2 s1 s2 -> upd l R3 s s2.
Proof.
  intros HR (Ho1 & Hl1) (Ho2 & Hl2). split.
  - intros p Hp. rewrite Ho2, Ho1; auto.
  - intros L2 HL2. destruct (Hl2 L2 HL2) as (L1 & HL1 & H2).
    destruct (Hl1 L1 HL1) as (L & HL & H1). eauto.
Qed.

Lemma upd_weaken (l : ptr) (R1 R2 : Log -> Log -> Prop) (s s' : State) :
  (forall a b, R1 a b -> R2 a b) -> upd l R1 s s' -> upd l R2 s s'.
Proof.
  intros HR (Ho & Hl). split; [exact Ho|].
  intros L' HL'. destruct (Hl L' HL') as (L & HL & H). eauto.
Qed.

Lemma upd_heap_eq (l : ptr) (R : Log -> Log -> Prop) (s s' : State) :
  (forall L, R L L) -> heap s' = heap s -> upd l R s s'.
Proof.
  intros HR Hh. split; [intros; rewrite Hh; reflexivity|].
  intros L' HL'. rewrite Hh in HL'. eauto.
Qed.

Lemma upd_set (l : ptr) (R : Log -> Log -> Prop) (s : State) (L L' : Log)
    (lr : list ptr) (tr : list event) :
  heap s !! l = Some L -> R L L' ->
  upd l R s (mkState lr (<[l := L']> (heap s)) tr).
Proof.
  intros HL HR. split; simpl.
  - intros p Hp. apply lookup_insert_ne. congruence.
  - intros L0. rewrite lookup_insert_eq. intros [= <-]. eauto.
Qed.

Lemma upd_delete (l : ptr) (R : Log -> Log -> Prop) (s : State)
    (lr : list ptr) (tr : list event) :
  upd l R s (mkState lr (delete l (heap s)) tr).
Proof.
  split; simpl.
  - intros p Hp. apply lookup_delete_ne. congruence.
  - intros L0. rewrite lookup_delete_eq. discriminate.
Qed.

Lemma upd_mono (l : ptr) (R : Log -> Log -> Prop) (s s' : State) :
  (forall L, R L L) -> upd l R s s' -> mono R s s'.
Proof.
  intros HR (Ho & Hl) p L' HL'. destruct (decide (p = l)) as [->|Hp].
  - apply Hl. exact HL'.
  - rewrite Ho in HL' by exact Hp. eauto.
Qed.

Lemma mono_trans (R : Log -> Log -> Prop) (s s1 s2 : State) :
  (forall a b c, R a b -> R b c -> R a c) ->
  mono R s s1 -> mono R s1 s2 -> mono R s s2.
Proof.
  intros HR H1 H2 p L2 HL2. destruct (H2 p L2 HL2) as (L1 & HL1 & R2).
  destruct (H1 p L1 HL1) as (L & HL & R1). eauto.
Qed.

Lemma same_counters_refl (L : Log) : same_counters L L.
Proof. split; reflexivity. Qed.

Lemma same_counters_trans (a b c : Log) :
  same_counters a b -> same_counters b c -> same_counters a c.
Proof. unfold same_counters. intros [] []. split; congruence. Qed.

Lemma same_but_stat_counters (a b : Log) :
  same_but_stat a b -> same_counters a b.
Proof. intros (_ & _ & _ & Hw & Hf & _). split; assumption. Qed.

Lemma counters_le_refl (L : Log) : counters_le L L.
Proof. split; lia. Qed.

Lemma counters_le_trans (a b c : Log) :
  counters_le a b -> counters_le b c -> counters_le a c.
Proof. unfold counters_le. intros [] []. split; lia. Qed.

Lemma same_counters_le (a b : Log) : same_counters a b -> counters_le a b.
Proof. unfold same_counters, counters_le. intros []. split; lia. Qed.

Section Counters.

Variable os : OS.
Variable cap : nat.   (* LOG_BUFFER_SIZE *)
Variable ivl : Z.     (* LOG_STAT_CHECK_INTERVAL *)

Lemma logfclose_upd (l : ptr) (s s' : State) (v : Z) :
  logfclose os l s = Ret v s' -> upd l same_counters s s'.
Proof.
  intros H. destruct (decide (l ∈ logroot s)) as [Hin|Hnin].
  - destruct (heap s !! l) as [L|] eqn:HL.
    + destruct (Z.lt_trichotomy (opencount L) 1) as [Hc|[Hc|Hc]].
      * rewrite (logfclose_abort os l s L Hin HL Hc) in H. discriminate.
      * rewrite (logfclose_last os l s L Hin HL Hc) in H.
        injection H as _ <-. apply upd_delete.
      * rewrite (logfclose_shared os l s L Hin HL Hc) in H.
        injection H as _ <-. eapply upd_set; [exact HL|]. split; reflexivity.
    + unfold logfclose in H. msimpl.
      rewrite bool_decide_eq_true_2 in H by exact Hin.
      rewrite HL in H. discriminate.
  - rewrite (logfclose_unregistered os l s Hnin) in H. injection H as _ <-.
    apply upd_heap_eq; [apply same_counters_refl | reflexivity].
Qed.

Lemma check_and_reopen_live (fn : reopen_fn) (l : ptr) (s s' : State) (c : bool) :
  check_and_reopen os ivl fn l s = Ret c s' ->
  exists L, heap s !! l = Some L.
Proof.
  unfold check_and_reopen, periodic_stat_check. intros H.
  apply bind_ret_inv in H as (v & s1 & H & _).
  apply bind_ret_inv in H as (L & s2 & H & _).
  unfold get_log in H. destruct (heap s !! l) as [L0|]; [eauto | discriminate].
Qed.

Lemma check_and_reopen_upd (l : ptr) (s s' : State) (c : bool) :
  check_and_reopen os ivl (logfile_reopen os) l s = Ret c s' ->
  upd l same_counters s s'.
Proof.
  intros H. destruct (check_and_reopen_live _ l s s' c H) as (L & HL).
  destruct (check_and_reopen_inv os ivl _ l s s' L c HL H)
    as (v & s1 & L1 & _ & K & _ & HL1 & _ & Hcase).
  assert (upd l same_counters s s1) as U1.
  { eapply upd_weaken; [apply same_but_stat_counters|].
    eapply keeps_upd; [exact HL | exact K]. }
  destruct Hcase as [(_ & _ & ->)|(_ & r & Hre & _)]; [exact U1|].
  eapply upd_trans; [apply same_counters_trans | exact U1 |].
  apply logfile_reopen_inv in Hre as
    [(_ & s2 & w & Hf & Hcl)|(_ & s2 & Hh & _ & _ & Hch)].
  - destruct (reopen_fails_frame os _ _ s1 s2 Hf) as (Hh & _ & _).
    eapply upd_trans; [apply same_counters_trans | |
                       exact (logfclose_upd l s2 s' w Hcl)].
    apply upd_heap_eq; [apply same_counters_refl | exact Hh].
  - assert (heap s2 !! l = Some L1) as HL2 by (rewrite Hh; exact HL1).
    destruct (changed_logfile_keeps os l s2 L1 HL2) as (s3 & Hch' & K3 & _).
    rewrite Hch in Hch'. injection Hch' as <-.
    eapply upd_trans; [apply same_counters_trans | |].
    + apply upd_heap_eq; [apply same_counters_refl | exact Hh].
    + eapply upd_weaken; [apply same_but_stat_counters|].
      eapply keeps_upd; [exact HL2 | exact K3].
Qed.

Lemma flush_log_buffer_upd (l : ptr) (s s' : State) (r : Z) :
  flush_log_buffer os l s = Ret r s' -> upd l drained_counters s s'.
Proof.
  intros H. destruct (heap s !! l) as [L|] eqn:HL.
  - destruct (buffer L) as [b|] eqn:HB.
    + destruct (Nat.eq_dec (buflen L) 0%nat) as [E|E].
      * rewrite (flush_log_buffer_empty os l s L HL) in H by (right; exact E).
        injection H as _ <-.
        apply upd_heap_eq; [intros; split; [lia | reflexivity] | reflexivity].
      * rewrite (flush_log_buffer_run os l s L HL) in H by congruence.
        injection H as _ <-. eapply upd_set; [exact HL|].
        destruct (_ =? 1); split; simpl; lia.
    + rewrite (flush_log_buffer_empty os l s L HL) in H by (left; exact HB).
      injection H as _ <-.
      apply upd_heap_eq; [intros; split; [lia | reflexivity] | reflexivity].
  - unfold flush_log_buffer in H. msimpl. rewrite HL in H. discriminate.
Qed.

Lemma flush_one_upd (l : ptr) (s s' : State) (o : option Z) :
  flush_one os ivl (logfile_reopen os) l s = Ret o s' ->
  upd l counters_le s s'.
Proof.
  unfold flush_one. intros H.
  apply bind_ret_inv in H as (c & s1 & Hck & H).
  assert (upd l counters_le s s1) as U1.
  { eapply upd_weaken; [apply same_counters_le|].
    exact (check_and_reopen_upd l s s1 c Hck). }
  destruct c; [injection H as _ <-; exact U1|].
  apply bind_ret_inv in H as (r & s2 & Hfl & H).
  assert (upd l counters_le s s2) as U2.
  { eapply upd_trans; [apply counters_le_trans | exact U1 |].
    eapply upd_weaken; [|exact (flush_log_buffer_upd l s1 s2 r Hfl)].
    intros a b [? ?]. split; lia. }
  destruct (r <? 0); [injection H as _ <-; exact U2|].
  apply bind_ret_inv in H as (L2 & s3 & Hg & H).
  unfold get_log in Hg. destruct (heap s2 !! l) as [L2'|] eqn:HL2;
    [|discriminate]. injection Hg as <- <-.
  unfold sys_fflush in H. msimpl. rewrite HL2 in H. injection H as _ <-.
  eapply upd_trans; [apply counters_le_trans | exact U2 |].
  eapply upd_set; [exact HL2|]. split; simpl; lia.
Qed.

Lemma flush_loop_mono (ls : list ptr) :
  forall (r : Z) (s s' : State) (o : option Z),
    flush_loop os ivl (logfile_reopen os) ls r s = Ret o s' ->
    mono counters_le s s'.
Proof.
  induction ls as [|l ls IH]; intros r s s' o H; simpl in H.
  - injection H as _ <-. intros p L' HL'. exists L'.
    split; [exact HL' | apply counters_le_refl].
  - apply bind_ret_inv in H as (o1 & s1 & H1 & H).
    apply flush_one_upd in H1.
    apply (upd_mono l counters_le s s1 counters_le_refl) in H1.
    destruct o1 as [r1|].
    + eapply mono_trans; [apply counters_le_trans | exact H1 |].
      exact (IH _ _ _ _ H).
    + injection H as _ <-. exact H1.
Qed.

Lemma written_counters_after (n : nat) (a b c : Log) :
  counters_le a b -> written_counters cap n b c -> written_counters cap n a c.
Proof.
  unfold counters_le, written_counters. intros [? ?] [? [?|[? ?]]].
  - split; [lia | left; lia].
  - split; [lia | right; split; assumption].
Qed.

Lemma counters_le_written (n : nat) (a b : Log) :
  counters_le a b -> written_counters cap n a b.
Proof. intros [? ?]. split; [assumption | left; assumption]. Qed.

Lemma logfwrite_upd_allocated (l : ptr) (buf : list byte) (s s' : State)
    (L : Log) (b : list byte) (r : Z) :
  heap s !! l = Some L -> buffer L = Some b ->
  logfwrite os cap ivl (logfile_reopen os) l buf s = Ret r s' ->
  upd l (written_counters cap (length buf)) s s'.
Proof.
  intros HL HB H.
  destruct (le_lt_dec (buflen L + length buf) cap) as [Hfit|Hov].
  - rewrite (logfwrite_fits os cap ivl _ l buf s L b HL HB Hfit) in H.
    injection H as _ <-. eapply upd_set; [exact HL|].
    apply counters_le_written. split; simpl; lia.
  - rewrite (logfwrite_overflows os cap ivl _ l buf s L b HL HB Hov) in H.
    destruct (check_and_reopen os ivl (logfile_reopen os) l s)
      as [c s1| | |] eqn:Hck; try discriminate.
    assert (upd l counters_le s s1) as U1.
    { eapply upd_weaken; [apply same_counters_le|].
      exact (check_and_reopen_upd l s s1 c Hck). }
    destruct c.
    { injection H as _ <-.
      eapply upd_weaken; [apply counters_le_written | exact U1]. }
    apply bind_ret_inv in H as (r1 & s2 & Hfl & H).
    assert (upd l counters_le s s2) as U2.
    { eapply upd_trans; [apply counters_le_trans | exact U1 |].
      eapply upd_weaken; [|exact (flush_log_buffer_upd l s1 s2 r1 Hfl)].
      intros x y [? ?]. split; lia. }
    destruct (r1 <? 0).
    { injection H as _ <-.
      eapply upd_weaken; [apply counters_le_written | exact U2]. }
    apply bind_ret_inv in H as (L2 & s3 & Hg & H).
    unfold get_log in Hg. destruct (heap s2 !! l) as [L2'|] eqn:HL2;
      [|discriminate]. injection Hg as <- <-.
    destruct (length buf <=? cap)%nat eqn:Hn.
    + msimpl. injection H as _ <-.
      eapply upd_trans; [apply written_counters_after | exact U2 |].
      eapply upd_set; [exact HL2|].
      apply counters_le_written. split; simpl; lia.
    + apply Nat.leb_gt in Hn. unfold sys_fwrite in H. msimpl.
      destruct (negb (fwrite_result os (trace s2) (fp L2') buf =? 1)).
      * injection H as _ <-.
        eapply upd_trans; [apply written_counters_after | exact U2 |].
        apply upd_heap_eq; [|reflexivity].
        intros x. apply counters_le_written, counters_le_refl.
      * simpl in H. rewrite HL2 in H. injection H as _ <-.
        eapply upd_trans; [apply written_counters_after | exact U2 |].
        eapply upd_set; [exact HL2|].
        split; simpl; [lia | right; split; [exact Hn | reflexivity]].
Qed.

Lemma logfwrite_upd (l : ptr) (buf : list byte) (s s' : State) (r : Z) :
  logfwrite os cap ivl (logfile_reopen os) l buf s = Ret r s' ->
  upd l (written_counters cap (length buf)) s s'.
Proof.
  intros H. destruct (heap s !! l) as [L|] eqn:HL.
  - destruct (buffer L) as [b|] eqn:HB.
    + exact (logfwrite_upd_allocated l buf s s' L b r HL HB H).
    + rewrite (logfwrite_unallocated os cap ivl _ l buf s L HL HB) in H.
      apply bind_ret_inv in H as (a & s1 & Ha & H).
      unfold sys_alloc, mbind, M_bind, get_state, emit, mret, M_ret in Ha.
      simpl in Ha. injection Ha as <- <-.
      destruct (os_alloc os (trace s)).
      * apply bind_ret_inv in H as ([] & s2 & Hs & H).
        unfold set_log in Hs. simpl in Hs. injection Hs as <-.
        pose proof (logfwrite_upd_allocated l buf _ s'
                      (set_buflen 0
                         (set_buffer (Some (replicate cap x00)) L))
                      (replicate cap x00) r
                      (lookup_insert_eq _ _ _) eq_refl H) as U.
        eapply upd_trans; [apply written_counters_after | | exact U].
        eapply upd_set; [exact HL|]. split; simpl; lia.
      * unfold sys_fwrite in H. msimpl. injection H as _ <-.
        apply upd_heap_eq; [|reflexivity].
        intros x. apply counters_le_written, counters_le_refl.
  - unfold logfwrite in H. msimpl. rewrite HL in H. discriminate.
Qed.

Lemma lookup_from_state (nm : string) (ls : list ptr) (s s' : State)
    (r : option ptr) :
  lookup_from nm ls s = Ret r s' -> s' = s.
Proof.
  induction ls as [|p ls IH]; simpl; intros H.
  - injection H as _ <-. reflexivity.
  - msimpl. destruct (heap s !! p) as [Lp|]; [|discriminate].
    destruct (bool_decide (nm = name Lp)); [|exact (IH H)].
    injection H as _ <-. reflexivity.
Qed.

(** Open leaves every Log that was live as it was, but for the openCount
    of the one it returns. *)
Lemma logfopen_counters (nm : string) (f : option FILE) (s s' : State)
    (v : option ptr) (p : ptr) (L L' : Log) :
  logfopen os ivl nm f s = Ret v s' ->
  heap s !! p = Some L -> heap s' !! p = Some L' ->
  same_counters L L'.
Proof.
  intros H HL HL'. destruct f as [f|]; simpl in H.
  - assert (p <> new_address s) as Hp.
    { intros ->. rewrite new_address_fresh in HL. discriminate. }
    assert (heap s' !! p = heap s !! p) as E.
    { unfold sys_alloc, changed_logfile, sys_fstat in H. msimpl.
      destruct (os_alloc os (trace s)); simpl in H;
        [|injection H as _ <-; reflexivity].
      destruct (os_alloc os _); simpl in H;
        [|injection H as _ <-; reflexivity].
      destruct (os_alloc os _); simpl in H;
        [|injection H as _ <-; reflexivity].
      unfold new_address in H. simpl in H. fold (new_address s) in H.
      rewrite lookup_insert_eq in H. simpl in H.
      destruct (os_fstat os _ _) as [o|]; simpl in H.
      - destruct (0 <? st_size o); simpl in H; injection H as _ <-; simpl;
          rewrite ?lookup_insert_ne by congruence; reflexivity.
      - injection H as _ <-. simpl.
        rewrite lookup_insert_ne by congruence. reflexivity. }
    rewrite E, HL in HL'. injection HL' as <-. apply same_counters_refl.
  - unfold lookup_logfile in H.
    apply bind_ret_inv in H as (r & s1 & Hlk & H).
    apply bind_ret_inv in Hlk as (s0 & s0' & Hg & Hlk).
    unfold get_state in Hg. injection Hg as <- <-.
    apply lookup_from_state in Hlk as ->.
    destruct r as [l|]; msimpl.
    + destruct (heap s !! l) as [Ll|] eqn:HLl; [|discriminate].
      injection H as _ <-. simpl in HL'.
      destruct (decide (p = l)) as [->|Hp].
      * rewrite lookup_insert_eq in HL'. injection HL' as <-.
        rewrite HL in HLl. injection HLl as <-. split; reflexivity.
      * rewrite lookup_insert_ne in HL' by congruence.
        rewrite HL in HL'. injection HL' as <-. apply same_counters_refl.
    + injection H as _ <-. rewrite HL in HL'. injection HL' as <-.
      apply same_counters_refl.
Qed.

Lemma upd_pres (l p : ptr) (R : Log -> Log -> Prop) (s s' : State) (L L' : Log) :
  (forall x, R x x) -> upd l R s s' ->
  heap s !! p = Some L -> heap s' !! p = Some L' -> R L L'.
Proof.
  intros HR (Ho & Hl) HL HL'. destruct (decide (p = l)) as [->|Hp].
  - destruct (Hl L' HL') as (L0 & HL0 & H). congruence.
  - rewrite Ho, HL in HL' by exact Hp. injection HL' as <-. apply HR.
Qed.

(** One operation. *)
Lemma run_op_counters (o : op) (s s' : State) (v : value) (p : ptr)
    (L L' : Log) :
  run_op os cap ivl o s = Ret v s' ->
  heap s !! p = Some L -> heap s' !! p = Some L' ->
  writecount L <= writecount L'
  /\ (flushcount L <= flushcount L'
      \/ (oversize_write cap p o /\ flushcount L' = 0)).
Proof.
  intros H HL HL'. destruct o as [nm f|l|l buf|l]; simpl in H;
    apply bind_ret_inv in H as (r & s1 & H & Hret);
    injection Hret as _ <-.
  - destruct (logfopen_counters nm f s s1 r p L L' H HL HL') as [Hw Hf].
    split; [lia | left; lia].
  - apply logfclose_upd in H.
    destruct (upd_pres l p same_counters s s1 L L' same_counters_refl H HL HL')
      as [Hw Hf].
    split; [lia | left; lia].
  - apply logfwrite_upd in H. destruct H as (Ho & Hl).
    destruct (decide (p = l)) as [->|Hp].
    + destruct (Hl L' HL') as (L0 & HL0 & Hw & Hf).
      rewrite HL in HL0. injection HL0 as <-.
      split; [exact Hw|]. destruct Hf as [Hf|[Hn Hf]]; [left; exact Hf|].
      right. split; [|exact Hf]. exists buf. split; [reflexivity | exact Hn].
    + rewrite Ho, HL in HL' by exact Hp. injection HL' as <-.
      split; [lia | left; lia].
  - unfold logfflush in H. apply bind_ret_inv in H as (o1 & s2 & H & Hret).
    assert (s1 = s2) as -> by (destruct o1; injection Hret as _ <-; reflexivity).
    assert (mono counters_le s s2) as Hm.
    { destruct l as [l|].
      - apply (upd_mono l); [apply counters_le_refl|].
        exact (flush_one_upd l s s2 o1 H).
      - apply bind_ret_inv in H as (s0 & s0' & Hg & H).
        unfold get_state in Hg. injection Hg as <- <-.
        exact (flush_loop_mono _ _ _ _ _ H). }
    destruct (Hm p L' HL') as (L0 & HL0 & Hw & Hf).
    rewrite HL in HL0. injection HL0 as <-. split; [exact Hw | left; exact Hf].
Qed.

(** C9, as amended: through any run of Open, Close, Write and Flush
    operations during which a handle stays live, its writeCount never
    decreases; its flushCount never decreases either as long as the run
    has no Write to this handle of a chunk larger than the buffer
    capacity (such a Write, when it writes the chunk directly, sets
    flushCount to 0). *)
Theorem counters_monotone (p : ptr) (ops : list op) (s s' : State)
    (L L' : Log) :
  stays_live os cap ivl p ops s s' ->
  heap s !! p = Some L -> heap s' !! p = Some L' ->
  writecount L <= writecount L'
  /\ ((forall o, o ∈ ops -> ~ oversize_write cap p o) ->
      flushcount L <= flushcount L').
Proof.
  intros Hrun. revert L. induction Hrun as [s _|o ops s s1 s2 v _ Hop Hrun IH];
    intros L HL HL'.
  - rewrite HL in HL'. injection HL' as <-. split; [lia | intros _; lia].
  - assert (is_Some (heap s1 !! p)) as [L1 HL1]
      by (inversion Hrun; assumption).
    destruct (run_op_counters o s s1 v p L L1 Hop HL HL1) as [Hw Hf].
    destruct (IH L1 HL1 HL') as [Hw' Hf'].
    split; [lia|]. intros Hno.
    assert (flushcount L1 <= flushcount L').
    { apply Hf'. intros o' Ho'. apply Hno. apply list_elem_of_further. exact Ho'. }
    destruct Hf as [Hf|[Hov _]]; [lia|].
    exfalso. apply (Hno o); [apply list_elem_of_here | exact Hov].
Qed.

End Counters.

Lemma counters_monotone_witness :
  let s' := mkState [1%nat]
              {[ 1%nat := mkLog 3 "screenlog.0" 1 1 2 (mkstat 1 1 1 0 0 0)
                                (Some [x64; x00; x00; x00]) 0 4 ]}
              [EvFwrite 3 [x64] 1; EvFflush 3 0] in
  stays_live os_fine 4 2 1%nat [OpWrite 1%nat [x64]; OpFlush None]
    (one_log 1%nat flushed_log) s'
  /\ writecount flushed_log <= 1
  /\ flushcount flushed_log <= 2.
Proof.
  intros s'.
  assert (stays_live os_fine 4 2 1%nat [OpWrite 1%nat [x64]; OpFlush None]
            (one_log 1%nat flushed_log) s') as Hrun.
  { eapply stays_live_cons; [eexists; reflexivity | vm_compute; reflexivity |].
    eapply stays_live_cons; [eexists; vm_compute; reflexivity
                            | vm_compute; reflexivity |].
    apply stays_live_nil. eexists. vm_compute. reflexivity. }
  split; [exact Hrun|].
  destruct (counters_monotone os_fine 4 2 1%nat _ _ _ flushed_log
              (mkLog 3 "screenlog.0" 1 1 2 (mkstat 1 1 1 0 0 0)
                     (Some [x64; x00; x00; x00]) 0 4)
              Hrun eq_refl eq_refl) as [Hw Hf].
  split; [exact Hw|]. apply Hf.
  intros o Ho (buf & -> & Hlen).
  apply elem_of_cons in Ho as [Ho|Ho].
  - injection Ho as ->. simpl in Hlen. lia.
  - apply list_elem_of_singleton in Ho. discriminate.
Defined.

(** C9 as stated fails for flushCount: a successful Write of a chunk
    larger than the 4-byte buffer leaves the handle registered and sets
    its flushCount, which was 1, to 0. *)
Lemma oversize_write_resets_flushcount :
  flushcount flushed_log = 1
  /\ logfwrite os_fine 4 2 (logfile_reopen os_fine) 1%nat
       [x61; x62; x63; x64; x65] (one_log 1%nat flushed_log)
     = Ret 1
         (mkState [1%nat]
            {[ 1%nat := mkLog 3 "screenlog.0" 1 1 0 (mkstat 1 1 1 0 0 0)
                              (Some [x00; x00; x00; x00]) 0 4 ]}
            [EvFwrite 3 [x61; x62; x63; x64; x65] 1]).
Proof. split; [reflexivity | vm_compute; reflexivity]. Qed.

(** ** Flushing every log *)

Section FlushAll.

Variable os : OS.
Variable ivl : Z.   (* LOG_STAT_CHECK_INTERVAL *)

Lemma check_and_reopen_theft (fn : reopen_fn) (l : ptr) (s s1 s2 : State)
    (L : Log) (r : Z) :
  heap s !! l = Some L ->
  periodic_stat_check os ivl l s = Ret 1 s1 ->
  fn (name L) (fileno (fp L)) l s1 = Ret r s2 -> r <> 0 ->
  check_and_reopen os ivl fn l s = Ret true s2.
Proof.
  intros HL Hper Hfn Hr.
  destruct (periodic_stat_check_keeps os ivl l s L HL)
    as (v & s1' & Hrun & _ & (_ & _ & Hl) & _).
  rewrite Hper in Hrun. injection Hrun as <- <-.
  destruct (Hl L HL) as (L1 & HL1 & (Hfp & Hnm & _)).
  unfold check_and_reopen. unfold mbind at 1, M_bind at 1. rewrite Hper.
  simpl. unfold mbind, M_bind, get_log. rewrite HL1, Hfp, Hnm, Hfn.
  unfold mret, M_ret. apply Z.eqb_neq in Hr. rewrite Hr. reflexivity.
Qed.

(** A turn of the loop that completes has emptied the buffer of its Log
    and counted the flush. *)
Lemma flush_one_some (l : ptr) (s s' : State) (r : Z) (L : Log) :
  flush_one os ivl (logfile_reopen os) l s = Ret (Some r) s' ->
  heap s !! l = Some L ->
  exists L', heap s' !! l = Some L' /\ buffered L' = []
             /\ flushcount L' = flushcount L + 1.
Proof.
  unfold flush_one. intros H HL.
  apply bind_ret_inv in H as (c & s1 & Hck & H).
  destruct c; [discriminate|].
  destruct (check_and_reopen_ok os ivl l s s1 L HL Hck) as ((_ & _ & Hl) & _).
  destruct (Hl L HL) as (L1 & HL1 & (_ & _ & _ & _ & Hfc1 & _)).
  apply bind_ret_inv in H as (r1 & s2 & Hfl & H).
  destruct (r1 <? 0); [discriminate|].
  assert (exists L2, heap s2 !! l = Some L2 /\ buffered L2 = []
                     /\ flushcount L2 = flushcount L1) as (L2 & HL2 & HB2 & Hfc2).
  { destruct (buffer L1) as [b|] eqn:HB1.
    - destruct (Nat.eq_dec (buflen L1) 0%nat) as [E|E].
      + rewrite (flush_log_buffer_empty os l s1 L1 HL1) in Hfl
          by (right; exact E).
        injection Hfl as _ <-. exists L1. split; [exact HL1|].
        unfold buffered. rewrite HB1, E. split; reflexivity.
      + rewrite (flush_log_buffer_run os l s1 L1 HL1) in Hfl by congruence.
        injection Hfl as _ <-. simpl. eexists. rewrite lookup_insert_eq.
        split; [reflexivity|]. unfold buffered.
        destruct (_ =? 1); simpl; rewrite HB1; split; reflexivity.
    - rewrite (flush_log_buffer_empty os l s1 L1 HL1) in Hfl
        by (left; exact HB1).
      injection Hfl as _ <-. exists L1. split; [exact HL1|].
      unfold buffered. rewrite HB1. split; reflexivity. }
  unfold sys_fflush in H. msimpl. rewrite HL2 in H. simpl in H.
  rewrite HL2 in H. injection H as _ <-. simpl.
  eexists. rewrite lookup_insert_eq. split; [reflexivity|].
  split; [exact HB2 | simpl; lia].
Qed.

Lemma flush_loop_some (ls : list ptr) :
  forall (r r' : Z) (s s' : State),
    NoDup ls ->
    flush_loop os ivl (logfile_reopen os) ls r s = Ret (Some r') s' ->
    (forall p, p ∉ ls -> heap s' !! p = heap s !! p)
    /\ (forall p L, p ∈ ls -> heap s !! p = Some L ->
          exists L', heap s' !! p = Some L' /\ buffered L' = []
                     /\ flushcount L' = flushcount L + 1).
Proof.
  induction ls as [|l ls IH]; intros r r' s s' Hnd H; simpl in H.
  - injection H as _ <-. split; [reflexivity|].
    intros p L Hp. apply elem_of_nil in Hp. contradiction.
  - apply NoDup_cons in Hnd as [Hl Hnd].
    apply bind_ret_inv in H as (o & s1 & H1 & H).
    destruct o as [r1|]; [|discriminate].
    pose proof (flush_one_upd os ivl l s s1 _ H1) as (Ho1 & _).
    destruct (IH _ _ _ _ Hnd H) as (Ho & Hin).
    split.
    + intros p Hp. apply not_elem_of_cons in Hp as [Hpl Hp].
      rewrite (Ho p Hp). apply Ho1. exact Hpl.
    + intros p L Hp HL. apply elem_of_cons in Hp as [->|Hp].
      * destruct (flush_one_some l s s1 r1 L H1 HL) as (L1 & HL1 & HB & Hf).
        exists L1. rewrite (Ho l Hl). auto.
      * assert (p <> l) as Hpl by (intros ->; contradiction).
        apply (Hin p L Hp). rewrite (Ho1 p Hpl). exact HL.
Qed.

Lemma flush_loop_app (fn : reopen_fn) (pre post : list ptr) :
  forall (r : Z) (s : State),
    flush_loop os ivl fn (pre ++ post) r s =
      match flush_loop os ivl fn pre r s with
      | Ret (Some r1) s1 => flush_loop os ivl fn post r1 s1
      | Ret None s1 => Ret None s1
      | Abort s1 => Abort s1
      | Fault => Fault
      | Timeout => Timeout
      end.
Proof.
  induction pre as [|l pre IH]; intros r s; simpl; [reflexivity|].
  unfold mbind, M_bind.
  destruct (flush_one os ivl fn l s) as [[r1|] s1| | |]; try reflexivity.
  apply IH.
Qed.

(** The calls of a turn of the loop that completes: what was buffered
    went to fwrite, which took it, and fflush was called on the stream. *)
Lemma flush_one_events (l : ptr) (s s' : State) (r : Z) (L : Log) :
  heap s !! l = Some L ->
  flush_one os ivl (logfile_reopen os) l s = Ret (Some r) s' ->
  exists ext,
    trace s' = trace s ++ ext
    /\ (EvFflush (fp L) r ∈ ext)
    /\ (buffered L <> [] -> EvFwrite (fp L) (buffered L) 1 ∈ ext).
Proof.
  unfold flush_one. intros HL H.
  apply bind_ret_inv in H as (c & s1 & Hc & H).
  destruct c; [discriminate|].
  destruct (check_and_reopen_ok os ivl l s s1 L HL Hc)
    as [(_ & _ & Kl) (ext1 & Ht1 & _)].
  destruct (Kl L HL) as (L1 & HL1 & (Sfp & _ & _ & _ & _ & Sb & Sl)).
  assert (buffered L1 = buffered L) as HbL
    by (unfold buffered; rewrite Sb, Sl; reflexivity).
  apply bind_ret_inv in H as (r1 & s2 & Hrun & H).
  destruct (r1 <? 0) eqn:Er; [discriminate|].
  assert (exists L2 ext2,
            heap s2 !! l = Some L2 /\ fp L2 = fp L1
            /\ trace s2 = trace s1 ++ ext2
            /\ (buffered L1 <> [] ->
                EvFwrite (fp L1) (buffered L1) 1 ∈ ext2))
    as (L2 & ext2 & HL2 & Hfp2 & Ht2 & Hw).
  { destruct (buffer L1) as [b|] eqn:Hb.
    - destruct (Nat.eq_dec (buflen L1) 0%nat) as [E|E].
      + rewrite (flush_log_buffer_empty os l s1 L1 HL1) in Hrun
          by (right; exact E).
        injection Hrun as _ <-. exists L1, []. rewrite app_nil_r.
        split; [exact HL1|]. split; [reflexivity|]. split; [reflexivity|].
        intros Hne. exfalso. apply Hne. unfold buffered.
        rewrite Hb, E. reflexivity.
      + rewrite (flush_log_buffer_run os l s1 L1 HL1) in Hrun by congruence.
        simpl in Hrun.
        destruct (fwrite_result os (trace s1) (fp L1) (buffered L1) =? 1)
          eqn:Ew; injection Hrun as <- <-; [|discriminate Er].
        apply Z.eqb_eq in Ew. simpl. eexists _, _.
        rewrite lookup_insert_eq. split; [reflexivity|].
        split; [reflexivity|]. split; [reflexivity|].
        intros _. rewrite Ew. apply list_elem_of_here.
    - rewrite (flush_log_buffer_empty os l s1 L1 HL1) in Hrun
        by (left; exact Hb).
      injection Hrun as _ <-. exists L1, []. rewrite app_nil_r.
      split; [exact HL1|]. split; [reflexivity|]. split; [reflexivity|].
      intros Hne. exfalso. apply Hne. unfold buffered.
      rewrite Hb. reflexivity. }
  unfold sys_fflush, mbind, M_bind, get_state, emit, mret, M_ret,
    get_log, set_log in H. simpl in H. rewrite HL2 in H. simpl in H.
  rewrite HL2 in H. injection H as Hres <-. simpl.
  exists (ext1 ++ ext2 ++ [EvFflush (fp L) r]).
  split.
  { rewrite <- Hres, Hfp2, Sfp, Ht2, Ht1, <- !app_assoc. reflexivity. }
  split.
  { apply elem_of_app. right. apply elem_of_app. right.
    apply list_elem_of_here. }
  intros Hne. apply elem_of_app. right. apply elem_of_app. left.
  rewrite <- Sfp, <- HbL. apply Hw. rewrite HbL. exact Hne.
Qed.

Lemma flush_loop_events (ls : list ptr) :
  forall (r r' : Z) (s s' : State),
    NoDup ls ->
    flush_loop os ivl (logfile_reopen os) ls r s = Ret (Some r') s' ->
    exists ext,
      trace s' = trace s ++ ext
      /\ forall p L, p ∈ ls -> heap s !! p = Some L ->
           (exists x, EvFflush (fp L) x ∈ ext)
           /\ (buffered L <> [] -> EvFwrite (fp L) (buffered L) 1 ∈ ext).
Proof.
  induction ls as [|l ls IH]; intros r r' s s' Hnd H; simpl in H.
  - injection H as _ <-. exists []. rewrite app_nil_r.
    split; [reflexivity|]. intros p L Hp. apply elem_of_nil in Hp.
    contradiction.
  - apply NoDup_cons in Hnd as [Hl Hnd].
    apply bind_ret_inv in H as (o & s1 & H1 & H).
    destruct o as [r1|]; [|discriminate].
    pose proof (flush_one_upd os ivl l s s1 _ H1) as (Ho1 & _).
    destruct (IH _ _ _ _ Hnd H) as (ext' & Ht' & Hin).
    assert (exists e, trace s1 = trace s ++ e
                      /\ forall L, heap s !! l = Some L ->
                           (EvFflush (fp L) r1 ∈ e)
                           /\ (buffered L <> [] ->
                               EvFwrite (fp L) (buffered L) 1 ∈ e))
      as (e & Ht & He).
    { pose proof H1 as H1'. unfold flush_one in H1'.
      apply bind_ret_inv in H1' as (c & s0 & Hc & _).
      destruct (check_and_reopen_live os ivl _ l s s0 c Hc) as [L0 HL0].
      destruct (flush_one_events l s s1 r1 L0 HL0 H1) as (e & Ht & Hf & Hw).
      exists e. split; [exact Ht|]. intros L HL. rewrite HL0 in HL.
      injection HL as <-. split; assumption. }
    exists (e ++ ext'). split; [rewrite Ht', Ht, app_assoc; reflexivity|].
    intros p L Hp HL. apply elem_of_cons in Hp as [->|Hp].
    + destruct (He L HL) as [Hf Hw]. split.
      * exists r1. apply elem_of_app. left. exact Hf.
      * intros Hne. apply elem_of_app. left. exact (Hw Hne).
    + assert (p <> l) as Hpl by (intros ->; contradiction).
      destruct (Hin p L Hp) as [(x & Hx) Hw];
        [rewrite (Ho1 p Hpl); exact HL|].
      split.
      * exists x. apply elem_of_app. right. exact Hx.
      * intros Hne. apply elem_of_app. right. exact (Hw Hne).
Qed.

Lemma logfclose_ext (l : ptr) (s s' : State) (v : Z) (L : Log) :
  heap s !! l = Some L -> logfclose os l s = Ret v s' ->
  exists ext, trace s' = trace s ++ ext.
Proof.
  intros HL H. destruct (decide (l ∈ logroot s)) as [Hin|Hnin].
  - destruct (Z.lt_trichotomy (opencount L) 1) as [Hlt|[E|Hgt]].
    + rewrite (logfclose_abort os l s L Hin HL Hlt) in H. discriminate.
    + rewrite (logfclose_last os l s L Hin HL E) in H. injection H as _ <-.
      eexists. reflexivity.
    + rewrite (logfclose_shared os l s L Hin HL Hgt) in H.
      injection H as _ <-. exists []. simpl. rewrite app_nil_r. reflexivity.
  - rewrite (logfclose_unregistered os l s Hnin) in H. injection H as _ <-.
    exists []. rewrite app_nil_r. reflexivity.
Qed.

(** C8, as amended: when, in the flush of all logs, the rotation check on
    a handle signals theft and the default reopen fails, logfflush
    returns -1 there and then.  The handles before it in the registry
    have been flushed: for each, what was buffered has gone to fwrite,
    which took it, fflush has been called on its stream, its buffer is
    empty and its flush is counted; these calls are part of the calls
    made when logfflush returns.  The handles after it are not touched:
    they are not drained and not flushed. *)
Theorem logfflush_all_stops (pre post : list ptr) (l : ptr)
    (s s1 s1' s2 : State) (r1 r : Z) (L1 : Log) :
  logroot s = pre ++ l :: post -> NoDup (logroot s) ->
  flush_loop os ivl (logfile_reopen os) pre 0 s = Ret (Some r1) s1 ->
  heap s1 !! l = Some L1 ->
  periodic_stat_check os ivl l s1 = Ret 1 s1' ->
  logfile_reopen os (name L1) (fileno (fp L1)) l s1' = Ret r s2 -> r <> 0 ->
  logfflush os ivl (logfile_reopen os) None s = Ret (-1) s2
  /\ (forall p, p ∈ post -> heap s2 !! p = heap s !! p)
  /\ (forall p L, p ∈ pre -> heap s !! p = Some L ->
        exists L', heap s2 !! p = Some L' /\ buffered L' = []
                   /\ flushcount L' = flushcount L + 1)
  /\ exists ext ext2,
       trace s1 = trace s ++ ext /\ trace s2 = trace s ++ ext ++ ext2
       /\ forall p L, p ∈ pre -> heap s !! p = Some L ->
            (exists x, EvFflush (fp L) x ∈ ext)
            /\ (buffered L <> [] -> EvFwrite (fp L) (buffered L) 1 ∈ ext).
Proof.
  intros Hroot Hnd Hpre HL1 Hper Hre Hr.
  rewrite Hroot in Hnd. apply NoDup_app in Hnd as (Hnd1 & Hdis & Hnd2).
  apply NoDup_cons in Hnd2 as [Hl _].
  pose proof (check_and_reopen_theft _ l s1 s1' s2 L1 r HL1 Hper Hre Hr) as Hck.
  pose proof (check_and_reopen_upd os ivl l s1 s2 true Hck) as (Ho2 & _).
  destruct (flush_loop_some pre 0 r1 s s1 Hnd1 Hpre) as (Ho1 & Hin1).
  split; [|split; [|split]]; cycle 3.
  { destruct (flush_loop_events pre 0 r1 s s1 Hnd1 Hpre) as (ext & Ht & Hev).
    assert (exists ext2, trace s2 = trace s1 ++ ext2) as (ext2 & Ht2).
    { destruct (periodic_stat_check_keeps os ivl l s1 L1 HL1)
        as (v & sx & Hrun & _ & (_ & _ & Kl) & (e1 & He1 & _)).
      rewrite Hper in Hrun. injection Hrun as <- <-.
      destruct (Kl L1 HL1) as (L1' & HL1' & _).
      destruct (logfile_reopen_inv os _ _ l s1' s2 r Hre)
        as [(_ & sy & w & Hf & Hcl)|(E & _)]; [|contradiction].
      destruct (reopen_fails_frame os _ _ s1' sy Hf) as (Hh & _ & (e2 & He2 & _)).
      destruct (logfclose_ext l sy s2 w L1') as (e3 & He3);
        [rewrite Hh; exact HL1' | exact Hcl|].
      exists (e1 ++ e2 ++ e3).
      rewrite He3, He2, He1, <- !app_assoc. reflexivity. }
    exists ext, ext2. split; [exact Ht|].
    split; [rewrite Ht2, Ht, <- app_assoc; reflexivity | exact Hev]. }
  - unfold logfflush. msimpl. rewrite Hroot, flush_loop_app, Hpre. simpl.
    unfold flush_one, mbind, M_bind. rewrite Hck. reflexivity.
  - intros p Hp.
    assert (p <> l) as Hpl by (intros ->; contradiction).
    assert (p ∉ pre) as Hpp.
    { intros Hin. apply (Hdis p Hin). apply list_elem_of_further. exact Hp. }
    rewrite (Ho2 p Hpl). apply Ho1. exact Hpp.
  - intros p L Hp HL.
    assert (p <> l) as Hpl.
    { intros ->. apply (Hdis l Hp). apply list_elem_of_here. }
    destruct (Hin1 p L Hp HL) as (L' & HL' & H).
    exists L'. rewrite (Ho2 p Hpl). auto.
Qed.

End FlushAll.

Lemma logfflush_all_stops_witness :
  exists s2 ext ext2,
    logfflush os_rotated 2 (logfile_reopen os_rotated) None three_logs
    = Ret (-1) s2
    /\ heap s2 !! 3%nat = Some third_log
    /\ (exists L', heap s2 !! 2%nat = Some L' /\ buffered L' = []
                   /\ flushcount L' = flushcount other_log + 1)
    /\ trace s2 = trace three_logs ++ ext ++ ext2
    /\ (EvFwrite 4 [x78; x79] 1 ∈ ext)
    /\ exists x, EvFflush 4 x ∈ ext.
Proof.
  edestruct (logfflush_all_stops os_rotated 2 [2%nat] [3%nat] 1%nat three_logs)
    as (Hrun & Hpost & Hpre & ext & ext2 & _ & Ht & Hev).
  - reflexivity.
  - apply NoDup_cons. split.
    { intros H. apply elem_of_cons in H as [H|H]; [discriminate|].
      apply list_elem_of_singleton in H. discriminate. }
    apply NoDup_cons. split; [|apply NoDup_singleton].
    intros H. apply list_elem_of_singleton in H. discriminate.
  - vm_compute. reflexivity.
  - vm_compute. reflexivity.
  - vm_compute. reflexivity.
  - vm_compute. reflexivity.
  - lia.
  - destruct (Hev 2%nat other_log) as [Hf Hw];
      [apply list_elem_of_singleton; reflexivity | reflexivity|].
    eexists _, ext, ext2. split; [exact Hrun|].
    split.
    { rewrite Hpost by (apply list_elem_of_singleton; reflexivity).
      vm_compute. reflexivity. }
    split.
    { apply (Hpre 2%nat other_log);
        [apply list_elem_of_singleton; reflexivity | reflexivity]. }
    split; [exact Ht|]. split; [|exact Hf].
    apply Hw. discriminate.
Defined.

(** C8 as stated fails: the flush of all logs stops at the first log,
    whose reopen fails, and the second log is not flushed: its two
    buffered bytes and its flushCount are as before and no call was made
    on its stream. *)
Lemma logfflush_all_leaves_later_logs_unflushed :
  buffered other_log = [x78; x79]
  /\ exists s2,
       logfflush os_rotated 2 (logfile_reopen os_rotated) None two_logs
       = Ret (-1) s2
       /\ heap s2 !! 2%nat = Some other_log
       /\ trace s2 = [EvFstat 3 None; EvClose 3; EvOpen "screenlog.0" (-1)].
Proof.
  split; [reflexivity|]. eexists.
  split; [vm_compute; reflexivity|].
  split; vm_compute; reflexivity.
Qed.

(** ** Reference counting *)

Section Refcount.

Variable os : OS.
Variable cap : nat.   (* LOG_BUFFER_SIZE *)
Variable ivl : Z.     (* LOG_STAT_CHECK_INTERVAL *)

Lemma none_named_frame (nm : string) (s s' : State) (h : ptr) (rest : list ptr) :
  h ∉ rest -> (forall p, p <> h -> heap s' !! p = heap s !! p) ->
  none_named nm s rest -> none_named nm s' rest.
Proof.
  intros Hh Ho Hn p Hp. rewrite Ho; [exact (Hn p Hp)|].
  intros ->. contradiction.
Qed.

Lemma close_calls_fclose (tr : list event) (L : Log) :
  EvFclose (fp L) ∈ close_calls os tr L.
Proof.
  unfold close_calls. destruct (buffer L); [|apply list_elem_of_here].
  destruct (0 <? buflen L)%nat;
    [apply list_elem_of_further|]; apply list_elem_of_here.
Qed.

(** One Open without a stream, or one Close, on a tracked handle. *)
Lemma run_op_tracked (nm : string) (f : FILE) (h : ptr) (rest : list ptr)
    (k : Z) (s : State) (o : op) :
  tracked nm f h rest k s ->
  o = OpOpen nm None \/ o = OpClose h ->
  exists v s',
    run_op os cap ivl o s = Ret v s'
    /\ tracked nm f h rest
         (k + (if open_ok v then 1 else 0) - (if close_ok v then 1 else 0)) s'
    /\ (o = OpClose h -> k = 0 -> v = VInt (-1) /\ s' = s).
Proof.
  intros (Hh & Hn & Hk) Ho.
  destruct Hk as [(Hk & Hroot & L & HL & Hnm & Hfp & Hoc)
                 |(-> & Hroot & HL & Hcl)];
    destruct Ho as [-> | ->]; unfold run_op, mbind, M_bind.
  - (* join a registered handle *)
    rewrite (logfopen_join os ivl nm s [] rest h L Hroot) by
      (try assumption; intros p Hp; apply elem_of_nil in Hp; contradiction).
    unfold mbind, M_bind, mret, M_ret. eexists _, _.
    split; [reflexivity|]. simpl. split; [|discriminate].
    split; [exact Hh|]. split.
    + eapply none_named_frame; [exact Hh | | exact Hn].
      intros p Hp. simpl. apply lookup_insert_ne. congruence.
    + left. split; [lia|]. split; [exact Hroot|]. simpl.
      eexists. rewrite lookup_insert_eq. split; [reflexivity|].
      simpl. repeat split; try assumption. lia.
  - (* close a registered handle *)
    assert (h ∈ logroot s) as Hin by (rewrite Hroot; apply list_elem_of_here).
    destruct (Z.eq_dec k 1) as [->|Hk1].
    + rewrite (logfclose_last os h s L Hin HL Hoc).
      unfold mbind, M_bind, mret, M_ret. eexists _, _.
      split; [reflexivity|]. simpl. split; [|intros _ Hc; discriminate].
      split; [exact Hh|]. split.
      * eapply none_named_frame; [exact Hh | | exact Hn].
        intros p Hp. simpl. apply lookup_delete_ne. congruence.
      * right. simpl. split; [reflexivity|]. rewrite Hroot. simpl.
        rewrite bool_decide_eq_true_2 by reflexivity.
        split; [reflexivity|]. split; [apply lookup_delete_eq|].
        apply elem_of_app. right. rewrite <- Hfp. apply close_calls_fclose.
    + rewrite (logfclose_shared os h s L Hin HL) by lia.
      unfold mbind, M_bind, mret, M_ret. eexists _, _.
      split; [reflexivity|]. simpl. split; [|intros _ Hc; lia].
      split; [exact Hh|]. split.
      * eapply none_named_frame; [exact Hh | | exact Hn].
        intros p Hp. simpl. apply lookup_insert_ne. congruence.
      * left. split; [lia|]. split; [exact Hroot|]. simpl.
        eexists. rewrite lookup_insert_eq. split; [reflexivity|].
        simpl. repeat split; try assumption. lia.
  - (* join a name that is no longer registered *)
    rewrite (logfopen_not_found os ivl nm s) by (rewrite Hroot; exact Hn).
    unfold mbind, M_bind, mret, M_ret. eexists _, _.
    split; [reflexivity|]. simpl. split; [|discriminate].
    split; [exact Hh|]. split; [exact Hn|]. right. auto.
  - (* close a handle that is no longer registered *)
    rewrite (logfclose_unregistered os h s) by (rewrite Hroot; exact Hh).
    unfold mbind, M_bind, mret, M_ret. eexists _, _.
    split; [reflexivity|]. simpl. split; [|auto].
    split; [exact Hh|]. split; [exact Hn|]. right. auto.
Qed.

Lemma run_ops_tracked (nm : string) (f : FILE) (h : ptr) (rest : list ptr)
    (ops : list op) :
  forall (k : Z) (s : State),
    tracked nm f h rest k s ->
    Forall (fun o => o = OpOpen nm None \/ o = OpClose h) ops ->
    exists vs s',
      run_ops os cap ivl ops s = Ret vs s'
      /\ tracked nm f h rest
           (k + count_ok open_ok vs - count_ok close_ok vs) s'.
Proof.
  induction ops as [|o ops IH]; intros k s Ht Hops; simpl.
  - exists [], s. split; [reflexivity|]. simpl.
    replace (k + 0 - 0) with k by lia. exact Ht.
  - apply Forall_cons in Hops as [Ho Hops].
    destruct (run_op_tracked nm f h rest k s o Ht Ho) as (v & s1 & Hrun & Ht1 & _).
    destruct (IH _ s1 Ht1 Hops) as (vs & s2 & Hruns & Ht2).
    exists (v :: vs), s2. unfold mbind, M_bind, mret, M_ret.
    rewrite Hrun, Hruns. split; [reflexivity|]. simpl.
    replace (k + ((if open_ok v then 1 else 0) + count_ok open_ok vs)
               - ((if close_ok v then 1 else 0) + count_ok close_ok vs))
      with (k + (if open_ok v then 1 else 0) - (if close_ok v then 1 else 0)
              + count_ok open_ok vs - count_ok close_ok vs) by lia.
    exact Ht2.
Qed.

(** C5, as amended.  After the Open with a stream that created the
    handle for a name no other registered log bears, every run of Opens
    of that name without a stream and of Closes of the handle returns
    normally, and at its end the handle is registered if and only if the
    Opens that succeeded, the creating one included, outnumber the Closes
    that succeeded; while registered its openCount is their difference.
    The handle is unlinked by the Close that takes openCount to 0, which
    also closes the stream and frees the Log with its buffer.  A Close
    after that is not an abort: logfclose does not find the handle in the
    registry and returns -1, changing nothing. *)
Theorem refcount_registered (nm : string) (f : FILE) (s0 s1 : State)
    (h : ptr) (ops : list op) :
  none_named nm s0 (logroot s0) ->
  logfopen os ivl nm (Some f) s0 = Ret (Some h) s1 ->
  Forall (fun o => o = OpOpen nm None \/ o = OpClose h) ops ->
  exists vs s2,
    run_ops os cap ivl ops s1 = Ret vs s2
    /\ (h ∈ logroot s2 <-> count_ok close_ok vs < 1 + count_ok open_ok vs)
    /\ (h ∈ logroot s2 ->
        exists L, heap s2 !! h = Some L
                  /\ opencount L
                     = 1 + count_ok open_ok vs - count_ok close_ok vs)
    /\ (h ∉ logroot s2 ->
        heap s2 !! h = None
        /\ EvFclose f ∈ trace s2
        /\ logfclose os h s2 = Ret (-1) s2).
Proof.
  intros Hn Hopen Hops.
  assert (tracked nm f h (logroot s0) 1 s1) as Ht.
  { destruct (alloc3 os (trace s0)) eqn:Ha.
    - rewrite (logfopen_new os ivl nm f s0 Ha) in Hopen.
      injection Hopen as <- <-.
      assert (new_address s0 ∉ logroot s0) as Hh.
      { intros Hin. destruct (Hn _ Hin) as (Lp & HLp & _).
        rewrite new_address_fresh in HLp. discriminate. }
      split; [exact Hh|]. split.
      + eapply none_named_frame; [exact Hh | | exact Hn].
        intros p Hp. simpl. apply lookup_insert_ne. congruence.
      + left. split; [lia|]. split; [reflexivity|]. simpl.
        eexists. rewrite lookup_insert_eq. split; [reflexivity|].
        repeat split.
    - destruct (logfopen_no_memory os ivl nm f s0 Ha) as (s' & Hrun & _).
      rewrite Hrun in Hopen. discriminate. }
  destruct (run_ops_tracked nm f h (logroot s0) ops 1 s1 Ht Hops)
    as (vs & s2 & Hrun & (Hh & _ & Hk)).
  exists vs, s2. split; [exact Hrun|].
  destruct Hk as [(Hk & Hroot & L & HL & _ & _ & Hoc)|(Hk & Hroot & HL & Hcl)].
  - assert (h ∈ logroot s2) as Hin by (rewrite Hroot; apply list_elem_of_here).
    split; [split; [lia | auto]|]. split; [eauto|].
    intros Hnin. contradiction.
  - assert (h ∉ logroot s2) as Hnin by (rewrite Hroot; exact Hh).
    split; [split; [contradiction | lia]|]. split; [contradiction|].
    intros _. split; [exact HL|]. split; [exact Hcl|].
    apply logfclose_unregistered. exact Hnin.
Qed.

End Refcount.

Lemma refcount_registered_witness :
  exists vs s2,
    run_ops os_fine 4 2
      [OpOpen "screenlog.0" None; OpClose 1%nat; OpClose 1%nat] 
      (mkState [1%nat]
         {[ 1%nat := mkLog 3 "screenlog.0" 1 0 0 zero_stat None 0 2 ]}
         [EvAlloc true; EvAlloc true; EvAlloc true;
          EvFstat 3 (Some (mkstat 1 1 1 0 0 0))])
    = Ret vs s2
    /\ (1%nat ∉ logroot s2).
Proof.
  destruct (refcount_registered os_fine 4 2 "screenlog.0" 3 no_logs
              (mkState [1%nat]
                 {[ 1%nat := mkLog 3 "screenlog.0" 1 0 0 zero_stat None 0 2 ]}
                 [EvAlloc true; EvAlloc true; EvAlloc true;
                  EvFstat 3 (Some (mkstat 1 1 1 0 0 0))])
              1%nat
              [OpOpen "screenlog.0" None; OpClose 1%nat; OpClose 1%nat])
    as (vs & s2 & Hrun & Hiff & _).
  - intros p Hp. apply elem_of_nil in Hp. contradiction.
  - vm_compute. reflexivity.
  - apply Forall_cons; split; [left; reflexivity|].
    apply Forall_cons; split; [right; reflexivity|].
    apply Forall_cons; split; [right; reflexivity | constructor].
  - exists vs, s2. split; [exact Hrun|].
    intros Hin. apply Hiff in Hin. revert Hin.
    vm_compute in Hrun. injection Hrun as <- _. vm_compute. discriminate.
Defined.

(** C5 as stated fails in its last part: a Close beyond the matching
    Opens does not abort.  After one Open and one Close the handle is
    gone; the second Close returns -1 like any call that returns, and
    changes nothing. *)
Lemma close_beyond_opens_returns :
  run_ops os_fine 4 2
    [OpOpen "screenlog.0" (Some 3); OpClose 1%nat; OpClose 1%nat] no_logs
  = Ret [VLog (Some 1%nat); VInt 0; VInt (-1)]
        (mkState [] ∅
           [EvAlloc true; EvAlloc true; EvAlloc true;
            EvFstat 3 (Some (mkstat 1 1 1 0 0 0)); EvFclose 3]).
Proof. vm_compute. reflexivity. Qed.

(** ** The descriptor relocator (lf_move_fd) *)

Section MoveFd.

Variable os : OS.

Lemma lf_move_fd_rec_calls (need_fd : Z) (fuel : nat) :
  forall (fd : Z) (s s' : State) (r : Z),
    lf_move_fd_rec os fuel fd need_fd s = Ret r s' ->
    (r = need_fd \/ r = -1)
    /\ exists ext,
         trace s' = trace s ++ ext
         /\ (fd <> need_fd -> EvClose fd ∈ ext)
         /\ (fd = need_fd -> ext = [])
         /\ (forall x d, EvDup x d ∈ ext -> d = need_fd \/ EvClose d ∈ ext)
         /\ (r <> -1 -> fd = need_fd \/ exists x, EvDup x need_fd ∈ ext).
Proof.
  induction fuel as [|fuel IH]; intros fd s s' r H; simpl in H.
  - destruct (fd =? need_fd) eqn:E; [|discriminate].
    apply Z.eqb_eq in E. injection H as <- <-.
    split; [left; exact E|]. exists []. rewrite app_nil_r.
    split; [reflexivity|]. split; [contradiction|]. split; [reflexivity|].
    split; [intros x d Hd; apply elem_of_nil in Hd; contradiction | auto].
  - destruct (fd =? need_fd) eqn:E.
    { apply Z.eqb_eq in E. injection H as <- <-.
      split; [left; exact E|]. exists []. rewrite app_nil_r.
      split; [reflexivity|]. split; [contradiction|]. split; [reflexivity|].
      split; [intros x d Hd; apply elem_of_nil in Hd; contradiction | auto]. }
    apply Z.eqb_neq in E.
    apply bind_ret_inv in H as (r1 & s2 & H1 & H2).
    unfold sys_close, mbind, M_bind, emit, mret, M_ret in H2. simpl in H2.
    injection H2 as <- <-.
    destruct ((0 <=? fd) && (fd <? need_fd)).
    + apply bind_ret_inv in H1 as (d & s1 & Hd & H1).
      unfold sys_dup, mbind, M_bind, get_state, emit, mret, M_ret in Hd.
      simpl in Hd. injection Hd as <- <-.
      destruct (IH _ _ _ _ H1) as (Hr & ext1 & Htr & Hcl & Hnil & Hdup & Hok).
      simpl in Htr. set (d := os_dup os (trace s) fd) in *.
      split; [exact Hr|].
      exists ([EvDup fd d] ++ ext1 ++ [EvClose fd]). simpl.
      rewrite Htr, <- !app_assoc. simpl.
      split; [reflexivity|]. split.
      { intros _. apply list_elem_of_further, elem_of_app. right.
        apply list_elem_of_here. }
      split; [contradiction|]. split.
      * intros x d' Hin. apply elem_of_cons in Hin as [Hin|Hin].
        -- injection Hin as -> ->.
           destruct (Z.eq_dec d need_fd) as [Hd|Hd]; [left; exact Hd|].
           right. apply list_elem_of_further, elem_of_app. left.
           apply Hcl. exact Hd.
        -- apply elem_of_app in Hin as [Hin|Hin].
           ++ destruct (Hdup x d' Hin) as [Hd|Hd]; [left; exact Hd|].
              right. apply list_elem_of_further, elem_of_app. left. exact Hd.
           ++ apply list_elem_of_singleton in Hin. discriminate.
      * intros Hr1. right. destruct (Hok Hr1) as [Hd|(x & Hx)].
        -- exists fd. rewrite <- Hd. apply list_elem_of_here.
        -- exists x. apply list_elem_of_further, elem_of_app. left. exact Hx.
    + unfold mret, M_ret in H1. injection H1 as <- <-.
      split; [right; reflexivity|]. exists [EvClose fd].
      split; [reflexivity|]. split; [intros _; apply list_elem_of_here|].
      split; [contradiction|]. split.
      * intros x d Hin. apply list_elem_of_singleton in Hin. discriminate.
      * intros Hr. contradiction.
Qed.

(** X1: when lf_move_fd returns, it returns need_fd or -1; it has closed
    fd unless fd was need_fd already, in which case it made no call; every
    descriptor dup handed to it is closed again, need_fd excepted; and it
    returns other than -1 only if fd was need_fd or a dup returned need_fd.
    The registry and the Logs are as they were. *)
Theorem lf_move_fd_closes_what_it_opens (fd need_fd : Z) (s s' : State) (r : Z) :
  lf_move_fd os fd need_fd s = Ret r s' ->
  (r = need_fd \/ r = -1)
  /\ heap s' = heap s /\ logroot s' = logroot s
  /\ exists ext,
       trace s' = trace s ++ ext
       /\ (fd <> need_fd -> EvClose fd ∈ ext)
       /\ (fd = need_fd -> ext = [])
       /\ (forall x d, EvDup x d ∈ ext -> d = need_fd \/ EvClose d ∈ ext)
       /\ (r <> -1 -> fd = need_fd \/ exists x, EvDup x need_fd ∈ ext).
Proof.
  unfold lf_move_fd. intros H.
  pose proof (lf_move_fd_rec_frame os (S (Z.to_nat need_fd)) fd need_fd s) as F.
  rewrite H in F. destruct F as (Hh & Hr & _).
  destruct (lf_move_fd_rec_calls need_fd _ fd s s' r H) as (Hres & Hext).
  split; [exact Hres|]. split; [exact Hh|]. split; [exact Hr | exact Hext].
Qed.

(** X2: with a kernel whose dup fails or returns a descriptor above its
    argument (as it does in logfile_reopen, where open has just returned
    the lowest free descriptor), lf_move_fd returns: its recursion is
    bounded by need_fd. *)
Theorem lf_move_fd_terminates (fd need_fd : Z) (s : State) :
  (forall tr x, os_dup os tr x < 0 \/ x < os_dup os tr x) ->
  exists r s', lf_move_fd os fd need_fd s = Ret r s'
               /\ (r = need_fd \/ r = -1).
Proof.
  intros Hdup.
  destruct (lf_move_fd_returns os fd need_fd s Hdup) as (r & s' & H).
  exists r, s'. split; [exact H|].
  unfold lf_move_fd in H.
  exact (proj1 (lf_move_fd_rec_calls need_fd _ fd s s' r H)).
Qed.

End MoveFd.

Lemma lf_move_fd_closes_what_it_opens_witness :
  let s' := mkState [] ∅ [EvDup 1 2; EvDup 2 3; EvClose 2; EvClose 1] in
  lf_move_fd os_dup_next 1 3 no_logs = Ret 3 s'
  /\ exists ext,
       trace s' = trace no_logs ++ ext
       /\ EvClose 1 ∈ ext
       /\ (forall x d, EvDup x d ∈ ext -> d = 3 \/ EvClose d ∈ ext).
Proof.
  intros s'.
  assert (lf_move_fd os_dup_next 1 3 no_logs = Ret 3 s') as H
    by (vm_compute; reflexivity).
  split; [exact H|].
  destruct (lf_move_fd_closes_what_it_opens os_dup_next 1 3 no_logs s' 3 H)
    as (_ & _ & _ & ext & Htr & Hcl & _ & Hdup & _).
  exists ext. split; [exact Htr|]. split; [apply Hcl; lia | exact Hdup].
Defined.

Lemma lf_move_fd_terminates_witness :
  exists r s', lf_move_fd os_dup_next 1 3 no_logs = Ret r s'
               /\ (r = 3 \/ r = -1).
Proof.
  apply (lf_move_fd_terminates os_dup_next 1 3 no_logs).
  intros tr x. right. simpl. lia.
Defined.

(** ** The rotation detector between checks *)

Section Detector.

Variable os : OS.
Variable ivl : Z.   (* LOG_STAT_CHECK_INTERVAL *)

Lemma periodic_stat_check_not_due (l : ptr) (s : State) (L : Log) :
  heap s !! l = Some L -> 1 < stat_countdown L ->
  periodic_stat_check os ivl l s
  = Ret 0 (mkState (logroot s)
             (<[l := set_stat_countdown (stat_countdown L - 1) L]> (heap s))
             (trace s)).
Proof.
  intros HL Hc. unfold periodic_stat_check. msimpl. rewrite HL.
  destruct (0 <? stat_countdown L - 1) eqn:E; [reflexivity|].
  apply Z.ltb_ge in E. lia.
Qed.

Lemma periodic_checks_not_due (l : ptr) (n : nat) :
  forall (s : State) (L : Log),
    heap s !! l = Some L -> Z.of_nat n < stat_countdown L ->
    exists L',
      periodic_checks os ivl n l s
      = Ret (replicate n 0)
            (mkState (logroot s) (<[l := L']> (heap s)) (trace s))
      /\ stat_countdown L' = stat_countdown L - Z.of_nat n
      /\ st L' = st L /\ same_but_stat L L'.
Proof.
  induction n as [|n IH]; intros s L HL Hn.
  - exists L. simpl. unfold mret, M_ret. rewrite insert_id by exact HL.
    destruct s. simpl. split; [reflexivity|].
    split; [lia|]. split; [reflexivity | apply same_but_stat_refl].
  - simpl. unfold mbind at 1, M_bind at 1.
    rewrite (periodic_stat_check_not_due l s L HL) by lia.
    set (L1 := set_stat_countdown (stat_countdown L - 1) L).
    destruct (IH (mkState (logroot s) (<[l := L1]> (heap s)) (trace s)) L1)
      as (L' & Hrun & Hcd & Hst & HS).
    + apply lookup_insert_eq.
    + subst L1. simpl. lia.
    + exists L'. unfold mbind, M_bind. rewrite Hrun. unfold mret, M_ret.
      simpl. rewrite insert_insert_eq. split; [reflexivity|].
      split; [rewrite Hcd; subst L1; simpl; lia|].
      split; [exact Hst | exact HS].
Qed.

Lemma changed_logfile_countdown (l : ptr) (s s' : State) (L L' : Log) :
  heap s !! l = Some L -> changed_logfile os l s = Ret tt s' ->
  heap s' !! l = Some L' -> stat_countdown L' = stat_countdown L.
Proof.
  intros HL H HL'. unfold changed_logfile, sys_fstat in H. msimpl.
  rewrite HL in H. simpl in H.
  destruct (os_fstat os (trace s) (fileno (fp L))) as [o|]; simpl in H.
  - destruct (st_size (st L) <? st_size o); simpl in H; injection H as <-;
      simpl in HL'.
    + rewrite lookup_insert_eq in HL'. injection HL' as <-. reflexivity.
    + rewrite HL in HL'. injection HL' as <-. reflexivity.
  - injection H as <-. simpl in HL'. rewrite HL in HL'.
    injection HL' as <-. reflexivity.
Qed.

(** X3: the rotation check costs a stat only when it is due.  While the
    countdown of a Log is above [n], [n] checks in a row all return 0 and
    make no call at all: they only count down.  The check that finds the
    countdown at 1 or below does call fstat, and sets the countdown back
    to the check interval. *)
Theorem periodic_stat_check_period (l : ptr) (s : State) (L : Log) :
  heap s !! l = Some L ->
  (forall n,
     Z.of_nat n < stat_countdown L ->
     exists L',
       periodic_checks os ivl n l s
       = Ret (replicate n 0)
             (mkState (logroot s) (<[l := L']> (heap s)) (trace s))
       /\ stat_countdown L' = stat_countdown L - Z.of_nat n
       /\ st L' = st L)
  /\ (stat_countdown L <= 1 ->
      exists c s' L' ext,
        periodic_stat_check os ivl l s = Ret c s'
        /\ heap s' !! l = Some L'
        /\ stat_countdown L' = ivl
        /\ trace s'
           = trace s
             ++ EvFstat (fileno (fp L))
                        (os_fstat os (trace s) (fileno (fp L))) :: ext).
Proof.
  intros HL. split.
  - intros n Hn.
    destruct (periodic_checks_not_due l n s L HL Hn) as (L' & H1 & H2 & H3 & _).
    exists L'. auto.
  - intros Hdue. unfold periodic_stat_check.
    unfold mbind at 1, M_bind at 1, get_log at 1. rewrite HL.
    unfold mbind at 1, M_bind at 1, set_log at 1.
    destruct (0 <? stat_countdown L - 1) eqn:E; [apply Z.ltb_lt in E; lia|].
    unfold mbind at 1, M_bind at 1, set_log at 1. simpl.
    rewrite insert_insert_eq.
    set (L1 := set_stat_countdown ivl L).
    set (s1 := mkState (logroot s) (<[l := L1]> (heap s)) (trace s)).
    assert (heap s1 !! l = Some L1) as HL1 by apply lookup_insert_eq.
    unfold mbind at 1, M_bind at 1.
    rewrite (stolen_logfile_run os l s1 L1 HL1). simpl.
    set (r := os_fstat os (trace s) (fileno (fp L))).
    set (L2 := set_st (refreshed (st L) r) L1).
    set (s2 := mkState _ _ _).
    assert (heap s2 !! l = Some L2) as HL2 by apply lookup_insert_eq.
    destruct (negb _).
    + exists 1, s2, L2, []. split; [reflexivity|]. split; [exact HL2|].
      split; reflexivity.
    + destruct (changed_logfile_keeps os l s2 L2 HL2)
        as (s3 & Hch & (_ & _ & Hl) & (ext & Htr & _)).
      destruct (Hl L2 HL2) as (L3 & HL3 & _).
      unfold mbind, M_bind. rewrite Hch. unfold mret, M_ret.
      assert (stat_countdown L3 = ivl) as Hcd
        by exact (changed_logfile_countdown l s2 s3 L2 L3 HL2 Hch HL3).
      exists 0, s3, L3, ext. split; [reflexivity|]. split; [exact HL3|].
      split; [exact Hcd|]. rewrite Htr. simpl. rewrite <- app_assoc.
      reflexivity.
Qed.

(** X4: changed_logfile moves the cache forward only: it never changes the
    cached device, inode, link count or change-time, never lowers the
    cached size, and leaves the whole Log as it was when fstat fails or
    the file has not grown; when the file has grown the cache takes its
    size and modification time. *)
Theorem changed_logfile_conservative (l : ptr) (s : State) (L : Log) :
  heap s !! l = Some L ->
  let r := os_fstat os (trace s) (fileno (fp L)) in
  exists s' L',
    changed_logfile os l s = Ret tt s'
    /\ heap s' !! l = Some L'
    /\ same_but_stat L L'
    /\ st_dev (st L') = st_dev (st L) /\ st_ino (st L') = st_ino (st L)
    /\ st_nlink (st L') = st_nlink (st L)
    /\ st_ctime (st L') = st_ctime (st L)
    /\ st_size (st L) <= st_size (st L')
    /\ (r = None -> L' = L)
    /\ (forall o, r = Some o -> st_size o <= st_size (st L) -> L' = L)
    /\ (forall o, r = Some o -> st_size (st L) < st_size o ->
          st_size (st L') = st_size o /\ st_mtime (st L') = st_mtime o).
Proof.
  intros HL r. unfold changed_logfile, sys_fstat. msimpl. rewrite HL. simpl.
  fold r. destruct r as [o|]; simpl.
  - destruct (st_size (st L) <? st_size o) eqn:E; simpl.
    + apply Z.ltb_lt in E. eexists _, _. split; [reflexivity|]. simpl.
      rewrite lookup_insert_eq. split; [reflexivity|].
      split; [repeat split|]. simpl.
      do 4 (split; [reflexivity|]). split; [lia|]. split; [discriminate|].
      split; [intros o' [= <-] Hle; lia|].
      intros o' [= <-] _. split; reflexivity.
    + apply Z.ltb_ge in E. eexists _, L. split; [reflexivity|]. simpl.
      split; [exact HL|]. split; [apply same_but_stat_refl|].
      do 4 (split; [reflexivity|]). split; [lia|]. split; [reflexivity|].
      split; [reflexivity|]. intros o' [= <-] Hlt. lia.
  - eexists _, L. split; [reflexivity|]. simpl.
    split; [exact HL|]. split; [apply same_but_stat_refl|].
    do 4 (split; [reflexivity|]). split; [lia|]. split; [reflexivity|].
    split; discriminate.
Qed.

(** X5: a rotation is reported once.  Two calls of stolen_logfile in a
    row: if the first fstat failed, the second call returns 0 whatever it
    sees, for the cache holds no device and inode to compare with; and if
    both fstats report the same file, with a link and with device and
    inode not both zero, the second call returns 0 whatever the first
    returned. *)
Theorem stolen_logfile_reports_once (l : ptr) (s : State) (L : Log) :
  heap s !! l = Some L ->
  exists v1 s1 v2 s2,
    stolen_logfile os l s = Ret v1 s1
    /\ stolen_logfile os l s1 = Ret v2 s2
    /\ (os_fstat os (trace s) (fileno (fp L)) = None -> v2 = 0)
    /\ (forall n,
          os_fstat os (trace s) (fileno (fp L)) = Some n ->
          os_fstat os (trace s1) (fileno (fp L)) = Some n ->
          st_nlink n <> 0 -> ~ zero_ids n -> v2 = 0).
Proof.
  intros HL. rewrite (stolen_logfile_run os l s L HL).
  set (r := os_fstat os (trace s) (fileno (fp L))).
  set (L1 := set_st (refreshed (st L) r) L).
  set (s1 := mkState (logroot s) (<[l := L1]> (heap s))
                     (trace s ++ [EvFstat (fileno (fp L)) r])).
  assert (heap s1 !! l = Some L1) as HL1 by apply lookup_insert_eq.
  eexists _, s1. eexists _, _. split; [reflexivity|].
  rewrite (stolen_logfile_run os l s1 L1 HL1).
  split; [reflexivity|]. split.
  - intros Hr. subst s1 L1 r. simpl. rewrite Hr. reflexivity.
  - intros n Hr1 Hr2 Hnl Hz. subst s1 L1 r. simpl in *.
    rewrite Hr1 in *. simpl in *. rewrite Hr2. simpl.
    unfold zero_ids in Hz.
    destruct ((st_dev n =? 0) && (st_ino n =? 0)) eqn:E; [reflexivity|].
    assert (stolen_test n n = false) as ->; [|reflexivity].
    unfold stolen_test. rewrite E, Z.ltb_irrefl, !Z.eqb_refl. simpl.
    apply Z.eqb_neq in Hnl. rewrite Hnl. reflexivity.
Qed.

End Detector.

Lemma periodic_stat_check_period_witness :
  exists L',
    periodic_checks os_fine 5 2 1%nat (one_log 1%nat flushed_log)
    = Ret [0; 0]
          (mkState [1%nat] (<[1%nat := L']> {[ 1%nat := flushed_log ]}) [])
    /\ stat_countdown L' = 3.
Proof.
  destruct (periodic_stat_check_period os_fine 5 1%nat
              (one_log 1%nat flushed_log) flushed_log eq_refl) as (Hseq & _).
  destruct (Hseq 2%nat) as (L' & Hrun & Hcd & _); [simpl; lia|].
  exists L'. split; [exact Hrun|]. rewrite Hcd. reflexivity.
Defined.

(** ** Well-formedness is kept, and nothing aborts *)

Lemma ensures_bind {A B : Type} (T : Prop) (m : M A) (k : A -> M B)
    (Q : B -> State -> Prop) (s : State) :
  ensures T (fun a s1 => ensures T Q (k a s1)) (m s) ->
  ensures T Q ((m ≫= k) s).
Proof.
  unfold mbind, M_bind, ensures. destruct (m s); auto.
Qed.

Lemma ensures_weaken {A : Type} (T : Prop) (P Q : A -> State -> Prop)
    (r : result A) :
  (forall a s, P a s -> Q a s) -> ensures T P r -> ensures T Q r.
Proof. intros H. destruct r; simpl; auto. Qed.

Lemma NoDup_unlink (l : ptr) (ls : list ptr) : NoDup ls -> NoDup (unlink l ls).
Proof.
  induction 1 as [|x ls Hx Hnd IH]; simpl; [constructor|].
  case_bool_decide as E; [exact Hnd|].
  constructor; [|exact IH].
  intros Hin. apply Hx. apply (unlink_elem_ne l x ls E). exact Hin.
Qed.

Lemma elem_of_unlink (l p : ptr) (ls : list ptr) :
  NoDup ls -> p ∈ unlink l ls <-> p ∈ ls /\ p <> l.
Proof.
  intros Hnd. destruct (decide (p = l)) as [->|Hp].
  - split; [|tauto]. intros H. exfalso.
    exact (unlink_not_elem l ls Hnd H).
  - rewrite (unlink_elem_ne l p ls Hp). tauto.
Qed.

Lemma same_but_stat_log_ok (cap : nat) (a b : Log) :
  same_but_stat a b -> log_ok cap a -> log_ok cap b.
Proof.
  intros (_ & _ & Ho & _ & _ & Hb & Hl) [H1 H2]. unfold log_ok, buf_ok in *.
  rewrite Ho, Hb, Hl. split; assumption.
Qed.

Lemma wf_live (cap : nat) (s : State) (l : ptr) :
  wf cap s -> l ∈ logroot s ->
  exists L, heap s !! l = Some L /\ log_ok cap L.
Proof.
  intros (_ & Hreg & Hok) Hin. apply Hreg in Hin as [L HL].
  exists L. split; [exact HL | exact (Hok l L HL)].
Qed.

Lemma wf_same (cap : nat) (s s' : State) :
  logroot s' = logroot s -> heap s' = heap s -> wf cap s -> wf cap s'.
Proof. unfold wf. intros -> ->. auto. Qed.

Lemma wf_set (cap : nat) (s : State) (l : ptr) (L L' : Log) (tr : list event) :
  wf cap s -> heap s !! l = Some L -> log_ok cap L' ->
  wf cap (mkState (logroot s) (<[l := L']> (heap s)) tr).
Proof.
  intros (Hnd & Hreg & Hok) HL HL'. split; [exact Hnd|]. simpl. split.
  - intros p. rewrite Hreg, lookup_insert_is_Some.
    split; [|intros [<-|[_ H]]; [eauto | exact H]].
    intros H. destruct (decide (l = p)); auto.
  - intros p Lp. rewrite lookup_insert_Some.
    intros [[_ <-]|[_ H]]; [exact HL' | exact (Hok p Lp H)].
Qed.

Lemma wf_keeps (cap : nat) (s s' : State) (l : ptr) (L : Log)
    (R : Log -> Log -> Prop) :
  (forall a b, R a b -> log_ok cap a -> log_ok cap b) ->
  wf cap s -> heap s !! l = Some L -> keeps l R s s' -> wf cap s'.
Proof.
  intros HR (Hnd & Hreg & Hok) HL (Hr & Ho & Hl).
  destruct (Hl L HL) as (L' & HL' & HRL).
  split; [rewrite Hr; exact Hnd|]. split.
  - intros p. rewrite Hr, Hreg. destruct (decide (p = l)) as [->|Hp].
    + rewrite HL, HL'. split; eauto.
    + rewrite (Ho p Hp). reflexivity.
  - intros p Lp Hp. destruct (decide (p = l)) as [->|Hpl].
    + rewrite HL' in Hp. injection Hp as <-.
      exact (HR L L' HRL (Hok l L HL)).
    + rewrite (Ho p Hpl) in Hp. exact (Hok p Lp Hp).
Qed.

Lemma wf_unlink (cap : nat) (s : State) (l : ptr) (tr : list event) :
  wf cap s -> wf cap (mkState (unlink l (logroot s)) (delete l (heap s)) tr).
Proof.
  intros (Hnd & Hreg & Hok). split; [apply NoDup_unlink; exact Hnd|].
  simpl. split.
  - intros p. rewrite (elem_of_unlink l p _ Hnd), Hreg.
    rewrite lookup_delete_is_Some. split; intros [H1 H2]; split; auto.
  - intros p Lp. rewrite lookup_delete_Some. intros [_ H]. exact (Hok p Lp H).
Qed.

Lemma wf_new (cap : nat) (s : State) (l : ptr) (L : Log) (tr : list event) :
  wf cap s -> heap s !! l = None -> log_ok cap L ->
  wf cap (mkState (l :: logroot s) (<[l := L]> (heap s)) tr).
Proof.
  intros (Hnd & Hreg & Hok) HL HLok. split; simpl.
  - constructor; [|exact Hnd]. rewrite Hreg, HL. intros [x Hx]. discriminate.
  - split.
    + intros p. rewrite elem_of_cons, Hreg, lookup_insert_is_Some.
      split.
      * intros [->|H]; [left; reflexivity|].
        destruct (decide (l = p)) as [<-|Hp]; [left; reflexivity|].
        right. split; assumption.
      * intros [<-|[_ H]]; auto.
    + intros p Lp. rewrite lookup_insert_Some.
      intros [[_ <-]|[_ H]]; [exact HLok | exact (Hok p Lp H)].
Qed.

Section Safety.

Variable os : OS.
Variable cap : nat.   (* LOG_BUFFER_SIZE *)
Variable ivl : Z.     (* LOG_STAT_CHECK_INTERVAL *)

(** What is known of a call in which lf_move_fd runs out of descriptors. *)
Variable T : Prop.
Hypothesis Hmove :
  forall (fd need_fd : Z) (s : State), lf_move_fd os fd need_fd s = Timeout -> T.

Lemma logfclose_wf (l : ptr) (s : State) :
  wf cap s ->
  exists v s',
    logfclose os l s = Ret v s' /\ wf cap s'
    /\ (l ∈ logroot s -> v = 0) /\ (l ∉ logroot s -> v = -1 /\ s' = s).
Proof.
  intros Hwf. destruct (decide (l ∈ logroot s)) as [Hin|Hnin].
  - destruct (wf_live cap s l Hwf Hin) as (L & HL & [Hoc Hbuf]).
    destruct (Z.eq_dec (opencount L) 1) as [E|E].
    + rewrite (logfclose_last os l s L Hin HL E). eexists _, _.
      split; [reflexivity|]. split; [apply wf_unlink; exact Hwf|].
      split; [reflexivity | contradiction].
    + rewrite (logfclose_shared os l s L Hin HL) by lia. eexists _, _.
      split; [reflexivity|]. split; [|split; [reflexivity | contradiction]].
      eapply wf_set; [exact Hwf | exact HL|].
      split; [simpl; lia | exact Hbuf].
  - rewrite (logfclose_unregistered os l s Hnin). exists (-1), s.
    split; [reflexivity|]. split; [exact Hwf|]. split; [contradiction | auto].
Qed.

Lemma logfile_reopen_wf (nm : string) (fd : Z) (l : ptr) (s : State) (L : Log) :
  wf cap s -> heap s !! l = Some L ->
  ensures T (fun r s' => wf cap s'
                         /\ ((r = 0 /\ keeps l same_but_stat s s') \/ r = -1))
          (logfile_reopen os nm fd l s).
Proof.
  intros Hwf HL. rewrite logfile_reopen_unfold. simpl.
  set (s0 := after_open os nm fd s).
  assert (wf cap s0) as Hwf0 by (apply (wf_same cap s); auto).
  apply ensures_bind. destruct (got_fd os nm fd s <? 0).
  - simpl. apply ensures_bind.
    destruct (logfclose_wf l s0 Hwf0) as (v & s' & Hrun & Hwf' & _).
    rewrite Hrun. simpl. split; [exact Hwf' | right; reflexivity].
  - apply ensures_bind.
    pose proof (Hmove (got_fd os nm fd s) fd s0) as HT.
    pose proof (lf_move_fd_rec_frame os (S (Z.to_nat fd)) (got_fd os nm fd s)
                  fd s0) as F.
    unfold lf_move_fd in *.
    destruct (lf_move_fd_rec os _ _ _ s0) as [r s1| | |]; simpl;
      try contradiction; [|exact (HT eq_refl)].
    destruct F as (Hh & Hr & _).
    assert (wf cap s1) as Hwf1 by (apply (wf_same cap s0); auto).
    destruct (r <? 0).
    + apply ensures_bind.
      destruct (logfclose_wf l s1 Hwf1) as (v & s' & Hrun & Hwf' & _).
      rewrite Hrun. simpl. split; [exact Hwf' | right; reflexivity].
    + apply ensures_bind.
      assert (heap s1 !! l = Some L) as HL1 by (rewrite Hh; exact HL).
      destruct (changed_logfile_keeps os l s1 L HL1) as (s' & Hrun & K & _).
      rewrite Hrun. simpl. split.
      * eapply wf_keeps; [apply same_but_stat_log_ok | exact Hwf1 | exact HL1
                         | exact K].
      * left. split; [reflexivity|]. destruct K as (Kr & Ko & Kl).
        split; [rewrite Kr, Hr; reflexivity|]. split.
        -- intros p Hp. rewrite (Ko p Hp), Hh. reflexivity.
        -- intros L0 HL0. apply Kl. rewrite Hh. exact HL0.
Qed.

Lemma check_and_reopen_wf (l : ptr) (s : State) (L : Log) :
  wf cap s -> heap s !! l = Some L ->
  ensures T (fun c s' => wf cap s'
                         /\ (c = false ->
                             keeps l same_but_stat s s' /\ quiet_ext s s'))
          (check_and_reopen os ivl (logfile_reopen os) l s).
Proof.
  intros Hwf HL.
  assert (ensures T (fun _ s' => wf cap s')
            (check_and_reopen os ivl (logfile_reopen os) l s)) as P.
  { unfold check_and_reopen. apply ensures_bind.
    destruct (periodic_stat_check_keeps os ivl l s L HL)
      as (v & s1 & Hrun & Hv & K & _).
    rewrite Hrun. simpl.
    assert (wf cap s1) as Hwf1.
    { eapply wf_keeps; [apply same_but_stat_log_ok | exact Hwf | exact HL
                       | exact K]. }
    destruct K as (_ & _ & Hl). destruct (Hl L HL) as (L1 & HL1 & HS).
    destruct Hv as [-> | ->]; simpl; [exact Hwf1|].
    apply ensures_bind. unfold get_log. rewrite HL1. simpl.
    apply ensures_bind.
    eapply ensures_weaken;
      [|exact (logfile_reopen_wf (name L1) (fileno (fp L1)) l s1 L1 Hwf1 HL1)].
    intros r s' [H _]. exact H. }
  destruct (check_and_reopen os ivl (logfile_reopen os) l s)
    as [c s'| | |] eqn:H; simpl in *; try exact P.
  split; [exact P|]. intros ->.
  exact (check_and_reopen_ok os ivl l s s' L HL H).
Qed.

Lemma flush_log_buffer_wf (l : ptr) (s : State) (L : Log) :
  wf cap s -> heap s !! l = Some L ->
  exists r s' L',
    flush_log_buffer os l s = Ret r s'
    /\ (r = 0 \/ r = -1) /\ wf cap s' /\ logroot s' = logroot s
    /\ heap s' !! l = Some L' /\ buffer L' = buffer L /\ fp L' = fp L
    /\ (buffer L <> None -> buflen L' = 0%nat).
Proof.
  intros Hwf HL. pose proof Hwf as (_ & _ & Hok).
  destruct (Hok l L HL) as [Hoc Hbuf]. unfold buf_ok in Hbuf.
  destruct (buffer L) as [b|] eqn:Hb.
  - destruct (Nat.eq_dec (buflen L) 0%nat) as [E|E].
    + rewrite (flush_log_buffer_empty os l s L HL) by (right; exact E).
      exists 0, s, L. repeat (split; [auto; fail|]). auto.
    + rewrite (flush_log_buffer_run os l s L HL) by congruence.
      simpl. eexists _, _, _. split; [reflexivity|].
      split; [destruct (_ =? 1); auto|].
      split.
      { eapply wf_set; [exact Hwf | exact HL|].
        destruct (_ =? 1); split; simpl; try exact Hoc;
          unfold buf_ok; simpl; rewrite Hb; split; try tauto; lia. }
      split; [reflexivity|]. simpl. rewrite lookup_insert_eq.
      split; [reflexivity|].
      destruct (_ =? 1); simpl; rewrite ?Hb; auto.
  - rewrite (flush_log_buffer_empty os l s L HL) by (left; exact Hb).
    exists 0, s, L. rewrite Hb. repeat (split; [auto; fail|]). congruence.
Qed.

Lemma logfwrite_wf_allocated (l : ptr) (buf : list byte) (s : State)
    (L : Log) (b : list byte) :
  wf cap s -> heap s !! l = Some L -> buffer L = Some b ->
  ensures T (fun r s' => wf cap s' /\ (r = 1 \/ r = 0 \/ r = -1))
          (logfwrite os cap ivl (logfile_reopen os) l buf s).
Proof.
  intros Hwf HL Hb. pose proof Hwf as (_ & _ & Hok).
  destruct (Hok l L HL) as [Hoc Hbuf]. unfold buf_ok in Hbuf.
  rewrite Hb in Hbuf. destruct Hbuf as [Hlen Hle].
  destruct (le_lt_dec (buflen L + length buf) cap) as [Hfit|Hover].
  - rewrite (logfwrite_fits os cap ivl _ l buf s L b HL Hb Hfit). simpl.
    split; [|auto]. eapply wf_set; [exact Hwf | exact HL|].
    split; [exact Hoc|]. unfold buf_ok. simpl.
    rewrite memcpy_length by lia. split; [exact Hlen | exact Hfit].
  - rewrite (logfwrite_overflows os cap ivl _ l buf s L b HL Hb Hover).
    pose proof (check_and_reopen_wf l s L Hwf HL) as P.
    destruct (check_and_reopen os ivl (logfile_reopen os) l s)
      as [[|] s1| | |]; simpl in P; try exact P.
    + simpl. split; [exact (proj1 P) | auto].
    + destruct P as [Hwf1 K]. destruct (K eq_refl) as [(_ & _ & Kl) _].
      destruct (Kl L HL) as (L1 & HL1 & HS).
      destruct (flush_log_buffer_wf l s1 L1 Hwf1 HL1)
        as (r & s2 & L2 & Hrun & Hr & Hwf2 & _ & HL2 & Hb2 & _ & _).
      apply ensures_bind. rewrite Hrun. simpl.
      destruct Hr as [-> | ->]; simpl; [|split; auto].
      apply ensures_bind. unfold get_log. rewrite HL2. simpl.
      assert (buffer L2 = Some b) as Hb2'.
      { rewrite Hb2. destruct HS as (_ & _ & _ & _ & _ & E & _).
        rewrite E. exact Hb. }
      pose proof Hwf2 as (_ & _ & Hok2). destruct (Hok2 l L2 HL2) as [Hoc2 _].
      destruct (length buf <=? cap)%nat eqn:E.
      * apply Nat.leb_le in E. simpl. split; [|auto].
        eapply wf_set; [exact Hwf2 | exact HL2|].
        split; [exact Hoc2|]. unfold buf_ok. simpl. rewrite Hb2'. simpl.
        rewrite memcpy_length by (simpl; lia). split; [exact Hlen | exact E].
      * unfold sys_fwrite, mbind, M_bind, get_state, emit, mret, M_ret,
          get_log, set_log. simpl.
        destruct (fwrite_result os (trace s2) (fp L2) buf =? 1); simpl;
          [|split; [|auto]; apply (wf_same cap s2); auto].
        rewrite HL2. simpl. split; [|auto].
        eapply wf_set; [exact Hwf2 | exact HL2|].
        split; [exact Hoc2|]. unfold buf_ok. simpl. rewrite Hb2'.
        pose proof (Hok2 l L2 HL2) as [_ B]. unfold buf_ok in B.
        rewrite Hb2' in B. exact B.
Qed.

Lemma logfwrite_wf (l : ptr) (buf : list byte) (s : State) :
  wf cap s -> l ∈ logroot s ->
  ensures T (fun r s' => wf cap s' /\ (r = 1 \/ r = 0 \/ r = -1))
          (logfwrite os cap ivl (logfile_reopen os) l buf s).
Proof.
  intros Hwf Hin. destruct (wf_live cap s l Hwf Hin) as (L & HL & [Hoc Hbuf]).
  destruct (buffer L) as [b|] eqn:Hb.
  - exact (logfwrite_wf_allocated l buf s L b Hwf HL Hb).
  - rewrite (logfwrite_unallocated os cap ivl _ l buf s L HL Hb).
    unfold sys_alloc, mbind, M_bind, get_state, emit, mret, M_ret, set_log.
    simpl. destruct (os_alloc os (trace s)); simpl.
    + eapply logfwrite_wf_allocated;
        [|simpl; rewrite lookup_insert_eq; reflexivity | reflexivity].
      eapply wf_set; [exact Hwf | exact HL|].
      split; [exact Hoc|]. unfold buf_ok. simpl.
      rewrite length_replicate. split; [reflexivity | lia].
    + unfold sys_fwrite, mbind, M_bind, get_state, emit, mret, M_ret. simpl.
      split; [apply (wf_same cap s); auto|].
      unfold fwrite_result. destruct (_ =? 0)%nat; [auto|].
      destruct (os_fwrite _ _ _ _); auto.
Qed.

Lemma flush_one_wf (l : ptr) (s : State) :
  wf cap s -> l ∈ logroot s ->
  ensures T (fun o s' => wf cap s'
                         /\ (is_Some o -> logroot s' = logroot s))
          (flush_one os ivl (logfile_reopen os) l s).
Proof.
  intros Hwf Hin. destruct (wf_live cap s l Hwf Hin) as (L & HL & _).
  unfold flush_one. apply ensures_bind.
  pose proof (check_and_reopen_wf l s L Hwf HL) as P.
  destruct (check_and_reopen os ivl (logfile_reopen os) l s)
    as [[|] s1| | |]; simpl in P; try exact P.
  - simpl. split; [exact (proj1 P)|]. intros [x Hx]. discriminate.
  - destruct P as [Hwf1 K]. destruct (K eq_refl) as [(Kr & _ & Kl) _].
    destruct (Kl L HL) as (L1 & HL1 & HS).
    destruct (flush_log_buffer_wf l s1 L1 Hwf1 HL1)
      as (r & s2 & L2 & Hrun & Hr & Hwf2 & Hr2 & HL2 & Hb2 & _ & Hz).
    simpl. apply ensures_bind. rewrite Hrun. simpl.
    destruct Hr as [-> | ->]; simpl;
      [|split; [exact Hwf2 | intros [x Hx]; discriminate]].
    unfold sys_fflush, mbind, M_bind, get_state, emit, mret, M_ret,
      get_log, set_log. simpl. rewrite HL2. simpl. rewrite HL2. simpl.
    split; [|intros _; rewrite Hr2; exact Kr].
    eapply wf_set; [exact Hwf2 | exact HL2|].
    pose proof Hwf2 as (_ & _ & Hok2). destruct (Hok2 l L2 HL2) as [Hoc2 B].
    split; [exact Hoc2 | exact B].
Qed.

Lemma flush_loop_wf (ls : list ptr) :
  forall (r : Z) (s : State),
    wf cap s -> (forall p, p ∈ ls -> p ∈ logroot s) ->
    ensures T (fun _ s' => wf cap s')
            (flush_loop os ivl (logfile_reopen os) ls r s).
Proof.
  induction ls as [|l ls IH]; intros r s Hwf Hin; simpl; [exact Hwf|].
  apply ensures_bind.
  eapply ensures_weaken;
    [|exact (flush_one_wf l s Hwf (Hin l (list_elem_of_here l ls)))].
  intros [r'|] s1 [Hwf1 Hr]; simpl; [|exact Hwf1].
  apply IH; [exact Hwf1|]. intros p Hp.
  rewrite Hr by eauto. apply Hin. apply list_elem_of_further. exact Hp.
Qed.

Lemma logfflush_wf (l : option ptr) (s : State) :
  wf cap s -> (forall p, l = Some p -> p ∈ logroot s) ->
  ensures T (fun _ s' => wf cap s')
          (logfflush os ivl (logfile_reopen os) l s).
Proof.
  intros Hwf Hin. unfold logfflush. apply ensures_bind. destruct l as [l|].
  - eapply ensures_weaken; [|exact (flush_one_wf l s Hwf (Hin l eq_refl))].
    intros [r|] s' [H _]; exact H.
  - unfold mbind, M_bind, get_state.
    eapply ensures_weaken;
      [|exact (flush_loop_wf (logroot s) 0 s Hwf (fun p H => H))].
    intros [r|] s' H; exact H.
Qed.

Lemma lookup_from_wf (nm : string) (s : State) (ls : list ptr) :
  (forall p, p ∈ ls -> is_Some (heap s !! p)) ->
  exists r,
    lookup_from nm ls s = Ret r s
    /\ match r with
       | Some l => l ∈ ls /\ exists L, heap s !! l = Some L /\ name L = nm
       | None => none_named nm s ls
       end.
Proof.
  induction ls as [|l ls IH]; intros Hlive; simpl.
  - exists None. split; [reflexivity|]. intros p Hp. inversion Hp.
  - destruct (Hlive l (list_elem_of_here l ls)) as [L HL].
    unfold mbind, M_bind, get_log. rewrite HL. case_bool_decide as E.
    + exists (Some l). split; [reflexivity|].
      split; [apply list_elem_of_here|]. exists L. auto.
    + destruct IH as (r & Hrun & Hr).
      { intros p Hp. apply Hlive. apply list_elem_of_further. exact Hp. }
      exists r. split; [exact Hrun|]. destruct r as [p|].
      * destruct Hr as [Hp HL']. split; [|exact HL'].
        apply list_elem_of_further. exact Hp.
      * intros p Hp. apply elem_of_cons in Hp as [->|Hp]; [|exact (Hr p Hp)].
        exists L. split; [exact HL | congruence].
Qed.

Lemma logfopen_wf (nm : string) (f : option FILE) (s : State) :
  wf cap s ->
  exists v s',
    logfopen os ivl nm f s = Ret v s' /\ wf cap s'
    /\ (forall p, p ∈ logroot s -> p ∈ logroot s')
    /\ (forall l, v = Some l -> l ∈ logroot s').
Proof.
  intros Hwf. destruct f as [f|].
  - destruct (alloc3 os (trace s)) eqn:Ha.
    + rewrite (logfopen_new os ivl nm f s Ha). eexists _, _.
      split; [reflexivity|]. split; [|split].
      * apply wf_new; [exact Hwf | apply new_address_fresh|].
        split; [simpl; lia | reflexivity].
      * intros p Hp. simpl. apply list_elem_of_further. exact Hp.
      * intros l [= <-]. simpl. apply list_elem_of_here.
    + destruct (logfopen_no_memory os ivl nm f s Ha) as (s' & Hrun & Hr & Hh).
      exists None, s'. split; [exact Hrun|].
      split; [apply (wf_same cap s); auto|]. rewrite Hr.
      split; [auto | discriminate].
  - pose proof Hwf as (_ & Hreg & Hok).
    destruct (lookup_from_wf nm s (logroot s)) as (r & Hrun & Hr).
    { intros p Hp. apply Hreg. exact Hp. }
    unfold logfopen, lookup_logfile, mbind, M_bind, get_state.
    rewrite Hrun. destruct r as [l|].
    + destruct Hr as (Hin & L & HL & _). unfold get_log, set_log, mret, M_ret.
      rewrite HL. simpl. eexists _, _. split; [reflexivity|].
      split; [|split; [auto|intros ? [= <-]; exact Hin]].
      eapply wf_set; [exact Hwf | exact HL|].
      destruct (Hok l L HL) as [Hoc B]. split; [simpl; lia | exact B].
    + exists None, s. split; [reflexivity|]. split; [exact Hwf|].
      split; [auto | discriminate].
Qed.

Lemma run_op_wf (o : op) (s : State) :
  wf cap s -> handle_ok o s ->
  ensures T (fun _ s' => wf cap s') (run_op os cap ivl o s).
Proof.
  intros Hwf Hok. destruct o as [nm f|l|l buf|l]; simpl; apply ensures_bind.
  - destruct (logfopen_wf nm f s Hwf) as (v & s' & Hrun & Hwf' & _).
    rewrite Hrun. exact Hwf'.
  - destruct (logfclose_wf l s Hwf) as (v & s' & Hrun & Hwf' & _).
    rewrite Hrun. exact Hwf'.
  - eapply ensures_weaken; [|exact (logfwrite_wf l buf s Hwf Hok)].
    intros r s' [H _]. exact H.
  - eapply ensures_weaken; [|apply (logfflush_wf l s Hwf)].
    + intros r s' H. exact H.
    + intros p ->. exact Hok.
Qed.

Lemma run_ops_wf (ops : list op) :
  forall s : State,
    wf cap s -> ops_ok os cap ivl ops s ->
    ensures T (fun _ s' => wf cap s') (run_ops os cap ivl ops s).
Proof.
  induction ops as [|o ops IH]; intros s Hwf Hok; simpl; [exact Hwf|].
  destruct Hok as [Ho Hrest]. apply ensures_bind.
  pose proof (run_op_wf o s Hwf Ho) as P.
  destruct (run_op os cap ivl o s) as [v s1| | |]; simpl in *; try exact P.
  apply ensures_bind.
  eapply ensures_weaken; [|exact (IH s1 P (Hrest v s1 eq_refl))].
  intros vs s' H. exact H.
Qed.

End Safety.

(** X6: a session that starts from a well-formed registry (no Log listed
    twice, the listed Logs exactly the live ones, each with at least one
    reference and its buffer within LOG_BUFFER_SIZE) and hands logfwrite
    and logfflush registered Logs only never reaches abort() and never
    dereferences a freed Log, and leaves the registry well-formed; when
    dup fails or returns a descriptor above its argument, every call of
    the session returns. *)
Theorem session_keeps_registry_sound (os : OS) (cap : nat) (ivl : Z)
    (ops : list op) (s : State) :
  wf cap s -> ops_ok os cap ivl ops s ->
  ensures True (fun _ s' => wf cap s') (run_ops os cap ivl ops s)
  /\ ((forall tr x, os_dup os tr x < 0 \/ x < os_dup os tr x) ->
      exists vs s', run_ops os cap ivl ops s = Ret vs s' /\ wf cap s').
Proof.
  intros Hwf Hok. split.
  - exact (run_ops_wf os cap ivl True (fun _ _ _ _ => I) ops s Hwf Hok).
  - intros Hdup.
    assert (forall fd need_fd s0, lf_move_fd os fd need_fd s0 = Timeout -> False)
      as Hmove.
    { intros fd need_fd s0 E.
      destruct (lf_move_fd_returns os fd need_fd s0 Hdup) as (r & s' & Hrun).
      rewrite Hrun in E. discriminate. }
    pose proof (run_ops_wf os cap ivl False Hmove ops s Hwf Hok) as P.
    destruct (run_ops os cap ivl ops s) as [vs s'| | |]; simpl in P;
      try contradiction.
    exists vs, s'. split; [reflexivity | exact P].
Qed.

(** ** No byte is lost or repeated between the buffer and the stream *)

Section Bytes.

Variable os : OS.
Variable cap : nat.   (* LOG_BUFFER_SIZE *)
Variable ivl : Z.     (* LOG_STAT_CHECK_INTERVAL *)

Lemma written_snoc (f g : FILE) (tr : list event) (data : list byte) (r : Z) :
  written f (tr ++ [EvFwrite g data r])
  = written f tr ++ (if bool_decide (g = f) && (r =? 1) then data else []).
Proof.
  rewrite written_app. simpl.
  destruct (bool_decide (g = f) && (r =? 1)); rewrite ?app_nil_r; reflexivity.
Qed.

Lemma logfwrite_bytes_allocated (l : ptr) (buf : list byte) (s s' : State)
    (L : Log) (b : list byte) :
  wf cap s -> heap s !! l = Some L -> buffer L = Some b ->
  logfwrite os cap ivl (logfile_reopen os) l buf s = Ret 1 s' ->
  logroot s' = logroot s
  /\ exists L', heap s' !! l = Some L' /\ fp L' = fp L
                /\ written (fp L) (trace s') ++ buffered L'
                   = written (fp L) (trace s) ++ buffered L ++ buf.
Proof.
  intros Hwf HL Hb H. pose proof Hwf as (_ & _ & Hok).
  destruct (Hok l L HL) as [Hoc Hbuf]. unfold buf_ok in Hbuf.
  rewrite Hb in Hbuf. destruct Hbuf as [Hlen Hle].
  destruct (le_lt_dec (buflen L + length buf) cap) as [Hfit|Hover].
  - rewrite (logfwrite_fits os cap ivl _ l buf s L b HL Hb Hfit) in H.
    injection H as <-. simpl. split; [reflexivity|].
    eexists. rewrite lookup_insert_eq. split; [reflexivity|].
    split; [reflexivity|].
    rewrite (buffered_memcpy L b buf Hb) by lia. reflexivity.
  - rewrite (logfwrite_overflows os cap ivl _ l buf s L b HL Hb Hover) in H.
    destruct (check_and_reopen os ivl (logfile_reopen os) l s)
      as [[|] s1| | |] eqn:Hc; try discriminate.
    destruct (check_and_reopen_ok os ivl l s s1 L HL Hc) as [K Q].
    pose proof K as (Kr & _ & Kl). destruct (Kl L HL) as (L1 & HL1 & HS).
    assert (wf cap s1) as Hwf1.
    { eapply wf_keeps; [apply same_but_stat_log_ok | exact Hwf | exact HL
                       | exact K]. }
    pose proof HS as (Sfp & _ & _ & _ & _ & Sb & Sl).
    assert (buffer L1 = Some b) as Hb1 by (rewrite Sb; exact Hb).
    assert (buffered L1 = buffered L) as HbL
      by (unfold buffered; rewrite Sb, Sl; reflexivity).
    apply bind_ret_inv in H as (r & s2 & Hrun & H).
    destruct (flush_log_buffer_wf os cap l s1 L1 Hwf1 HL1)
      as (r' & s2' & L2 & Hrun' & Hr & Hwf2 & Hr2 & HL2 & Hb2 & Hfp2 & Hz).
    rewrite Hrun in Hrun'. injection Hrun' as <- <-.
    destruct Hr as [-> | ->]; simpl in H; [|discriminate].
    destruct (flush_log_buffer_drains os l s1 L1 HL1)
      as (r' & s2' & Hrun' & Hw).
    rewrite Hrun in Hrun'. injection Hrun' as <- <-. specialize (Hw eq_refl).
    rewrite Sfp, HbL, (quiet_ext_written (fp L) s s1 Q) in Hw.
    apply bind_ret_inv in H as (L2' & s2' & Hg & H).
    unfold get_log in Hg. rewrite HL2 in Hg. injection Hg as <- <-.
    rewrite Hb2, Hb1 in H. simpl in H.
    destruct (length buf <=? cap)%nat eqn:E.
    + unfold set_log, mbind, M_bind, mret, M_ret in H. simpl in H.
      injection H as <-. simpl. split; [rewrite Hr2; exact Kr|].
      eexists. rewrite lookup_insert_eq. split; [reflexivity|].
      split; [simpl; congruence|].
      unfold buffered. simpl.
      pose proof (memcpy_take b buf 0 ltac:(lia)) as Ht. simpl in Ht.
      rewrite Ht, Hw, <- app_assoc. reflexivity.
    + apply bind_ret_inv in H as (w & s3 & Hw3 & H).
      unfold sys_fwrite, mbind, M_bind, get_state, emit, mret, M_ret in Hw3.
      simpl in Hw3. injection Hw3 as <- <-.
      destruct (fwrite_result os (trace s2) (fp L2) buf =? 1) eqn:Ew;
        simpl in H; [|discriminate].
      apply bind_ret_inv in H as (L3 & s3 & Hg & H).
      unfold get_log in Hg. simpl in Hg. rewrite HL2 in Hg.
      injection Hg as <- <-.
      unfold set_log, mbind, M_bind, mret, M_ret in H. simpl in H.
      injection H as <-. simpl. split; [rewrite Hr2; exact Kr|].
      eexists. rewrite lookup_insert_eq. split; [reflexivity|].
      split; [simpl; congruence|].
      unfold buffered. simpl. rewrite Hb2, Hb1.
      rewrite (Hz ltac:(congruence)). simpl.
      rewrite written_snoc, Ew, Hw, app_nil_r.
      rewrite bool_decide_eq_true_2 by congruence. simpl.
      rewrite <- app_assoc. reflexivity.
Qed.

Lemma logfwrite_bytes (l : ptr) (buf : list byte) (s s' : State) (L : Log) :
  wf cap s -> heap s !! l = Some L ->
  logfwrite os cap ivl (logfile_reopen os) l buf s = Ret 1 s' ->
  logroot s' = logroot s
  /\ exists L', heap s' !! l = Some L' /\ fp L' = fp L
                /\ written (fp L) (trace s') ++ buffered L'
                   = written (fp L) (trace s) ++ buffered L ++ buf.
Proof.
  intros Hwf HL H. destruct (buffer L) as [b|] eqn:Hb.
  - exact (logfwrite_bytes_allocated l buf s s' L b Hwf HL Hb H).
  - pose proof Hwf as (_ & _ & Hok). destruct (Hok l L HL) as [Hoc Hbuf].
    rewrite (logfwrite_unallocated os cap ivl _ l buf s L HL Hb) in H.
    assert (buffered L = []) as HbL by (unfold buffered; rewrite Hb; reflexivity).
    unfold sys_alloc, mbind, M_bind, get_state, emit, mret, M_ret, set_log in H.
    simpl in H. destruct (os_alloc os (trace s)); simpl in H.
    + eapply logfwrite_bytes_allocated in H;
        [|eapply wf_set; [exact Hwf | exact HL|]
         |simpl; rewrite lookup_insert_eq; reflexivity | reflexivity].
      * simpl in H. destruct H as (Hr & L' & HL' & Hfp & Hw).
        split; [exact Hr|]. exists L'. split; [exact HL'|].
        split; [exact Hfp|]. rewrite Hw, written_app, HbL. simpl.
        rewrite app_nil_r. reflexivity.
      * split; [exact Hoc|]. unfold buf_ok. simpl.
        rewrite length_replicate. split; [reflexivity | lia].
    + unfold sys_fwrite, mbind, M_bind, get_state, emit, mret, M_ret in H.
      simpl in H. injection H as Hw <-. simpl. split; [reflexivity|].
      exists L. split; [exact HL|]. split; [reflexivity|].
      rewrite <- app_assoc. simpl. rewrite written_app. simpl.
      rewrite Hw, bool_decide_eq_true_2 by reflexivity. simpl.
      rewrite HbL, !app_nil_r. reflexivity.
Qed.

Lemma logfwrite_each_bytes (l : ptr) (cs : list (list byte)) :
  forall (s s' : State) (rs : list Z) (L : Log),
    wf cap s -> heap s !! l = Some L ->
    logfwrite_each os cap ivl (logfile_reopen os) l cs s = Ret rs s' ->
    Forall (fun r => r = 1) rs ->
    wf cap s' /\ logroot s' = logroot s
    /\ exists L', heap s' !! l = Some L' /\ fp L' = fp L
                  /\ written (fp L) (trace s') ++ buffered L'
                     = written (fp L) (trace s) ++ buffered L ++ concat cs.
Proof.
  induction cs as [|c cs IH]; intros s s' rs L Hwf HL H Hall; simpl in H.
  - injection H as <- <-. split; [exact Hwf|]. split; [reflexivity|].
    exists L. split; [exact HL|]. split; [reflexivity|].
    simpl. rewrite app_nil_r. reflexivity.
  - apply bind_ret_inv in H as (r & s1 & Hrun & H).
    apply bind_ret_inv in H as (rs' & s2 & Hrest & H).
    unfold mret, M_ret in H. injection H as <- <-.
    apply Forall_cons in Hall as [-> Hall].
    assert (l ∈ logroot s) as Hin.
    { destruct Hwf as (_ & Hreg & _). apply Hreg. eauto. }
    pose proof (logfwrite_wf os cap ivl True (fun _ _ _ _ => I) l c s Hwf Hin)
      as P.
    rewrite Hrun in P. destruct P as [Hwf1 _].
    destruct (logfwrite_bytes l c s s1 L Hwf HL Hrun)
      as (Hr1 & L1 & HL1 & Hfp1 & Hw1).
    destruct (IH s1 s2 rs' L1 Hwf1 HL1 Hrest Hall)
      as (Hwf2 & Hr2 & L2 & HL2 & Hfp2 & Hw2).
    split; [exact Hwf2|]. split; [congruence|].
    exists L2. split; [exact HL2|]. split; [congruence|].
    rewrite Hfp1 in Hw2. rewrite Hw2. simpl.
    rewrite !app_assoc. rewrite <- (app_assoc _ (buffered L) c), <- Hw1.
    reflexivity.
Qed.

Lemma flush_one_bytes (l : ptr) (s s' : State) (r : Z) (L : Log) :
  wf cap s -> heap s !! l = Some L ->
  flush_one os ivl (logfile_reopen os) l s = Ret (Some r) s' ->
  (r = 0 \/ r = -1)
  /\ logroot s' = logroot s
  /\ exists L', heap s' !! l = Some L' /\ fp L' = fp L /\ buffered L' = []
                /\ written (fp L) (trace s')
                   = written (fp L) (trace s) ++ buffered L
                /\ last (trace s') = Some (EvFflush (fp L) r).
Proof.
  unfold flush_one. intros Hwf HL H.
  apply bind_ret_inv in H as (c & s1 & Hc & H).
  destruct c; [discriminate|].
  destruct (check_and_reopen_ok os ivl l s s1 L HL Hc) as [K Q].
  pose proof K as (Kr & _ & Kl). destruct (Kl L HL) as (L1 & HL1 & HS).
  assert (wf cap s1) as Hwf1.
  { eapply wf_keeps; [apply same_but_stat_log_ok | exact Hwf | exact HL
                     | exact K]. }
  pose proof HS as (Sfp & _ & _ & _ & _ & Sb & Sl).
  assert (buffered L1 = buffered L) as HbL
    by (unfold buffered; rewrite Sb, Sl; reflexivity).
  apply bind_ret_inv in H as (r1 & s2 & Hrun & H).
  destruct (flush_log_buffer_wf os cap l s1 L1 Hwf1 HL1)
    as (r' & s2' & L2 & Hrun' & Hr & Hwf2 & Hr2 & HL2 & Hb2 & Hfp2 & Hz).
  rewrite Hrun in Hrun'. injection Hrun' as <- <-.
  destruct Hr as [-> | ->]; simpl in H; [|discriminate].
  destruct (flush_log_buffer_drains os l s1 L1 HL1)
    as (r' & s2' & Hrun' & Hw).
  rewrite Hrun in Hrun'. injection Hrun' as <- <-. specialize (Hw eq_refl).
  rewrite Sfp, HbL, (quiet_ext_written (fp L) s s1 Q) in Hw.
  unfold sys_fflush, mbind, M_bind, get_state, emit, mret, M_ret,
    get_log, set_log in H. simpl in H. rewrite HL2 in H. simpl in H.
  rewrite HL2 in H. injection H as Hres <-. simpl.
  split; [subst r; destruct (os_fflush _ _ _); auto|].
  split; [rewrite Hr2; exact Kr|].
  eexists. rewrite lookup_insert_eq. split; [reflexivity|].
  split; [simpl; congruence|]. split.
  { unfold buffered. simpl. destruct (buffer L2) as [b2|] eqn:E; [|reflexivity].
    rewrite Hz by (rewrite <- Hb2; discriminate). reflexivity. }
  split.
  - rewrite written_app. simpl. rewrite app_nil_r. exact Hw.
  - rewrite last_snoc. rewrite Hres, Hfp2, Sfp. reflexivity.
Qed.

(** X7: the bytes a Log was handed are neither lost nor repeated nor
    reordered.  After any run of logfwrite calls that all returned 1
    (whichever path each took: stored, drained then stored, written
    straight through, or written unbuffered for want of memory), what
    the stream has received followed by what sits in the buffer is what
    it was before followed by the chunks; and a logfflush of the Log
    that then returns 0 leaves the buffer empty and all of it in the
    stream. *)
Theorem buffered_bytes_reach_the_stream (l : ptr) (cs : list (list byte))
    (s s1 : State) (rs : list Z) (L : Log) :
  wf cap s -> heap s !! l = Some L ->
  logfwrite_each os cap ivl (logfile_reopen os) l cs s = Ret rs s1 ->
  Forall (fun r => r = 1) rs ->
  (exists L1, heap s1 !! l = Some L1 /\ fp L1 = fp L
              /\ written (fp L) (trace s1) ++ buffered L1
                 = written (fp L) (trace s) ++ buffered L ++ concat cs)
  /\ forall s2,
       logfflush os ivl (logfile_reopen os) (Some l) s1 = Ret 0 s2 ->
       written (fp L) (trace s2)
       = written (fp L) (trace s) ++ buffered L ++ concat cs
       /\ exists L2, heap s2 !! l = Some L2 /\ buffered L2 = [].
Proof.
  intros Hwf HL Hrun Hall.
  destruct (logfwrite_each_bytes l cs s s1 rs L Hwf HL Hrun Hall)
    as (Hwf1 & _ & L1 & HL1 & Hfp1 & Hw1).
  split; [exists L1; auto|].
  intros s2 H. unfold logfflush in H.
  apply bind_ret_inv in H as (o & s2' & Hfl & H).
  destruct o as [r|]; unfold mret, M_ret in H; [|discriminate].
  injection H as -> <-.
  destruct (flush_one_bytes l s1 s2' 0 L1 Hwf1 HL1 Hfl)
    as (_ & _ & L2 & HL2 & _ & Hb2 & Hw2 & _).
  rewrite Hfp1 in Hw2. rewrite Hw2, Hw1.
  split; [reflexivity|]. exists L2. auto.
Qed.


End Bytes.

(** ** Looking Logs up by name *)

Section Registry.

Variable os : OS.
Variable cap : nat.   (* LOG_BUFFER_SIZE *)
Variable ivl : Z.     (* LOG_STAT_CHECK_INTERVAL *)

(** X9: islogfile only reads.  In a well-formed registry it returns, leaves
    the state as it found it, and answers 1 exactly when the registry is
    not empty (no name given) or holds a Log of that name, else 0. *)
Theorem islogfile_reads_registry (nm : option string) (s : State) :
  wf cap s ->
  exists v,
    islogfile nm s = Ret v s
    /\ (v = 0 \/ v = 1)
    /\ (v = 1 <->
        match nm with
        | None => logroot s <> []
        | Some n => exists l L, l ∈ logroot s /\ heap s !! l = Some L
                                /\ name L = n
        end).
Proof.
  intros (_ & Hreg & _). destruct nm as [n|]; unfold islogfile.
  - destruct (lookup_from_wf n s (logroot s)) as (r & Hrun & Hr).
    { intros p Hp. apply Hreg. exact Hp. }
    unfold lookup_logfile, mbind, M_bind, get_state, mret, M_ret.
    rewrite Hrun. destruct r as [l|].
    + exists 1. split; [reflexivity|]. split; [auto|].
      split; [intros _|reflexivity].
      destruct Hr as (Hin & L & HL & Hn). exists l, L. auto.
    + exists 0. split; [reflexivity|]. split; [auto|].
      split; [discriminate|]. intros (l & L & Hin & HL & Hn).
      destruct (Hr l Hin) as (L' & HL' & Hne). congruence.
  - unfold mbind, M_bind, get_state, mret, M_ret.
    destruct (logroot s) as [|l ls].
    + exists 0. split; [reflexivity|]. split; [auto|].
      split; [discriminate | congruence].
    + exists 1. split; [reflexivity|]. split; [auto|].
      split; [discriminate | reflexivity].
Qed.

(** X10: logfopen with a stream never joins a Log that is already there,
    not even one of the same name: when its three allocations succeed it
    registers a new Log in front of the registry and leaves every Log
    that was registered as it was.  From then on the name resolves to
    the new Log: islogfile finds it, and an open by name joins it (count
    2) and not an older Log of that name. *)
Theorem logfopen_newest_shadows (nm : string) (f : FILE) (s : State) :
  wf cap s -> alloc3 os (trace s) = true ->
  exists l s1,
    logfopen os ivl nm (Some f) s = Ret (Some l) s1
    /\ (l ∉ logroot s) /\ logroot s1 = l :: logroot s
    /\ (forall p, p ∈ logroot s -> heap s1 !! p = heap s !! p)
    /\ islogfile (Some nm) s1 = Ret 1 s1
    /\ exists s2 L2,
         logfopen os ivl nm None s1 = Ret (Some l) s2
         /\ heap s2 !! l = Some L2 /\ opencount L2 = 2 /\ fp L2 = f
         /\ logroot s2 = logroot s1
         /\ (forall p, p ∈ logroot s -> heap s2 !! p = heap s !! p).
Proof.
  intros Hwf Ha. pose proof Hwf as (_ & Hreg & _).
  pose proof (new_address_fresh s) as Hfresh.
  assert (new_address s ∉ logroot s) as Hnin.
  { intros Hin. apply Hreg in Hin as [x Hx]. congruence. }
  assert (forall p, p ∈ logroot s -> p <> new_address s) as Hne.
  { intros p Hp ->. exact (Hnin Hp). }
  set (tr := trace s ++ [EvAlloc true; EvAlloc true; EvAlloc true]).
  set (Lnew := set_st (opened_stat (os_fstat os tr (fileno f)))
                      (new_log ivl nm f)).
  set (s1 := mkState (new_address s :: logroot s)
                     (<[new_address s := Lnew]> (heap s))
                     (tr ++ [EvFstat (fileno f) (os_fstat os tr (fileno f))])).
  exists (new_address s), s1.
  split; [exact (logfopen_new os ivl nm f s Ha)|].
  split; [exact Hnin|]. split; [reflexivity|].
  split.
  { intros p Hp. apply lookup_insert_ne. intros E. exact (Hne p Hp (eq_sym E)). }
  assert (heap s1 !! new_address s = Some Lnew) as HLn
    by (simpl; apply lookup_insert_eq).
  assert (lookup_from nm (logroot s1) s1 = Ret (Some (new_address s)) s1) as Hlk.
  { apply (lookup_from_found nm s1 [] (logroot s) (new_address s) Lnew);
      [|exact HLn | reflexivity].
    intros p Hp. inversion Hp. }
  split.
  { unfold islogfile, lookup_logfile, mbind, M_bind, get_state, mret, M_ret.
    rewrite Hlk. reflexivity. }
  rewrite (logfopen_join os ivl nm s1 [] (logroot s) (new_address s) Lnew);
    [|reflexivity | intros p Hp; inversion Hp | exact HLn | reflexivity].
  eexists _, _. split; [reflexivity|]. simpl.
  rewrite lookup_insert_eq. split; [reflexivity|].
  split; [reflexivity|]. split; [reflexivity|]. split; [reflexivity|].
  intros p Hp. rewrite !lookup_insert_ne; [reflexivity| |];
    intros E; exact (Hne p Hp (eq_sym E)).
Qed.

End Registry.

(** ** A reopen that succeeds *)

Section ReopenSuccess.

Variable os : OS.

Lemma changed_logfile_trace (l : ptr) (s s' : State) (L : Log) :
  heap s !! l = Some L -> changed_logfile os l s = Ret tt s' ->
  trace s' = trace s ++ [EvFstat (fileno (fp L))
                                 (os_fstat os (trace s) (fileno (fp L)))].
Proof.
  intros HL H. unfold changed_logfile, sys_fstat, mbind, M_bind, get_state,
    emit, mret, M_ret, get_log, set_log in H. rewrite HL in H. simpl in H.
  destruct (os_fstat os (trace s) (fileno (fp L))) as [o|].
  - destruct (st_size (st L) <? st_size o); injection H as <-; reflexivity.
  - injection H as <-. reflexivity.
Qed.

(** X11: logfile_reopen returns 0 or -1 only.  When it returns 0 the Log
    is still registered with its stream, counts and buffer untouched,
    nothing was written, and the calls it made are: close(wantfd), an
    open of the name that did not fail, the relocation of the descriptor
    open returned, and one fstat.  The descriptor number the stream
    carries is then the new file's: open itself returned wantfd or a dup
    did; the descriptor open returned, if another, was closed, and so
    was every descriptor a dup returned on the way. *)
Theorem logfile_reopen_success (nm : string) (fd : Z) (l : ptr)
    (s s' : State) (r : Z) (L : Log) :
  heap s !! l = Some L ->
  logfile_reopen os nm fd l s = Ret r s' ->
  (r = 0 \/ r = -1)
  /\ (r = 0 ->
      let got := got_fd os nm fd s in
      keeps l same_but_stat s s'
      /\ 0 <= got
      /\ exists ext q,
           trace s'
           = trace s ++ [EvClose fd; EvOpen nm got] ++ ext
             ++ [EvFstat (fileno (fp L)) q]
           /\ forallb (fun e => negb (is_fwrite e)) ext = true
           /\ (got = fd \/ exists x, EvDup x fd ∈ ext)
           /\ (got <> fd -> EvClose got ∈ ext)
           /\ (forall x d, EvDup x d ∈ ext -> d = fd \/ EvClose d ∈ ext)).
Proof.
  intros HL H. rewrite logfile_reopen_unfold in H. simpl in H.
  set (s0 := after_open os nm fd s) in *.
  apply bind_ret_inv in H as (failed & s1 & Hf & H).
  destruct failed.
  { apply bind_ret_inv in H as (v & s2 & _ & H).
    unfold mret, M_ret in H. injection H as <- _.
    split; [auto | discriminate]. }
  apply bind_ret_inv in H as ([] & s2 & Hch & H).
  unfold mret, M_ret in H. injection H as <- <-.
  split; [auto|]. intros _. simpl.
  destruct (got_fd os nm fd s <? 0) eqn:Eg.
  { unfold mret, M_ret in Hf. discriminate. }
  apply Z.ltb_ge in Eg.
  apply bind_ret_inv in Hf as (r0 & s1' & Hmv & Hf).
  unfold mret, M_ret in Hf. injection Hf as Hr0 <-.
  apply Z.ltb_ge in Hr0.
  pose proof (lf_move_fd_rec_frame os (S (Z.to_nat fd)) (got_fd os nm fd s)
                fd s0) as F.
  unfold lf_move_fd in Hmv. rewrite Hmv in F. destruct F as (Hh & Hr & Q).
  destruct (lf_move_fd_rec_calls os fd _ _ s0 s1' r0 Hmv)
    as (_ & ext & Htr & Hcl & _ & Hdup & Hgot).
  assert (heap s1' !! l = Some L) as HL1 by (rewrite Hh; exact HL).
  destruct (changed_logfile_keeps os l s1' L HL1) as (s2' & Hch' & K & _).
  rewrite Hch in Hch'. injection Hch' as <-.
  split.
  { destruct K as (Kr & Ko & Kl). split; [rewrite Kr, Hr; reflexivity|].
    split.
    - intros p Hp. rewrite (Ko p Hp), Hh. reflexivity.
    - intros L0 HL0. apply Kl. rewrite Hh. exact HL0. }
  split; [exact Eg|].
  exists ext, (os_fstat os (trace s1') (fileno (fp L))).
  split.
  { rewrite (changed_logfile_trace l s1' s2 L HL1 Hch), Htr.
    unfold s0, after_open. simpl. rewrite <- !app_assoc. reflexivity. }
  split.
  { destruct Q as (ext' & Htr' & Hq). rewrite Htr in Htr'.
    apply app_inv_head in Htr'. subst ext'. exact Hq. }
  split; [apply Hgot; lia|]. split; [exact Hcl | exact Hdup].
Qed.

End ReopenSuccess.

(** ** Draining the buffer *)

Section Drain.

Variable os : OS.
Variable cap : nat.   (* LOG_BUFFER_SIZE *)


End Drain.

(** ** A flush of every Log that succeeds *)

Section FlushAllOk.

Variable os : OS.
Variable cap : nat.   (* LOG_BUFFER_SIZE *)
Variable ivl : Z.     (* LOG_STAT_CHECK_INTERVAL *)

Lemma flush_log_buffer_ext (l : ptr) (s s' : State) (L : Log) (r : Z) :
  heap s !! l = Some L -> flush_log_buffer os l s = Ret r s' ->
  exists ext, trace s' = trace s ++ ext.
Proof.
  intros HL H. destruct (buffer L) as [b|] eqn:Hb.
  - destruct (Nat.eq_dec (buflen L) 0%nat) as [E|E].
    + rewrite (flush_log_buffer_empty os l s L HL) in H by (right; exact E).
      injection H as _ <-. exists []. rewrite app_nil_r. reflexivity.
    + rewrite (flush_log_buffer_run os l s L HL) in H by congruence.
      injection H as _ <-. eexists. reflexivity.
  - rewrite (flush_log_buffer_empty os l s L HL) in H by (left; exact Hb).
    injection H as _ <-. exists []. rewrite app_nil_r. reflexivity.
Qed.

Lemma flush_one_ext (l : ptr) (s s' : State) (r : Z) (L : Log) :
  heap s !! l = Some L ->
  flush_one os ivl (logfile_reopen os) l s = Ret (Some r) s' ->
  exists ext, trace s' = trace s ++ ext ++ [EvFflush (fp L) r].
Proof.
  unfold flush_one. intros HL H.
  apply bind_ret_inv in H as (c & s1 & Hc & H).
  destruct c; [discriminate|].
  destruct (check_and_reopen_ok os ivl l s s1 L HL Hc)
    as [(_ & _ & Kl) (ext1 & Ht1 & _)].
  destruct (Kl L HL) as (L1 & HL1 & (Sfp & _)).
  apply bind_ret_inv in H as (r1 & s2 & Hrun & H).
  destruct (flush_log_buffer_ext l s1 s2 L1 r1 HL1 Hrun) as (ext2 & Ht2).
  destruct (r1 <? 0); [discriminate|].
  assert (exists L2, heap s2 !! l = Some L2 /\ fp L2 = fp L1) as (L2 & HL2 & Hfp2).
  { destruct (flush_log_buffer_upd os l s1 s2 r1 Hrun) as [_ Hu].
    destruct (buffer L1) as [b|] eqn:Hb.
    - destruct (Nat.eq_dec (buflen L1) 0%nat) as [E|E].
      + rewrite (flush_log_buffer_empty os l s1 L1 HL1) in Hrun
          by (right; exact E).
        injection Hrun as _ <-. eauto.
      + rewrite (flush_log_buffer_run os l s1 L1 HL1) in Hrun by congruence.
        injection Hrun as _ <-. simpl. eexists. rewrite lookup_insert_eq.
        split; [reflexivity|]. destruct (_ =? 1); reflexivity.
    - rewrite (flush_log_buffer_empty os l s1 L1 HL1) in Hrun
        by (left; exact Hb).
      injection Hrun as _ <-. eauto. }
  unfold sys_fflush, mbind, M_bind, get_state, emit, mret, M_ret,
    get_log, set_log in H. simpl in H. rewrite HL2 in H. simpl in H.
  rewrite HL2 in H. injection H as Hres <-. simpl.
  exists (ext1 ++ ext2). rewrite <- Hres, Hfp2, Sfp, Ht2, Ht1.
  rewrite <- !app_assoc. reflexivity.
Qed.

Lemma flush_loop_ok (ls : list ptr) :
  forall (r r' : Z) (s s' : State),
    wf cap s -> NoDup ls -> (forall p, p ∈ ls -> p ∈ logroot s) ->
    flush_loop os ivl (logfile_reopen os) ls r s = Ret (Some r') s' ->
    wf cap s' /\ logroot s' = logroot s
    /\ (r' = 0 -> r = 0)
    /\ exists ext,
         trace s' = trace s ++ ext
         /\ (r' = 0 ->
             forall p L, p ∈ ls -> heap s !! p = Some L ->
                         EvFflush (fp L) 0 ∈ ext).
Proof.
  induction ls as [|l ls IH]; intros r r' s s' Hwf Hnd Hin H; simpl in H.
  - unfold mret, M_ret in H. injection H as <- <-.
    split; [exact Hwf|]. split; [reflexivity|]. split; [auto|].
    exists []. rewrite app_nil_r. split; [reflexivity|].
    intros _ p L Hp. inversion Hp.
  - apply bind_ret_inv in H as (o & s1 & Hone & H).
    destruct o as [r1|]; [|discriminate].
    apply NoDup_cons in Hnd as [Hnl Hnd].
    assert (l ∈ logroot s) as Hl by (apply Hin; apply list_elem_of_here).
    destruct (wf_live cap s l Hwf Hl) as (L & HL & _).
    pose proof (flush_one_wf os cap ivl True (fun _ _ _ _ => I) l s Hwf Hl) as P.
    rewrite Hone in P. destruct P as [Hwf1 Hr1]. specialize (Hr1 ltac:(eauto)).
    destruct (flush_one_ext l s s1 r1 L HL Hone) as (ext1 & Ht1).
    destruct (flush_one_upd os ivl l s s1 _ Hone) as [Hoth _].
    destruct (IH (Z.lor r r1) r' s1 s' Hwf1 Hnd) as (Hwf' & Hr' & Hz & ext' & Ht' & Hall);
      [|exact H|].
    { intros p Hp. rewrite Hr1. apply Hin. apply list_elem_of_further. exact Hp. }
    split; [exact Hwf'|]. split; [congruence|].
    split; [intros E; apply Hz in E; apply Z.lor_eq_0_iff in E; tauto|].
    exists ((ext1 ++ [EvFflush (fp L) r1]) ++ ext').
    split; [rewrite Ht', Ht1, <- !app_assoc; reflexivity|].
    intros E p Lp Hp HLp.
    pose proof (Hz E) as E1. apply Z.lor_eq_0_iff in E1 as [_ ->].
    apply elem_of_cons in Hp as [->|Hp].
    + rewrite HL in HLp. injection HLp as <-.
      apply elem_of_app. left. apply elem_of_app. right.
      apply list_elem_of_here.
    + apply elem_of_app. right. apply (Hall E p Lp Hp).
      rewrite Hoth; [exact HLp|]. intros ->. exact (Hnl Hp).
Qed.

(** X13: when logfflush(NULL) returns 0 it went through the whole
    registry: every registered Log is still registered, has an empty
    buffer and one more flush counted, and fflush was called on its
    stream and succeeded. *)
Theorem logfflush_all_success (s s' : State) :
  wf cap s ->
  logfflush os ivl (logfile_reopen os) None s = Ret 0 s' ->
  wf cap s' /\ logroot s' = logroot s
  /\ exists ext,
       trace s' = trace s ++ ext
       /\ forall p L,
            p ∈ logroot s -> heap s !! p = Some L ->
            (EvFflush (fp L) 0 ∈ ext)
            /\ exists L', heap s' !! p = Some L' /\ buffered L' = []
                          /\ flushcount L' = flushcount L + 1.
Proof.
  intros Hwf H. unfold logfflush in H.
  apply bind_ret_inv in H as (o & s1 & Hloop & H).
  destruct o as [r|]; unfold mret, M_ret in H; [|discriminate].
  injection H as -> <-.
  unfold mbind, M_bind, get_state in Hloop.
  pose proof Hwf as (Hnd & _).
  destruct (flush_loop_ok (logroot s) 0 0 s s1 Hwf Hnd (fun p H => H) Hloop)
    as (Hwf' & Hr' & _ & ext & Ht & Hall).
  destruct (flush_loop_some os ivl (logroot s) 0 0 s s1 Hnd Hloop) as [_ Hdr].
  split; [exact Hwf'|]. split; [exact Hr'|].
  exists ext. split; [exact Ht|]. intros p L Hp HL.
  split; [exact (Hall eq_refl p L Hp HL) | exact (Hdr p L Hp HL)].
Qed.

End FlushAllOk.

(** ** A call on one Log leaves the others alone *)

Section Isolation.

Variable os : OS.
Variable cap : nat.   (* LOG_BUFFER_SIZE *)
Variable ivl : Z.     (* LOG_STAT_CHECK_INTERVAL *)

Lemma only_refl (l : ptr) (f : FILE) (s : State) : only l f s s.
Proof. split; [intros p _; split; reflexivity | reflexivity]. Qed.

Lemma only_trans (l : ptr) (f : FILE) (s s1 s2 : State) :
  only l f s s1 -> only l f s1 s2 -> only l f s s2.
Proof.
  intros [H1 W1] [H2 W2]. split.
  - intros p Hp. destruct (H1 p Hp) as [E1 R1]. destruct (H2 p Hp) as [E2 R2].
    split; [congruence | tauto].
  - intros g Hg. rewrite (W2 g Hg). exact (W1 g Hg).
Qed.

Lemma only_upd (l : ptr) (f : FILE) (s : State) (h : gmap ptr Log)
    (tr : list event) :
  (forall p, p <> l -> h !! p = heap s !! p) ->
  (forall g, g <> f -> written g tr = written g (trace s)) ->
  only l f s (mkState (logroot s) h tr).
Proof.
  intros Hh Hw. split; [|exact Hw].
  intros p Hp. split; [exact (Hh p Hp) | reflexivity].
Qed.

Lemma only_keeps (l : ptr) (f : FILE) (R : Log -> Log -> Prop) (s s' : State) :
  keeps l R s s' -> quiet_ext s s' -> only l f s s'.
Proof.
  intros (Kr & Ko & _) Q. split.
  - intros p Hp. rewrite Kr. split; [exact (Ko p Hp) | reflexivity].
  - intros g _. exact (quiet_ext_written g s s' Q).
Qed.

Lemma only_frame (l : ptr) (f : FILE) (s s' : State) :
  heap s' = heap s -> logroot s' = logroot s -> quiet_ext s s' ->
  only l f s s'.
Proof.
  intros Hh Hr Q. split.
  - intros p _. rewrite Hh, Hr. split; reflexivity.
  - intros g _. exact (quiet_ext_written g s s' Q).
Qed.

Lemma written_other (f g : FILE) (tr : list event) (data : list byte) (r : Z) :
  g <> f -> written g (tr ++ [EvFwrite f data r]) = written g tr.
Proof.
  intros Hg. rewrite written_app. simpl.
  rewrite bool_decide_eq_false_2 by congruence. simpl. apply app_nil_r.
Qed.

Lemma logfclose_only (l : ptr) (s s' : State) (v : Z) (L : Log) :
  heap s !! l = Some L -> logfclose os l s = Ret v s' -> only l (fp L) s s'.
Proof.
  intros HL H. destruct (decide (l ∈ logroot s)) as [Hin|Hnin].
  - destruct (Z.lt_trichotomy (opencount L) 1) as [Hlt|[E|Hgt]].
    + rewrite (logfclose_abort os l s L Hin HL Hlt) in H. discriminate.
    + rewrite (logfclose_last os l s L Hin HL E) in H. injection H as _ <-.
      split.
      * intros p Hp. simpl. rewrite lookup_delete_ne by congruence.
        split; [reflexivity | apply unlink_elem_ne; exact Hp].
      * intros g Hg. simpl. rewrite written_app.
        replace (written g (close_calls os (trace s) L)) with (@nil byte);
          [apply app_nil_r|].
        unfold close_calls. destruct (buffer L) as [b|]; [|reflexivity].
        destruct (0 <? buflen L)%nat; [|reflexivity]. simpl.
        rewrite bool_decide_eq_false_2 by congruence. reflexivity.
    + rewrite (logfclose_shared os l s L Hin HL Hgt) in H. injection H as _ <-.
      apply only_upd; [|reflexivity].
      intros p Hp. apply lookup_insert_ne. congruence.
  - rewrite (logfclose_unregistered os l s Hnin) in H. injection H as _ <-.
    apply only_refl.
Qed.

Lemma check_and_reopen_only (l : ptr) (s s' : State) (c : bool) (L : Log) :
  heap s !! l = Some L ->
  check_and_reopen os ivl (logfile_reopen os) l s = Ret c s' ->
  only l (fp L) s s'.
Proof.
  intros HL H.
  destruct (check_and_reopen_inv os ivl _ l s s' L c HL H)
    as (v & s1 & L1 & _ & K & Q & HL1 & HS & Hcase).
  pose proof (only_keeps l (fp L) _ s s1 K Q) as O1.
  destruct Hcase as [(_ & _ & ->)|(_ & r & Hre & _)]; [exact O1|].
  apply (only_trans l (fp L) s s1 s'); [exact O1|].
  destruct (logfile_reopen_inv os _ _ l s1 s' r Hre)
    as [(_ & s2 & w & Hf & Hcl)|(_ & s2 & Hh & Hr & Q2 & Hch)].
  - destruct (reopen_fails_frame os _ _ s1 s2 Hf) as (Hh & Hr & Q2).
    apply (only_trans l (fp L) s1 s2 s');
      [exact (only_frame l (fp L) s1 s2 Hh Hr Q2)|].
    destruct HS as (Sfp & _). rewrite <- Sfp.
    apply (logfclose_only l s2 s' w L1); [rewrite Hh; exact HL1 | exact Hcl].
  - apply (only_trans l (fp L) s1 s2 s');
      [exact (only_frame l (fp L) s1 s2 Hh Hr Q2)|].
    assert (heap s2 !! l = Some L1) as HL2 by (rewrite Hh; exact HL1).
    destruct (changed_logfile_keeps os l s2 L1 HL2) as (s3 & Hch' & K3 & Q3).
    rewrite Hch in Hch'. injection Hch' as <-.
    exact (only_keeps l (fp L) _ s2 s' K3 Q3).
Qed.

Lemma flush_log_buffer_only (l : ptr) (s s' : State) (r : Z) (L : Log) :
  heap s !! l = Some L -> flush_log_buffer os l s = Ret r s' ->
  only l (fp L) s s'
  /\ exists L', heap s' !! l = Some L' /\ fp L' = fp L
                /\ buffer L' = buffer L.
Proof.
  intros HL H.
  assert (buffer L = None \/ buflen L = 0%nat
          \/ (buffer L <> None /\ buflen L <> 0%nat)) as [E|[E|[E1 E2]]].
  { destruct (buffer L); [|auto]. destruct (Nat.eq_dec (buflen L) 0%nat); [auto|].
    right. right. split; [discriminate | assumption]. }
  - rewrite (flush_log_buffer_empty os l s L HL) in H by (left; exact E).
    injection H as _ <-. split; [apply only_refl | eauto].
  - rewrite (flush_log_buffer_empty os l s L HL) in H by (right; exact E).
    injection H as _ <-. split; [apply only_refl | eauto].
  - rewrite (flush_log_buffer_run os l s L HL E1 E2) in H.
    injection H as _ <-. split.
    + apply only_upd.
      * intros p Hp. apply lookup_insert_ne. congruence.
      * intros g Hg. apply written_other. exact Hg.
    + simpl. eexists. rewrite lookup_insert_eq. split; [reflexivity|].
      destruct (_ =? 1); split; reflexivity.
Qed.

Lemma logfwrite_only_allocated (l : ptr) (buf : list byte) (s s' : State)
    (r : Z) (L : Log) (b : list byte) :
  heap s !! l = Some L -> buffer L = Some b ->
  logfwrite os cap ivl (logfile_reopen os) l buf s = Ret r s' ->
  only l (fp L) s s'.
Proof.
  intros HL Hb H.
  destruct (le_lt_dec (buflen L + length buf) cap) as [Hfit|Hover].
  - rewrite (logfwrite_fits os cap ivl _ l buf s L b HL Hb Hfit) in H.
    injection H as _ <-. apply only_upd; [|reflexivity].
    intros p Hp. apply lookup_insert_ne. congruence.
  - rewrite (logfwrite_overflows os cap ivl _ l buf s L b HL Hb Hover) in H.
    destruct (check_and_reopen os ivl (logfile_reopen os) l s)
      as [c s1| | |] eqn:Hc; try discriminate.
    pose proof (check_and_reopen_only l s s1 c L HL Hc) as O1.
    destruct c; [injection H as _ <-; exact O1|].
    destruct (check_and_reopen_ok os ivl l s s1 L HL Hc) as [(_ & _ & Kl) _].
    destruct (Kl L HL) as (L1 & HL1 & (Sfp & _)).
    apply bind_ret_inv in H as (r1 & s2 & Hrun & H).
    destruct (flush_log_buffer_only l s1 s2 r1 L1 HL1 Hrun)
      as (O2 & L2 & HL2 & Hfp2 & _).
    rewrite Sfp in O2, Hfp2.
    pose proof (only_trans l (fp L) s s1 s2 O1 O2) as O.
    destruct (r1 <? 0); [injection H as _ <-; exact O|].
    apply bind_ret_inv in H as (L2' & s2' & Hg & H).
    unfold get_log in Hg. rewrite HL2 in Hg. injection Hg as <- <-.
    apply (only_trans l (fp L) s s2 s' O).
    destruct (length buf <=? cap)%nat.
    + unfold set_log, mbind, M_bind, mret, M_ret in H. simpl in H.
      injection H as _ <-. apply only_upd; [|reflexivity].
      intros p Hp. apply lookup_insert_ne. congruence.
    + unfold sys_fwrite, set_log, get_log, get_state, emit, mbind, M_bind,
        mret, M_ret in H. simpl in H.
      destruct (fwrite_result os (trace s2) (fp L2) buf =? 1); simpl in H.
      * rewrite HL2 in H. injection H as _ <-. apply only_upd.
        -- intros p Hp. apply lookup_insert_ne. congruence.
        -- intros g Hg. apply written_other. congruence.
      * injection H as _ <-. apply only_upd; [reflexivity|].
        intros g Hg. apply written_other. congruence.
Qed.

Lemma logfwrite_only (l : ptr) (buf : list byte) (s s' : State)
    (r : Z) (L : Log) :
  heap s !! l = Some L ->
  logfwrite os cap ivl (logfile_reopen os) l buf s = Ret r s' ->
  only l (fp L) s s'.
Proof.
  intros HL H. destruct (buffer L) as [b|] eqn:Hb.
  - exact (logfwrite_only_allocated l buf s s' r L b HL Hb H).
  - rewrite (logfwrite_unallocated os cap ivl _ l buf s L HL Hb) in H.
    unfold sys_alloc, mbind, M_bind, get_state, emit, mret, M_ret, set_log in H.
    simpl in H. destruct (os_alloc os (trace s)); simpl in H.
    + eapply logfwrite_only_allocated in H;
        [|simpl; apply lookup_insert_eq | reflexivity].
      simpl in H. eapply only_trans; [|exact H].
      apply only_upd.
      * intros p Hp. apply lookup_insert_ne. congruence.
      * intros g _. rewrite written_app. simpl. apply app_nil_r.
    + unfold sys_fwrite, mbind, M_bind, get_state, emit, mret, M_ret in H.
      simpl in H. injection H as _ <-. apply only_upd; [reflexivity|].
      intros g Hg. rewrite <- app_assoc. simpl.
      rewrite written_app. simpl.
      rewrite bool_decide_eq_false_2 by congruence. simpl. apply app_nil_r.
Qed.

Lemma flush_one_only (l : ptr) (s s' : State) (o : option Z) (L : Log) :
  heap s !! l = Some L ->
  flush_one os ivl (logfile_reopen os) l s = Ret o s' ->
  only l (fp L) s s'.
Proof.
  unfold flush_one. intros HL H.
  apply bind_ret_inv in H as (c & s1 & Hc & H).
  pose proof (check_and_reopen_only l s s1 c L HL Hc) as O1.
  destruct c; [injection H as _ <-; exact O1|].
  destruct (check_and_reopen_ok os ivl l s s1 L HL Hc) as [(_ & _ & Kl) _].
  destruct (Kl L HL) as (L1 & HL1 & (Sfp & _)).
  apply bind_ret_inv in H as (r1 & s2 & Hrun & H).
  destruct (flush_log_buffer_only l s1 s2 r1 L1 HL1 Hrun)
    as (O2 & L2 & HL2 & Hfp2 & _).
  rewrite Sfp in O2, Hfp2.
  pose proof (only_trans l (fp L) s s1 s2 O1 O2) as O.
  destruct (r1 <? 0); [injection H as _ <-; exact O|].
  unfold sys_fflush, mbind, M_bind, get_state, emit, mret, M_ret,
    get_log, set_log in H. simpl in H. rewrite HL2 in H. simpl in H.
  rewrite HL2 in H. injection H as _ <-.
  apply (only_trans l (fp L) s s2 _ O). apply only_upd.
  - intros p Hp. apply lookup_insert_ne. congruence.
  - intros g _. rewrite written_app. simpl. apply app_nil_r.
Qed.

(** X14: logfclose, logfwrite and logfflush of one Log work on that Log
    only, also when they reopen its file or give the Log up: every other
    Log is left exactly as it was and stays in (or out of) the registry,
    and no stream but the Log's own receives a byte. *)
Theorem run_op_touches_only_its_log (o : op) (l : ptr) (s s' : State)
    (v : value) (L : Log) :
  target o = Some l -> heap s !! l = Some L ->
  run_op os cap ivl o s = Ret v s' ->
  (forall p, p <> l ->
     heap s' !! p = heap s !! p /\ (p ∈ logroot s' <-> p ∈ logroot s))
  /\ (forall g, g <> fp L -> written g (trace s') = written g (trace s)).
Proof.
  intros Ht HL H. change (only l (fp L) s s').
  destruct o as [nm f|l0|l0 buf|[l0|]]; simpl in Ht; try discriminate;
    injection Ht as ->; simpl in H;
    apply bind_ret_inv in H as (r & s1 & Hrun & H);
    unfold mret, M_ret in H; injection H as _ <-.
  - exact (logfclose_only l s s1 r L HL Hrun).
  - exact (logfwrite_only l buf s s1 r L HL Hrun).
  - unfold logfflush in Hrun.
    apply bind_ret_inv in Hrun as (o & s2 & Hone & Hrun).
    assert (s1 = s2) as ->.
    { destruct o; unfold mret, M_ret in Hrun; injection Hrun as _ <-;
        reflexivity. }
    exact (flush_one_only l s s2 o L HL Hone).
Qed.

End Isolation.

(** ** The detector after a reopen *)

Section DetectorAfterReopen.

Variable os : OS.

Lemma changed_logfile_cache (l : ptr) (s s' : State) (L : Log) :
  heap s !! l = Some L -> changed_logfile os l s = Ret tt s' ->
  exists L',
    heap s' !! l = Some L' /\ fp L' = fp L
    /\ st_dev (st L') = st_dev (st L) /\ st_ino (st L') = st_ino (st L)
    /\ st_nlink (st L') = st_nlink (st L)
    /\ st_ctime (st L') = st_ctime (st L)
    /\ st_size (st L) <= st_size (st L').
Proof.
  intros HL H. unfold changed_logfile, sys_fstat, mbind, M_bind, get_state,
    emit, mret, M_ret, get_log, set_log in H. rewrite HL in H. simpl in H.
  destruct (os_fstat os (trace s) (fileno (fp L))) as [o|].
  - destruct (st_size (st L) <? st_size o) eqn:E; injection H as <-; simpl.
    + apply Z.ltb_lt in E. eexists. rewrite lookup_insert_eq.
      split; [reflexivity|]. simpl. repeat (split; [reflexivity|]). lia.
    + exists L. split; [exact HL|]. repeat (split; [reflexivity|]). lia.
  - injection H as <-. exists L. split; [exact HL|].
    repeat (split; [reflexivity|]). lia.
Qed.

(** X15: a logfile_reopen that succeeds does not reinitialise the
    rotation detector.  The cached st_dev, st_ino, st_nlink and st_ctime
    stay those of the file that was replaced (they are not zeroed), and
    the cached size never shrinks; so as long as the new file is smaller
    than the old one was, the next stolen_logfile reports a theft
    again. *)
Theorem logfile_reopen_keeps_cached_identity (nm : string) (fd : Z) (l : ptr)
    (s s' : State) (L : Log) :
  heap s !! l = Some L ->
  logfile_reopen os nm fd l s = Ret 0 s' ->
  exists L',
    heap s' !! l = Some L' /\ fp L' = fp L
    /\ st_dev (st L') = st_dev (st L) /\ st_ino (st L') = st_ino (st L)
    /\ st_nlink (st L') = st_nlink (st L)
    /\ st_ctime (st L') = st_ctime (st L)
    /\ st_size (st L) <= st_size (st L')
    /\ (~ zero_ids (st L) ->
        forall n,
          os_fstat os (trace s') (fileno (fp L)) = Some n ->
          st_size n < st_size (st L) ->
          exists s'', stolen_logfile os l s' = Ret (-1) s'').
Proof.
  intros HL H.
  destruct (logfile_reopen_inv os nm fd l s s' 0 H)
    as [(E & _)|(_ & s1 & Hh & Hr & _ & Hch)]; [discriminate|].
  assert (heap s1 !! l = Some L) as HL1 by (rewrite Hh; exact HL).
  destruct (changed_logfile_cache l s1 s' L HL1 Hch)
    as (L' & HL' & Hfp & Hdev & Hino & Hnl & Hct & Hsz).
  exists L'. do 7 (split; [assumption|]).
  intros Hz n Hn Hlt.
  rewrite (stolen_logfile_run os l s' L' HL'). rewrite Hfp, Hn. simpl.
  eexists.
  destruct ((st_dev (st L') =? 0) && (st_ino (st L') =? 0)) eqn:Ez.
  { exfalso. apply Hz. apply andb_true_iff in Ez as [E1 E2].
    apply Z.eqb_eq in E1, E2. split; congruence. }
  unfold stolen_test.
  replace (st_size n <? st_size (st L')) with true
    by (symmetry; apply Z.ltb_lt; lia).
  rewrite !orb_true_r. simpl. reflexivity.
Qed.

End DetectorAfterReopen.

(** ** Between two rotation checks *)

Section BetweenChecks.

Variable os : OS.
Variable cap : nat.   (* LOG_BUFFER_SIZE *)
Variable ivl : Z.     (* LOG_STAT_CHECK_INTERVAL *)

Lemma calm_refl (l : ptr) (L : Log) (s : State) :
  heap s !! l = Some L -> calm l L 0 s s.
Proof.
  intros HL. split; [reflexivity|]. exists L, [].
  rewrite app_nil_r, Z.sub_0_r. repeat split. exact HL.
Qed.

Lemma calm_set (l : ptr) (L L' : Log) (k : Z) (s : State)
    (tr ext : list event) :
  tr = trace s ++ ext -> forallb is_io ext = true ->
  st L' = st L -> fp L' = fp L -> name L' = name L ->
  stat_countdown L' = stat_countdown L - k ->
  calm l L k s (mkState (logroot s) (<[l := L']> (heap s)) tr).
Proof.
  intros Htr Hio Hst Hfp Hnm Hcd. split; [reflexivity|]. exists L', ext.
  simpl. rewrite lookup_insert_eq. auto 10.
Qed.

Lemma calm_same (l : ptr) (L : Log) (s : State) (tr ext : list event) :
  heap s !! l = Some L -> tr = trace s ++ ext -> forallb is_io ext = true ->
  calm l L 0 s (mkState (logroot s) (heap s) tr).
Proof.
  intros HL Htr Hio. split; [reflexivity|]. exists L, ext.
  rewrite Z.sub_0_r. auto 10.
Qed.

Lemma calm_step (l : ptr) (L : Log) (k1 k2 : Z) (s s1 s2 : State) :
  calm l L k1 s s1 ->
  (forall L1, heap s1 !! l = Some L1 -> st L1 = st L -> fp L1 = fp L ->
              name L1 = name L ->
              stat_countdown L1 = stat_countdown L - k1 ->
              calm l L1 k2 s1 s2) ->
  calm l L (k1 + k2) s s2.
Proof.
  intros (Hr1 & L1 & ext1 & HL1 & Ht1 & Hio1 & Hst1 & Hfp1 & Hnm1 & Hcd1) H.
  destruct (H L1 HL1 Hst1 Hfp1 Hnm1 Hcd1)
    as (Hr2 & L2 & ext2 & HL2 & Ht2 & Hio2 & Hst2 & Hfp2 & Hnm2 & Hcd2).
  split; [congruence|]. exists L2, (ext1 ++ ext2).
  split; [exact HL2|]. split; [rewrite Ht2, Ht1, app_assoc; reflexivity|].
  split; [rewrite forallb_app, Hio1, Hio2; reflexivity|].
  repeat (split; [congruence|]). lia.
Qed.

Lemma check_and_reopen_not_due (fn : reopen_fn) (l : ptr) (s : State) (L : Log) :
  heap s !! l = Some L -> 1 < stat_countdown L ->
  check_and_reopen os ivl fn l s
  = Ret false
      (mkState (logroot s)
         (<[l := set_stat_countdown (stat_countdown L - 1) L]> (heap s))
         (trace s)).
Proof.
  intros HL Hcd. unfold check_and_reopen, mbind, M_bind.
  rewrite (periodic_stat_check_not_due os ivl l s L HL Hcd). reflexivity.
Qed.

Lemma check_and_reopen_calm (fn : reopen_fn) (l : ptr) (s : State) (L : Log) :
  heap s !! l = Some L -> 1 < stat_countdown L ->
  exists s1,
    check_and_reopen os ivl fn l s = Ret false s1 /\ calm l L 1 s s1.
Proof.
  intros HL Hcd. rewrite (check_and_reopen_not_due fn l s L HL Hcd).
  eexists. split; [reflexivity|].
  apply (calm_set l L _ 1 s (trace s) []); try reflexivity.
  symmetry. apply app_nil_r.
Qed.

Lemma flush_log_buffer_calm (l : ptr) (s : State) (L : Log) :
  heap s !! l = Some L ->
  exists r s', flush_log_buffer os l s = Ret r s' /\ calm l L 0 s s'.
Proof.
  intros HL.
  assert (buffer L = None \/ buflen L = 0%nat
          \/ (buffer L <> None /\ buflen L <> 0%nat)) as [E|[E|[E1 E2]]].
  { destruct (buffer L); [|auto]. destruct (Nat.eq_dec (buflen L) 0%nat); [auto|].
    right. right. split; [discriminate | assumption]. }
  - rewrite (flush_log_buffer_empty os l s L HL) by (left; exact E).
    exists 0, s. split; [reflexivity | exact (calm_refl l L s HL)].
  - rewrite (flush_log_buffer_empty os l s L HL) by (right; exact E).
    exists 0, s. split; [reflexivity | exact (calm_refl l L s HL)].
  - rewrite (flush_log_buffer_run os l s L HL E1 E2). simpl.
    eexists _, _. split; [reflexivity|].
    eapply calm_set; [reflexivity | reflexivity | | | |];
      destruct (_ =? 1); simpl; try reflexivity; lia.
Qed.

Lemma logfwrite_calm_allocated (l : ptr) (buf : list byte) (s : State)
    (L : Log) (b : list byte) :
  heap s !! l = Some L -> buffer L = Some b -> 1 < stat_countdown L ->
  exists r s' k,
    logfwrite os cap ivl (logfile_reopen os) l buf s = Ret r s'
    /\ (k = 0 \/ k = 1) /\ calm l L k s s'.
Proof.
  intros HL Hb Hcd.
  destruct (le_lt_dec (buflen L + length buf) cap) as [Hfit|Hover].
  - rewrite (logfwrite_fits os cap ivl _ l buf s L b HL Hb Hfit).
    eexists _, _, 0. split; [reflexivity|]. split; [auto|].
    apply (calm_set l L _ 0 s (trace s) []); try reflexivity;
      [symmetry; apply app_nil_r | simpl; lia].
  - rewrite (logfwrite_overflows os cap ivl _ l buf s L b HL Hb Hover).
    destruct (check_and_reopen_calm (logfile_reopen os) l s L HL Hcd)
      as (s1 & Hc & C1).
    rewrite Hc.
    assert (forall s', (exists s2, calm l L 1 s s2 /\
                            (forall L2, heap s2 !! l = Some L2 ->
                               st L2 = st L -> fp L2 = fp L ->
                               name L2 = name L ->
                               stat_countdown L2 = stat_countdown L - 1 ->
                               calm l L2 0 s2 s')) ->
                         calm l L 1 s s') as Hfin.
    { intros s' (s2 & C & Hn). apply (calm_step l L 1 0 s s2 s' C Hn). }
    pose proof C1 as (_ & L1 & _ & HL1 & _).
    destruct (flush_log_buffer_calm l s1 L1 HL1) as (r1 & s2 & Hrun & C2).
    assert (calm l L 1 s s2) as C12.
    { apply (calm_step l L 1 0 s s1 s2 C1). intros L1' HL1'.
      rewrite HL1 in HL1'. injection HL1' as <-. intros _ _ _ _. exact C2. }
    pose proof C12 as (_ & L2 & _ & HL2 & _).
    unfold mbind at 1, M_bind at 1. rewrite Hrun.
    destruct (r1 <? 0).
    { eexists _, _, 1. split; [reflexivity|]. split; [auto | exact C12]. }
    unfold mbind at 1, M_bind at 1, get_log at 1. rewrite HL2.
    destruct (length buf <=? cap)%nat.
    + unfold set_log, mbind, M_bind, mret, M_ret. simpl.
      eexists _, _, 1. split; [reflexivity|]. split; [auto|].
      apply Hfin. exists s2. split; [exact C12|].
      intros L2' HL2'. rewrite HL2 in HL2'. injection HL2' as <-.
      intros _ _ _ _.
      apply (calm_set l L2 _ 0 s2 (trace s2) []); try reflexivity;
        [symmetry; apply app_nil_r | simpl; lia].
    + unfold sys_fwrite, set_log, get_log, get_state, emit, mbind, M_bind,
        mret, M_ret. simpl.
      destruct (fwrite_result os (trace s2) (fp L2) buf =? 1); simpl.
      * rewrite HL2. simpl. eexists _, _, 1. split; [reflexivity|].
        split; [auto|]. apply Hfin. exists s2. split; [exact C12|].
        intros L2' HL2'. rewrite HL2 in HL2'. injection HL2' as <-.
        intros _ _ _ _.
        eapply calm_set; try reflexivity. simpl. lia.
      * eexists _, _, 1. split; [reflexivity|]. split; [auto|].
        apply Hfin. exists s2. split; [exact C12|].
        intros L2' HL2'. rewrite HL2 in HL2'. injection HL2' as <-.
        intros _ _ _ _.
        eapply calm_same; [exact HL2 | reflexivity | reflexivity].
Qed.

Lemma logfwrite_calm (l : ptr) (buf : list byte) (s : State) (L : Log) :
  heap s !! l = Some L -> 1 < stat_countdown L ->
  exists r s' k,
    logfwrite os cap ivl (logfile_reopen os) l buf s = Ret r s'
    /\ (k = 0 \/ k = 1) /\ calm l L k s s'.
Proof.
  intros HL Hcd. destruct (buffer L) as [b|] eqn:Hb.
  - exact (logfwrite_calm_allocated l buf s L b HL Hb Hcd).
  - rewrite (logfwrite_unallocated os cap ivl _ l buf s L HL Hb).
    unfold sys_alloc, mbind, M_bind, get_state, emit, mret, M_ret, set_log.
    simpl. destruct (os_alloc os (trace s)); simpl.
    + set (L1 := set_buflen 0 (set_buffer (Some (replicate cap x00)) L)).
      set (s1 := mkState (logroot s) (<[l := L1]> (heap s))
                         (trace s ++ [EvAlloc true])).
      destruct (logfwrite_calm_allocated l buf s1 L1 (replicate cap x00))
        as (r & s' & k & Hrun & Hk & C); [apply lookup_insert_eq | reflexivity
                                         | exact Hcd|].
      exists r, s', k. split; [exact Hrun|]. split; [exact Hk|].
      replace k with (0 + k) by lia.
      apply (calm_step l L 0 k s s1 s').
      * eapply calm_set; try reflexivity. simpl. lia.
      * intros L1' HL1'. unfold s1 in HL1'. simpl in HL1'.
        rewrite lookup_insert_eq in HL1'. injection HL1' as <-.
        intros _ _ _ _. exact C.
    + unfold sys_fwrite, mbind, M_bind, get_state, emit, mret, M_ret. simpl.
      eexists _, _, 0. split; [reflexivity|]. split; [auto|].
      rewrite <- app_assoc.
      eapply calm_same; [exact HL | reflexivity | reflexivity].
Qed.

Lemma flush_one_calm (l : ptr) (s : State) (L : Log) :
  heap s !! l = Some L -> 1 < stat_countdown L ->
  exists r s',
    flush_one os ivl (logfile_reopen os) l s = Ret r s' /\ calm l L 1 s s'.
Proof.
  intros HL Hcd. unfold flush_one.
  destruct (check_and_reopen_calm (logfile_reopen os) l s L HL Hcd)
    as (s1 & Hc & C1).
  unfold mbind at 1, M_bind at 1. rewrite Hc.
  pose proof C1 as (_ & L1 & _ & HL1 & _).
  destruct (flush_log_buffer_calm l s1 L1 HL1) as (r1 & s2 & Hrun & C2).
  assert (calm l L 1 s s2) as C12.
  { apply (calm_step l L 1 0 s s1 s2 C1). intros L1' HL1'.
    rewrite HL1 in HL1'. injection HL1' as <-. intros _ _ _ _. exact C2. }
  pose proof C12 as (_ & L2 & _ & HL2 & _).
  unfold mbind at 1, M_bind at 1. rewrite Hrun.
  destruct (r1 <? 0).
  { eexists _, _. split; [reflexivity | exact C12]. }
  unfold sys_fflush, mbind, M_bind, get_state, emit, mret, M_ret,
    get_log, set_log. simpl. rewrite HL2. simpl. rewrite HL2. simpl.
  eexists _, _. split; [reflexivity|].
  apply (calm_step l L 1 0 s s2 _ C12).
  intros L2' HL2'. rewrite HL2 in HL2'. injection HL2' as <-.
  intros _ _ _ _. eapply calm_set; try reflexivity. simpl. lia.
Qed.

(** X16: between two rotation checks logfwrite and logfflush make no
    system call on the file.  While the countdown of a Log is above 1
    they return without reaching lf_move_fd, call nothing but malloc,
    fwrite and fflush (no fstat, close, open or dup), keep the Log
    registered with its stream and leave its cached stat untouched; a
    logfwrite takes the countdown down by at most one, a logfflush by
    exactly one. *)
Theorem no_stat_between_checks (l : ptr) (s : State) (L : Log) :
  heap s !! l = Some L -> 1 < stat_countdown L ->
  (forall buf,
     exists r s' k,
       logfwrite os cap ivl (logfile_reopen os) l buf s = Ret r s'
       /\ (k = 0 \/ k = 1) /\ calm l L k s s')
  /\ exists r s',
       logfflush os ivl (logfile_reopen os) (Some l) s = Ret r s'
       /\ calm l L 1 s s'.
Proof.
  intros HL Hcd. split.
  - intros buf. exact (logfwrite_calm l buf s L HL Hcd).
  - destruct (flush_one_calm l s L HL Hcd) as (o & s' & Hrun & C).
    unfold logfflush, mbind, M_bind. rewrite Hrun.
    destruct o as [r|]; eexists _, s'; (split; [reflexivity | exact C]).
Qed.

End BetweenChecks.

(** ** The properties above at work on concrete registries *)

Lemma wf_no_logs (cap : nat) : wf cap no_logs.
Proof.
  split; [constructor|]. split.
  - intros p. simpl. rewrite lookup_empty. split; intros H.
    + inversion H.
    + destruct H as [x Hx]. discriminate.
  - intros p L. simpl. rewrite lookup_empty. discriminate.
Qed.

Lemma wf_one_log (cap : nat) (l : ptr) (L : Log) :
  log_ok cap L -> wf cap (one_log l L).
Proof.
  intros H. exact (wf_new cap no_logs l L [] (wf_no_logs cap) (lookup_empty l) H).
Qed.

Lemma log_ok_full_log (oc : Z) : 1 <= oc -> log_ok 4 (full_log oc).
Proof.
  intros H. split; [exact H|]. unfold buf_ok. simpl.
  split; [reflexivity | repeat constructor].
Qed.

Lemma log_ok_cached_log : log_ok 4 cached_log.
Proof. split; [simpl; lia | reflexivity]. Qed.

Lemma log_ok_other_log : log_ok 4 other_log.
Proof.
  split; [simpl; lia|]. unfold buf_ok. simpl.
  split; [reflexivity | repeat constructor].
Qed.

Lemma log_ok_flushed_log : log_ok 4 flushed_log.
Proof.
  split; [simpl; lia|]. unfold buf_ok. simpl.
  split; [reflexivity | repeat constructor].
Qed.

Lemma wf_two_logs : wf 4 two_logs.
Proof.
  apply (wf_new 4 (one_log 2%nat other_log) 1%nat (full_log 2) []).
  - apply wf_one_log. exact log_ok_other_log.
  - reflexivity.
  - apply log_ok_full_log. lia.
Qed.

Lemma changed_logfile_conservative_witness :
  exists s' L',
    changed_logfile os_grown 1%nat (one_log 1%nat cached_log) = Ret tt s'
    /\ heap s' !! 1%nat = Some L'
    /\ st_dev (st L') = 1 /\ st_size (st L') = 10.
Proof.
  destruct (changed_logfile_conservative os_grown 1%nat
              (one_log 1%nat cached_log) cached_log eq_refl)
    as (s' & L' & Hrun & HL' & _ & Hdev & _ & _ & _ & _ & _ & _ & Hgrow).
  exists s', L'. split; [exact Hrun|]. split; [exact HL'|].
  split; [exact Hdev|].
  destruct (Hgrow (mkstat 5 7 1 10 3 3) eq_refl) as [Hs _]; [simpl; lia|].
  exact Hs.
Defined.

Lemma stolen_logfile_reports_once_witness :
  exists v1 s1 s2,
    stolen_logfile os_rotated 1%nat (one_log 1%nat cached_log) = Ret v1 s1
    /\ stolen_logfile os_rotated 1%nat s1 = Ret 0 s2.
Proof.
  destruct (stolen_logfile_reports_once os_rotated 1%nat
              (one_log 1%nat cached_log) cached_log eq_refl)
    as (v1 & s1 & v2 & s2 & Hrun1 & Hrun2 & Hnone & _).
  exists v1, s1, s2. split; [exact Hrun1|].
  rewrite <- (Hnone eq_refl). exact Hrun2.
Defined.

Lemma session_keeps_registry_sound_witness :
  exists vs s',
    run_ops os_fine 4 2
      [OpOpen "screenlog.0" (Some 3); OpWrite 1%nat [x61]; OpFlush None;
       OpClose 1%nat] no_logs
    = Ret vs s'
    /\ wf 4 s'.
Proof.
  apply (session_keeps_registry_sound os_fine 4 2 _ no_logs).
  - apply wf_no_logs.
  - split; [exact I|]. intros v s' H. vm_compute in H.
    injection H as _ <-.
    split; [apply list_elem_of_here|]. intros v' s' H.
    split; [exact I|]. intros v'' s'' H'.
    split; [exact I|]. intros v''' s''' H''. exact I.
  - intros tr x. left. simpl. lia.
Defined.

Lemma buffered_bytes_reach_the_stream_witness :
  exists rs s1 L1,
    logfwrite_each os_fine 4 2 (logfile_reopen os_fine) 1%nat
      [[x64]; [x65; x66]] (one_log 1%nat (full_log 1)) = Ret rs s1
    /\ heap s1 !! 1%nat = Some L1
    /\ written 3 (trace s1) ++ buffered L1 = [x61; x62; x63; x64; x65; x66].
Proof.
  edestruct (buffered_bytes_reach_the_stream os_fine 4 2 1%nat
               [[x64]; [x65; x66]] (one_log 1%nat (full_log 1)))
    as [(L1 & HL1 & _ & Hw) _].
  - apply wf_one_log. apply log_ok_full_log. lia.
  - reflexivity.
  - vm_compute. reflexivity.
  - repeat constructor.
  - eexists _, _, L1. split; [vm_compute; reflexivity|].
    split; [exact HL1 | exact Hw].
Defined.


Lemma islogfile_reads_registry_witness :
  islogfile (Some "screenlog.0") (one_log 1%nat cached_log)
  = Ret 1 (one_log 1%nat cached_log).
Proof.
  destruct (islogfile_reads_registry 4 (Some "screenlog.0")
              (one_log 1%nat cached_log))
    as (v & Hrun & _ & Hiff).
  - apply wf_one_log. exact log_ok_cached_log.
  - rewrite Hrun. f_equal. apply Hiff.
    exists 1%nat, cached_log.
    split; [apply list_elem_of_here | split; reflexivity].
Defined.

Lemma logfopen_newest_shadows_witness :
  exists l s1 s2,
    logfopen os_fine 2 "screenlog.0" (Some 5) (one_log 1%nat cached_log)
    = Ret (Some l) s1
    /\ l <> 1%nat
    /\ logfopen os_fine 2 "screenlog.0" None s1 = Ret (Some l) s2.
Proof.
  destruct (logfopen_newest_shadows os_fine 4 2 "screenlog.0" 5
              (one_log 1%nat cached_log))
    as (l & s1 & Hrun & Hnin & _ & _ & _ & s2 & L2 & Hjoin & _).
  - apply wf_one_log. exact log_ok_cached_log.
  - reflexivity.
  - exists l, s1, s2. split; [exact Hrun|]. split; [|exact Hjoin].
    intros ->. apply Hnin. apply list_elem_of_here.
Defined.

Lemma logfile_reopen_success_witness :
  exists s',
    logfile_reopen os_fine "screenlog.0" 3 1%nat (one_log 1%nat cached_log)
    = Ret 0 s'
    /\ keeps 1%nat same_but_stat (one_log 1%nat cached_log) s'.
Proof.
  edestruct (logfile_reopen_success os_fine "screenlog.0" 3 1%nat
               (one_log 1%nat cached_log))
    as [_ H]; [reflexivity | vm_compute; reflexivity|].
  destruct (H eq_refl) as (K & _).
  eexists. split; [vm_compute; reflexivity | exact K].
Defined.


Lemma logfflush_all_success_witness :
  exists s',
    logfflush os_fine 2 (logfile_reopen os_fine) None two_logs = Ret 0 s'
    /\ logroot s' = [1%nat; 2%nat].
Proof.
  edestruct (logfflush_all_success os_fine 4 2 two_logs)
    as (_ & Hr & _); [exact wf_two_logs | vm_compute; reflexivity|].
  eexists. split; [vm_compute; reflexivity | exact Hr].
Defined.

Lemma run_op_touches_only_its_log_witness :
  exists v s',
    run_op os_fine 4 2 (OpWrite 1%nat [x64; x65]) two_logs = Ret v s'
    /\ heap s' !! 2%nat = Some other_log.
Proof.
  edestruct (run_op_touches_only_its_log os_fine 4 2 (OpWrite 1%nat [x64; x65])
               1%nat two_logs)
    as [Hoth _]; [reflexivity | reflexivity | vm_compute; reflexivity|].
  eexists _, _. split; [vm_compute; reflexivity|].
  destruct (Hoth 2%nat) as [Hh _]; [discriminate|]. exact Hh.
Defined.

Lemma logfile_reopen_keeps_cached_identity_witness :
  exists s' s'',
    logfile_reopen os_fine "screenlog.0" 3 1%nat (one_log 1%nat rotated_log)
    = Ret 0 s'
    /\ stolen_logfile os_fine 1%nat s' = Ret (-1) s''.
Proof.
  edestruct (logfile_reopen_keeps_cached_identity os_fine "screenlog.0" 3
               1%nat (one_log 1%nat rotated_log))
    as (L' & _ & _ & _ & _ & _ & _ & _ & Hagain);
    [reflexivity | vm_compute; reflexivity|].
  destruct (Hagain ltac:(intros [E _]; discriminate E) (mkstat 1 1 1 0 0 0)
              eq_refl ltac:(simpl; lia)) as (s'' & Hst).
  eexists _, s''. split; [vm_compute; reflexivity | exact Hst].
Defined.

Lemma no_stat_between_checks_witness :
  exists r s',
    logfflush os_fine 2 (logfile_reopen os_fine) (Some 1%nat)
      (one_log 1%nat flushed_log) = Ret r s'
    /\ calm 1%nat flushed_log 1 (one_log 1%nat flushed_log) s'.
Proof.
  destruct (no_stat_between_checks os_fine 4 2 1%nat
              (one_log 1%nat flushed_log) flushed_log eq_refl)
    as [_ H]; [simpl; lia | exact H].
Defined.
